(** * pelanggaran-siswa: violation lifecycle, notification and photo handlers

    A shallow embedding of the server handlers
    ([handlers/violations.ts], [handlers/students.ts], [handlers/whatsapp.ts],
    [handlers/photos.ts], [handlers/auth.ts]) together with the properties
    that the specification states about them, and further properties that
    the handlers themselves show.

    - The relational store is a record of three tables, each a list of rows
      in insertion order; queries are filters, sorts and slices of those
      lists.
    - The store refuses a statement whose parameters do not fit the
      columns ([integer], [text], [timestamp]); the handler then sees the
      error of the driver. The router checks [z.number()] and
      [z.string()] only, so such parameters reach the handlers.
    - [ORDER BY] leaves the order of rows with equal keys to the store:
      the order a listing comes in is an input of the handler.
    - The file system and [path.join] are operations of the runtime: the
      photo handlers take them as parameters, and [MemFs] is an in-memory
      instance of them.
    - An [async] handler is a function from the state it touches to an
      [Outcome] (resolved value or rejected [Error]) and the state it
      leaves behind, so that what a rejected call did to the store is
      visible.
    - Clock reads ([new Date()], [Date.now()]) and [Math.random()] are
      inputs of the handler that performs them; so are the values that
      the store draws for the serial [id] of a user or a student, while
      the serial of the violations table is part of the store.
    - The password functions, the collation of [ORDER BY name] and the
      floating-point scaling of the thumbnail size belong to the runtime:
      the handlers that use them take them as parameters. The error with
      which the driver fails a refused statement and the time stamps that
      the store takes from a caller are the two fields of [Driver].
    - Identifiers are integers of any size (numbers with a fraction are
      not covered), timestamps are milliseconds since the epoch, and a
      string is a sequence of 8-bit characters (texts outside ASCII in an
      encoding that keeps ASCII characters apart, as UTF-8 does). *)

From Stdlib Require Import ZArith String Ascii List Bool Lia.
From Stdlib Require Import DecimalString DecimalZ DecimalPos DecimalFacts.
From Stdlib Require Import Sorted Permutation.
From stdpp Require Import base option list sorting gmap strings.

Import ListNotations.
Local Open Scope Z_scope.
Local Open Scope string_scope.

(* Let [simpl] unfold string concatenation on literal prefixes. *)
#[local] Arguments String.append : simpl nomatch.

(** ** JavaScript values used by the handlers *)

Module Js.

(** [throw new Error(message)] *)
Record Error : Type := mkError { message : string }.

(** The settled state of the promise an [async] function returns. *)
Inductive Outcome (A : Type) : Type :=
| Resolved (a : A)
| Rejected (e : Error).
Arguments Resolved {A} a.
Arguments Rejected {A} e.

(** An [async] function over a state [S]: the state survives a
    rejection. *)
Definition Async (S A : Type) : Type := S -> Outcome A * S.

Definition ret {S A} (a : A) : Async S A := fun s => (Resolved a, s).
Definition throw {S A} (msg : string) : Async S A :=
  fun s => (Rejected (mkError msg), s).
Definition bind {S A B} (m : Async S A) (k : A -> Async S B) : Async S B :=
  fun s => match m s with
           | (Resolved a, s') => k a s'
           | (Rejected e, s') => (Rejected e, s')
           end.
(** [try { body } catch (error) { handler }] *)
Definition try_catch {S A} (body : Async S A) (handler : Error -> Async S A)
  : Async S A :=
  fun s => match body s with
           | (Resolved a, s') => (Resolved a, s')
           | (Rejected e, s') => handler e s'
           end.
(** [throw error] inside a [catch (error)] block. *)
Definition rethrow {S A} (e : Error) : Async S A := fun s => (Rejected e, s).
Definition get {S} : Async S S := fun s => (Resolved s, s).
Definition put {S} (s : S) : Async S unit := fun _ => (Resolved tt, s).

(** [String.prototype.startsWith] *)
Fixpoint startsWith (s prefix : string) {struct prefix} : bool :=
  match prefix with
  | EmptyString => true
  | String a prefix' =>
      match s with
      | EmptyString => false
      | String b s' => Ascii.eqb a b && startsWith s' prefix'
      end
  end.

(** [String.prototype.includes] *)
Fixpoint includes (s needle : string) : bool :=
  startsWith s needle
  || match s with
     | EmptyString => false
     | String _ s' => includes s' needle
     end.

(** The line feed of a template literal that spans lines. *)
Definition nl : string := String "010"%char EmptyString.

(** A value is truthy in [if (x)] for a nullable string when it is
    neither [null] nor the empty string. *)
Definition truthy (x : option string) : bool :=
  match x with
  | Some (String _ _) => true
  | _ => false
  end.

(** [`${n}`] for an integer [n]. *)
Definition string_of_Z (n : Z) : string :=
  NilZero.string_of_int (Z.to_int n).

(** [x ?? d] *)
Definition nullish {A} (x : option A) (d : A) : A :=
  match x with Some a => a | None => d end.

End Js.

Import Js.

Notation "'await' x <- m ; k" := (Js.bind m (fun x => k))
  (at level 10, x name, m at level 100, k at level 200).
Notation "'await_' m ; k" := (Js.bind m (fun _ => k))
  (at level 10, m at level 100, k at level 200).

(** ** Data model ([schema.ts], [db/schema.ts]) *)

(** Timestamps are milliseconds since the epoch. *)
Definition Date := Z.

Inductive Role := admin | teacher.

(** The column [id] of the three tables is [user_id], [student_id_] and
    [id] below: the fields of one module share a name space. *)
Record User := mkUser {
  user_id : Z;
  username : string;
  password : string;
  role : Role;
  user_created_at : Date;
  user_updated_at : Date
}.

Record Student := mkStudent {
  student_id_ : Z;
  nisn : string;
  name : string;
  class : string;
  parent_name : string;
  parent_whatsapp : string;
  student_created_at : Date;
  student_updated_at : Date
}.

Record Violation := mkViolation {
  id : Z;
  student_id : Z;
  violation_type : string;
  location : string;
  description : option string;
  photo_url : option string;
  violation_time : Date;
  reported_by : Z;
  whatsapp_sent : bool;
  whatsapp_sent_at : option Date;
  created_at : Date;
  updated_at : Date
}.

Record CreateViolationInput := mkCreateViolationInput {
  cv_student_id : Z;
  cv_violation_type : string;
  cv_location : string;
  cv_description : option string;
  cv_photo_url : option string;
  cv_violation_time : Date;
  cv_reported_by : Z
}.

(** An optional field is [None] when it is [undefined]; a nullable
    optional field is [Some None] when it is supplied as [null]. *)
Record UpdateViolationInput := mkUpdateViolationInput {
  uv_id : Z;
  uv_student_id : option Z;
  uv_violation_type : option string;
  uv_location : option string;
  uv_description : option (option string);
  uv_photo_url : option (option string);
  uv_violation_time : option Date;
  uv_whatsapp_sent : option bool
}.

Record GetViolationsInput := mkGetViolationsInput {
  gv_student_id : option Z;
  gv_limit : option nat;
  gv_offset : option nat
}.

Record SendWhatsAppInput := mkSendWhatsAppInput {
  sw_violation_id : Z;
  sw_phone_number : string;
  sw_message : string
}.

(** The columns [id] and [nisn] of the students table are a serial
    primary key and a unique text (see [db/schema.ts]). *)
Record CreateStudentInput := mkCreateStudentInput {
  cs_nisn : string;
  cs_name : string;
  cs_class : string;
  cs_parent_name : string;
  cs_parent_whatsapp : string
}.


(** The object handed to [.set(...)] of the students table. *)
Record StudentSet := mkStudentSet {
  sset_updated_at : option Date;
  sset_nisn : option string;
  sset_name : option string;
  sset_class : option string;
  sset_parent_name : option string;
  sset_parent_whatsapp : option string
}.


(** The relational store. [violations_id_seq] is the next value of the
    serial primary key of the violations table. *)
Record Database := mkDatabase {
  usersTable : list User;
  studentsTable : list Student;
  violationsTable : list Violation;
  violations_id_seq : Z
}.

Definition set_studentsTable (db : Database) (t : list Student) : Database :=
  mkDatabase (usersTable db) t (violationsTable db) (violations_id_seq db).

Definition set_violationsTable (db : Database) (t : list Violation) : Database :=
  mkDatabase (usersTable db) (studentsTable db) t (violations_id_seq db).

(** ** Query building blocks (drizzle-orm over PostgreSQL) *)

Module Sql.

(** [ORDER BY violation_time DESC] *)
Definition desc_violation_time (a b : Violation) : Prop :=
  violation_time b <= violation_time a.

#[export] Instance desc_violation_time_dec a b :
  Decision (desc_violation_time a b).
Proof. unfold desc_violation_time. apply _. Defined.

(** What [ORDER BY violation_time DESC] promises of the order in which
    the rows of a query come: the same rows, in descending order. Rows
    with equal times come as the store pleases, and not in the same way
    from one query to the next, so the order is an input [order] of the
    handler that runs the query. *)
Definition orders_by_time (order : list Violation -> list Violation) : Prop :=
  forall rows,
    order rows ≡ₚ rows /\ StronglySorted desc_violation_time (order rows).

(** One such order: stdpp's merge sort. *)
Definition merge_order (rows : list Violation) : list Violation :=
  merge_sort desc_violation_time rows.

(** [UPDATE t SET ... WHERE p RETURNING *]: the new table and the rows
    that were rewritten. *)
Definition update {R} (p : R -> Prop) `{!forall r, Decision (p r)}
    (set : R -> R) (rows : list R) : list R * list R :=
  (map (fun r => if decide (p r) then set r else r) rows,
   map set (filter p rows)).

(** [DELETE FROM t WHERE p RETURNING *] *)
Definition delete {R} (p : R -> Prop) `{!forall r, Decision (p r)}
    (rows : list R) : list R * list R :=
  (filter (fun r => ~ p r) rows, filter p rows).

End Sql.

Import Sql.

(** ** [handlers/violations.ts] *)

(** The object handed to [.set(...)]: a column is rewritten when its key
    is present. *)
Record ViolationSet := mkViolationSet {
  set_updated_at : option Date;
  set_student_id : option Z;
  set_violation_type : option string;
  set_location : option string;
  set_description : option (option string);
  set_photo_url : option (option string);
  set_violation_time : option Date;
  set_whatsapp_sent : option bool;
  set_whatsapp_sent_at : option (option Date)
}.

Definition apply_set (u : ViolationSet) (v : Violation) : Violation :=
  {| id := id v;
     student_id := nullish (set_student_id u) (student_id v);
     violation_type := nullish (set_violation_type u) (violation_type v);
     location := nullish (set_location u) (location v);
     description := nullish (set_description u) (description v);
     photo_url := nullish (set_photo_url u) (photo_url v);
     violation_time := nullish (set_violation_time u) (violation_time v);
     reported_by := reported_by v;
     whatsapp_sent := nullish (set_whatsapp_sent u) (whatsapp_sent v);
     whatsapp_sent_at := nullish (set_whatsapp_sent_at u) (whatsapp_sent_at v);
     created_at := created_at v;
     updated_at := nullish (set_updated_at u) (updated_at v) |}.

(** The result of [sendWhatsAppMessage]. *)
Record SendResult := mkSendResult {
  success : bool;
  messageId : option string;
  error : option string
}.

(** ** The statements that the handlers send to the store *)

(** The columns of [db/schema.ts] bound what the store takes as a
    parameter. An [integer] or [serial] column is compared with and
    holds 32-bit integers, [LIMIT] and [OFFSET] take 64-bit integers,
    and a [text] holds no NUL character. *)
Definition int4 (n : Z) : bool :=
  Z.leb (-2147483648) n && Z.leb n 2147483647.

Definition int8 (n : Z) : bool :=
  Z.leb (-9223372036854775808) n && Z.leb n 9223372036854775807.

Definition nul : string := String "000"%char EmptyString.

Definition text_ok (s : string) : bool := negb (includes s nul).

(** A parameter that may be absent or [null]. *)
Definition nullable_ok {A} (ok : A -> bool) (x : option A) : bool :=
  match x with
  | Some a => ok a
  | None => true
  end.

(** The statements of the handlers, each with the parameters that come
    from the caller or from a sequence of the store. The time stamps
    that the handlers read off the clock are left out. *)
Inductive Statement :=
| select_violations (sid : option Z) (limit offset : nat)
| select_violations_of_student (x : Z)
| select_violation (x : Z)
| select_violation_with_student (x : Z)
| insert_violation (row : Violation)
| update_violation (x : Z) (set : ViolationSet)
| delete_violation (x : Z)
| select_student (x : Z)
| count_violations_of_student (x : Z)
| insert_student (input : CreateStudentInput)
| update_student (x : Z) (set : StudentSet)
| delete_student (x : Z)
| select_user (x : Z)
| select_user_by_username (name : string)
| insert_user (name : string) (role : Role).

(** What the handlers need of the driver: the error with which a refused
    statement fails (its text names the statement and its parameters),
    and the time stamps that the store accepts from a caller. *)
Class Driver := {
  query_error : Statement -> Error;
  timestamp_ok : Date -> bool
}.

Section Store.

Context `{!Driver}.

Definition accepted (s : Statement) : bool :=
  match s with
  | select_violations sid limit offset =>
      nullable_ok int4 sid && int8 (Z.of_nat limit) && int8 (Z.of_nat offset)
  | select_violations_of_student x => int4 x
  | select_violation x => int4 x
  | select_violation_with_student x => int4 x
  | insert_violation row =>
      int4 (id row) && int4 (student_id row) && int4 (reported_by row)
      && text_ok (violation_type row) && text_ok (location row)
      && nullable_ok text_ok (description row)
      && nullable_ok text_ok (photo_url row)
      && timestamp_ok (violation_time row)
  | update_violation x set =>
      int4 x && nullable_ok int4 (set_student_id set)
      && nullable_ok text_ok (set_violation_type set)
      && nullable_ok text_ok (set_location set)
      && nullable_ok (nullable_ok text_ok) (set_description set)
      && nullable_ok (nullable_ok text_ok) (set_photo_url set)
      && nullable_ok timestamp_ok (set_violation_time set)
  | delete_violation x => int4 x
  | select_student x => int4 x
  | count_violations_of_student x => int4 x
  | insert_student input =>
      text_ok (cs_nisn input) && text_ok (cs_name input)
      && text_ok (cs_class input) && text_ok (cs_parent_name input)
      && text_ok (cs_parent_whatsapp input)
  | update_student x set =>
      int4 x && nullable_ok text_ok (sset_nisn set)
      && nullable_ok text_ok (sset_name set)
      && nullable_ok text_ok (sset_class set)
      && nullable_ok text_ok (sset_parent_name set)
      && nullable_ok text_ok (sset_parent_whatsapp set)
  | delete_student x => int4 x
  | select_user x => int4 x
  | select_user_by_username name => text_ok name
  | insert_user name role => text_ok name
  end.

(** [await db. ... .execute()]: a refused statement rejects with the
    error of the driver and touches nothing. *)
Definition execute (s : Statement) : Async Database unit :=
  if accepted s then ret tt else rethrow (query_error s).

(** [order] is the order in which the store returns the rows. *)
Definition getViolations (order : list Violation -> list Violation)
    (input : option GetViolationsInput) : Async Database (list Violation) :=
  try_catch
    (let limit := nullish (input ≫= gv_limit) 1000%nat in
     let offset := nullish (input ≫= gv_offset) 0%nat in
     await_ execute (select_violations (input ≫= gv_student_id) limit offset);
     await db <- get;
     match input ≫= gv_student_id with
     | Some sid =>
         ret (take limit (drop offset
                (order
                   (filter (fun v => student_id v = sid) (violationsTable db)))))
     | None =>
         ret (take limit (drop offset (order (violationsTable db))))
     end)
    rethrow.

Definition getViolationById (x : Z) : Async Database (option Violation) :=
  try_catch
    (await_ execute (select_violation x);
     await db <- get;
     let results := take 1 (filter (fun v => id v = x) (violationsTable db)) in
     ret (head results))
    rethrow.

(** [now] is the clock of [defaultNow()]; the serial [id] comes from
    the sequence of the store, which fails once it has left the 32-bit
    integers. *)
Definition createViolation (now : Date) (input : CreateViolationInput)
  : Async Database Violation :=
  try_catch
    (await_ execute (select_student (cv_student_id input));
     await db <- get;
     let student :=
       take 1 (filter (fun s => student_id_ s = cv_student_id input)
                 (studentsTable db)) in
     if bool_decide (student = [])
     then throw ("Student with ID " ++ string_of_Z (cv_student_id input)
                   ++ " not found")
     else
     await_ execute (select_user (cv_reported_by input));
     let reporter :=
       take 1 (filter (fun u => user_id u = cv_reported_by input)
                 (usersTable db)) in
     if bool_decide (reporter = [])
     then throw ("User with ID " ++ string_of_Z (cv_reported_by input)
                   ++ " not found")
     else
     let row :=
       {| id := violations_id_seq db;
          student_id := cv_student_id input;
          violation_type := cv_violation_type input;
          location := cv_location input;
          description := cv_description input;
          photo_url := cv_photo_url input;
          violation_time := cv_violation_time input;
          reported_by := cv_reported_by input;
          whatsapp_sent := false;
          whatsapp_sent_at := None;
          created_at := now;
          updated_at := now |} in
     await_ execute (insert_violation row);
     await_ put (mkDatabase (usersTable db) (studentsTable db)
                   (violationsTable db ++ [row])
                   (violations_id_seq db + 1));
     ret row)
    rethrow.

(** The [updateData] object that [updateViolation] builds field by field;
    [existing_sent] is [existing[0].whatsapp_sent]. *)
Definition updateData (now : Date) (input : UpdateViolationInput)
    (existing_sent : bool) : ViolationSet :=
  {| set_updated_at := Some now;
     set_student_id := uv_student_id input;
     set_violation_type := uv_violation_type input;
     set_location := uv_location input;
     set_description := uv_description input;
     set_photo_url := uv_photo_url input;
     set_violation_time := uv_violation_time input;
     set_whatsapp_sent := uv_whatsapp_sent input;
     set_whatsapp_sent_at :=
       match uv_whatsapp_sent input with
       | Some sent =>
           if sent && negb existing_sent then Some (Some now) else None
       | None => None
       end |}.

Definition updateViolation (now : Date) (input : UpdateViolationInput)
  : Async Database (option Violation) :=
  try_catch
    (await_ execute (select_violation (uv_id input));
     await db <- get;
     let existing :=
       take 1 (filter (fun v => id v = uv_id input) (violationsTable db)) in
     match existing with
     | [] => throw ("Violation with ID " ++ string_of_Z (uv_id input)
                      ++ " not found")
     | existing0 :: _ =>
         await_ (match uv_student_id input with
                 | Some sid =>
                     await_ execute (select_student sid);
                     let student :=
                       take 1 (filter (fun s => student_id_ s = sid)
                                 (studentsTable db)) in
                     if bool_decide (student = [])
                     then throw ("Student with ID " ++ string_of_Z sid
                                   ++ " not found")
                     else ret tt
                 | None => ret tt
                 end);
         let updateData := updateData now input (whatsapp_sent existing0) in
         await_ execute (update_violation (uv_id input) updateData);
         let '(table, result) :=
           Sql.update (fun v => id v = uv_id input)
             (apply_set updateData)
             (violationsTable db) in
         await_ put (set_violationsTable db table);
         ret (head result)
     end)
    rethrow.

Definition deleteViolation (x : Z) : Async Database unit :=
  try_catch
    (await_ execute (select_violation x);
     await db <- get;
     let existing :=
       take 1 (filter (fun v => id v = x) (violationsTable db)) in
     if bool_decide (existing = [])
     then throw ("Violation with ID " ++ string_of_Z x ++ " not found")
     else
       await_ execute (delete_violation x);
       let '(table, _) := Sql.delete (fun v => id v = x) (violationsTable db) in
       put (set_violationsTable db table))
    rethrow.

(** [order] is the order in which the store returns the rows. *)
Definition getViolationsByStudent (order : list Violation -> list Violation)
    (studentId : Z) : Async Database (list Violation) :=
  try_catch
    (await_ execute (select_student studentId);
     await db <- get;
     let student :=
       take 1 (filter (fun s => student_id_ s = studentId) (studentsTable db)) in
     if bool_decide (student = [])
     then throw ("Student with ID " ++ string_of_Z studentId ++ " not found")
     else
       await_ execute (select_violations_of_student studentId);
       ret (order
              (filter (fun v => student_id v = studentId) (violationsTable db))))
    rethrow.

(** ** [handlers/students.ts] *)

Definition deleteStudent (x : Z) : Async Database unit :=
  try_catch
    (await_ execute (count_violations_of_student x);
     await db <- get;
     let count :=
       length (filter (fun v => student_id v = x) (violationsTable db)) in
     if bool_decide (0 < count)%nat
     then throw "Cannot delete student with existing violations"
     else
       await_ execute (delete_student x);
       let '(table, results) :=
         Sql.delete (fun s => student_id_ s = x) (studentsTable db) in
       await_ put (set_studentsTable db table);
       if bool_decide (results = [])
       then throw "Student not found"
       else ret tt)
    rethrow.

(** ** [handlers/whatsapp.ts] *)

(** The object that [markWhatsAppSent] hands to [.set(...)]; [now] is
    its [new Date()]. *)
Definition markData (now : Date) : ViolationSet :=
  {| set_updated_at := None;
     set_student_id := None;
     set_violation_type := None;
     set_location := None;
     set_description := None;
     set_photo_url := None;
     set_violation_time := None;
     set_whatsapp_sent := Some true;
     set_whatsapp_sent_at := Some (Some now) |}.

(** The [messageId] argument is not used by the handler. *)
Definition markWhatsAppSent (now : Date) (violationId : Z) (messageId : string)
  : Async Database unit :=
  try_catch
    (await_ execute (update_violation violationId (markData now));
     await db <- get;
     let '(table, _) :=
       Sql.update (fun v => id v = violationId)
         (apply_set (markData now))
         (violationsTable db) in
     put (set_violationsTable db table))
    rethrow.

(** [date_now] is the [Date.now()] read for the message identifier,
    [random] the text of [Math.random().toString(36).substr(2, 9)], and
    [now] the clock read of [markWhatsAppSent]. *)
Definition sendWhatsAppMessage (date_now : Z) (random : string) (now : Date)
    (input : SendWhatsAppInput) : Async Database SendResult :=
  try_catch
    (await_ execute (select_violation (sw_violation_id input));
     await db <- get;
     let violation :=
       take 1 (filter (fun v => id v = sw_violation_id input)
                 (violationsTable db)) in
     if bool_decide (violation = [])
     then ret {| success := false; messageId := None;
                 error := Some "Violation not found" |}
     else
       let messageId := "wa_" ++ string_of_Z date_now ++ "_" ++ random in
       await_ markWhatsAppSent now (sw_violation_id input) messageId;
       ret {| success := true; messageId := Some messageId; error := None |})
    (fun _ => ret {| success := false; messageId := None;
                     error := Some "Failed to send WhatsApp message" |}).

End Store.

Section Notification.

(** [Intl.DateTimeFormat('id-ID', {weekday, year, month, day}).format]
    and [Intl.DateTimeFormat('id-ID', {hour, minute}).format] belong to
    the runtime. *)
Variable formatDate : Date -> string.
Variable formatTime : Date -> string.
Context `{!Driver}.

(** The template of [generateViolationMessage], once the joined row is
    at hand. *)
Definition violationMessage (violation : Violation) (student : Student)
  : string :=
  let violationDate := formatDate (violation_time violation) in
  let violationTime := formatTime (violation_time violation) in
  let message :=
    "Assalamu'alaikum Bapak/Ibu," ++ nl ++
    nl ++
    "Kami dari pihak sekolah ingin memberitahukan bahwa anak Bapak/Ibu:" ++ nl ++
    nl ++
    "Nama: " ++ name student ++ nl ++
    "Kelas: " ++ class student ++ nl ++
    "NISN: " ++ nisn student ++ nl ++
    nl ++
    "Telah melakukan pelanggaran pada:" ++ nl ++
    "Hari/Tanggal: " ++ violationDate ++ nl ++
    "Waktu: " ++ violationTime ++ nl ++
    "Jenis Pelanggaran: " ++ violation_type violation ++ nl ++
    "Lokasi: " ++ location violation in
  let message :=
    if truthy (description violation)
    then message ++ nl ++ "Keterangan: " ++ nullish (description violation) ""
    else message in
  let message :=
    if truthy (photo_url violation)
    then message ++ nl ++ nl ++ "Bukti foto: " ++ nullish (photo_url violation) ""
    else message in
  message ++ nl ++ nl ++
  "Mohon untuk memberikan pembinaan kepada anak Bapak/Ibu di rumah." ++ nl ++
  nl ++
  "Terima kasih atas perhatiannya." ++ nl ++
  nl ++
  "Hormat kami," ++ nl ++
  "Sekolah".

(** [violationsTable INNER JOIN studentsTable ON student_id = students.id
    WHERE violations.id = violationId LIMIT 1]: the rows that the join
    returns once the store has taken its parameter, which the handlers
    ask with [select_violation_with_student] first. *)
Definition joined_row (violationId : Z) (db : Database)
  : list (Violation * Student) :=
  take 1
    (flat_map
       (fun v => map (pair v)
                   (filter (fun s => student_id v = student_id_ s)
                      (studentsTable db)))
       (filter (fun v => id v = violationId) (violationsTable db))).

Definition generateViolationMessage (violationId : Z)
  : Async Database string :=
  try_catch
    (await_ execute (select_violation_with_student violationId);
     await db <- get;
     match joined_row violationId db with
     | [] => throw "Violation not found"
     | (violation, student) :: _ => ret (violationMessage violation student)
     end)
    rethrow.

End Notification.

(** ** [handlers/photos.ts] *)

(** A [Buffer] is a sequence of bytes, each in [0, 255]. *)
Definition Buffer := list Z.

Module Base64.

Definition in_range (lo hi c : ascii) : bool :=
  (nat_of_ascii lo <=? nat_of_ascii c)%nat
  && (nat_of_ascii c <=? nat_of_ascii hi)%nat.

(** The character class [[A-Za-z0-9+/]] of the payload test. *)
Definition alphabet (c : ascii) : bool :=
  in_range "A" "Z" c || in_range "a" "z" c || in_range "0" "9" c
  || Ascii.eqb c "+" || Ascii.eqb c "/".

(** The six bits a character stands for. The decoder of the runtime
    also reads the URL-safe [-] and [_]. *)
Definition sextet (c : ascii) : option Z :=
  let n := Z.of_nat (nat_of_ascii c) in
  if in_range "A" "Z" c then Some (n - 65)
  else if in_range "a" "z" c then Some (n - 71)
  else if in_range "0" "9" c then Some (n + 4)
  else if Ascii.eqb c "+" || Ascii.eqb c "-" then Some 62
  else if Ascii.eqb c "/" || Ascii.eqb c "_" then Some 63
  else None.

(** Decoding stops at the first [=]; characters outside the alphabet
    are skipped. *)
Fixpoint sextets (s : string) : list Z :=
  match s with
  | EmptyString => []
  | String c s' =>
      if Ascii.eqb c "=" then []
      else match sextet c with
           | Some v => v :: sextets s'
           | None => sextets s'
           end
  end.

Fixpoint bytes (l : list Z) : Buffer :=
  match l with
  | a :: b :: c :: d :: rest =>
      Z.lor (Z.shiftl a 2) (Z.shiftr b 4)
      :: Z.lor (Z.shiftl (Z.land b 15) 4) (Z.shiftr c 2)
      :: Z.lor (Z.shiftl (Z.land c 3) 6) d
      :: bytes rest
  | [a; b; c] =>
      [Z.lor (Z.shiftl a 2) (Z.shiftr b 4);
       Z.lor (Z.shiftl (Z.land b 15) 4) (Z.shiftr c 2)]
  | [a; b] => [Z.lor (Z.shiftl a 2) (Z.shiftr b 4)]
  | _ => []
  end.

(** [Buffer.from(s, 'base64')] *)
Definition decode (s : string) : Buffer := bytes (sextets s).

End Base64.

Definition UPLOAD_DIR : string := "uploads/photos".
Definition MAX_FILE_SIZE : Z := 5 * 1024 * 1024.
Definition ALLOWED_FORMATS : list string := ["jpeg"; "jpg"; "png"; "gif"].

(** The character class [\w]. *)
Definition word_char (c : ascii) : bool :=
  Base64.in_range "A" "Z" c || Base64.in_range "a" "z" c
  || Base64.in_range "0" "9" c || Ascii.eqb c "_".

(** The longest run of characters of a class at the head of a string, and
    what follows it. *)
Fixpoint span (p : ascii -> bool) (s : string) : string * string :=
  match s with
  | EmptyString => (EmptyString, EmptyString)
  | String c s' =>
      if p c then let '(run, rest) := span p s' in (String c run, rest)
      else (EmptyString, s)
  end.

(** What is left of [s] after a literal [prefix]. *)
Fixpoint strip_prefix (prefix s : string) {struct prefix} : option string :=
  match prefix with
  | EmptyString => Some s
  | String a prefix' =>
      match s with
      | EmptyString => None
      | String b s' => if Ascii.eqb a b then strip_prefix prefix' s' else None
      end
  end.

(** [fileData.match(/^data:image\/(\w+);base64,/)]: the capture group and
    the text after the match. *)
Definition match_data_url (fileData : string) : option (string * string) :=
  match strip_prefix "data:image/" fileData with
  | None => None
  | Some after =>
      let '(fmt, rest) := span word_char after in
      match fmt with
      | EmptyString => None
      | String _ _ =>
          match strip_prefix ";base64," rest with
          | None => None
          | Some payload => Some (fmt, payload)
          end
      end
  end.

(** [fileData.replace(/^data:image\/\w+;base64,/, '')] *)
Definition strip_data_url_header (fileData : string) : string :=
  match match_data_url fileData with
  | Some (_, payload) => payload
  | None => fileData
  end.

Definition lower_char (c : ascii) : ascii :=
  if Base64.in_range "A" "Z" c
  then ascii_of_nat (nat_of_ascii c + 32)
  else c.

(** [toLowerCase] on the characters that [\w] admits. *)
Fixpoint toLowerCase (s : string) : string :=
  match s with
  | EmptyString => EmptyString
  | String c s' => String (lower_char c) (toLowerCase s')
  end.

(** [/^[A-Za-z0-9+/]*={0,2}$/.test(base64Data)] *)
Definition base64_test (base64Data : string) : bool :=
  let '(_, rest) := span Base64.alphabet base64Data in
  String.eqb rest "" || String.eqb rest "=" || String.eqb rest "==".

(** [buffer.slice(0, 6).toString('ascii')]: the runtime clears the highest
    bit of every byte before it maps the byte to a character. *)
Definition toString_ascii (b : Buffer) : string :=
  string_of_list_ascii
    (map (fun x => ascii_of_nat (Z.to_nat (Z.land x 127))) b).

Definition validateImageHeader (buffer : Buffer) (format : string) : bool :=
  if bool_decide (length buffer < 8)%nat then false
  else
    let at_ (i : nat) := nth i buffer 0 in
    let format := toLowerCase format in
    if String.eqb format "jpeg" || String.eqb format "jpg" then
      Z.eqb (at_ 0%nat) 255 && Z.eqb (at_ 1%nat) 216 && Z.eqb (at_ 2%nat) 255
    else if String.eqb format "png" then
      Z.eqb (at_ 0%nat) 137 && Z.eqb (at_ 1%nat) 80 && Z.eqb (at_ 2%nat) 78
      && Z.eqb (at_ 3%nat) 71 && Z.eqb (at_ 4%nat) 13 && Z.eqb (at_ 5%nat) 10
      && Z.eqb (at_ 6%nat) 26 && Z.eqb (at_ 7%nat) 10
    else if String.eqb format "gif" then
      let header := toString_ascii (take 6 buffer) in
      String.eqb header "GIF87a" || String.eqb header "GIF89a"
    else false.

(** The result [{valid, format?, error?}]; [validation_error] is its
    field [error]. *)
Record Validation := mkValidation {
  valid : bool;
  format : option string;
  validation_error : option string
}.

Definition invalid (msg : string) : Validation :=
  {| valid := false; format := None; validation_error := Some msg |}.

(** The body of [validatePhotoFormat]. None of its steps throws, so the
    [catch] clause that would answer [Validation error occurred] is never
    entered and the promise always resolves. *)
Definition validatePhotoFormat (fileData : string) : Validation :=
  match match_data_url fileData with
  | None => invalid "Invalid base64 image data format"
  | Some (group1, _) =>
      let format := toLowerCase group1 in
      if negb (bool_decide (format ∈ ALLOWED_FORMATS)) then
        invalid ("Unsupported image format: " ++ format
                 ++ ". Allowed formats: " ++ String.concat ", " ALLOWED_FORMATS)
      else
        let base64Data := strip_data_url_header fileData in
        if negb (String.eqb base64Data "") && negb (base64_test base64Data) then
          invalid "Invalid base64 encoding"
        else
          let buffer := Base64.decode base64Data in
          if bool_decide (MAX_FILE_SIZE < Z.of_nat (length buffer)) then
            invalid ("File size exceeds maximum limit of "
                     ++ string_of_Z (MAX_FILE_SIZE / (1024 * 1024)) ++ "MB")
          else if negb (validateImageHeader buffer format) then
            invalid "File does not appear to be a valid image"
          else
            {| valid := true; format := Some format; validation_error := None |}
  end.

Record UploadPhotoInput := mkUploadPhotoInput {
  file_data : string;
  file_name : string
}.

Record UploadResult := mkUploadResult {
  url : string;
  fileName : string
}.

Section PhotoStore.

(** The file system and [path.join] belong to the runtime; the handlers
    are written against these operations. *)
Variable FileSystem : Type.
Variable join : string -> string -> string.
Variable existsSync : string -> FileSystem -> bool.
Variable mkdir_recursive : string -> Async FileSystem unit.
Variable writeFile : string -> Buffer -> Async FileSystem unit.
Variable readFile : string -> Async FileSystem Buffer.
Variable unlink : string -> Async FileSystem unit.

Definition ensureUploadDir : Async FileSystem unit :=
  await fs <- get;
  if negb (existsSync UPLOAD_DIR fs) then mkdir_recursive UPLOAD_DIR
  else ret tt.

(** [timestamp] is the [Date.now()] read for the file name. *)
Definition uploadPhoto (timestamp : Z) (input : UploadPhotoInput)
  : Async FileSystem UploadResult :=
  try_catch
    (let validation := validatePhotoFormat (file_data input) in
     if negb (valid validation)
     then throw (match validation_error validation with
                 | Some (String c e) => String c e
                 | _ => "Invalid photo format"
                 end)
     else
       await_ ensureUploadDir;
       let base64Data := strip_data_url_header (file_data input) in
       let buffer := Base64.decode base64Data in
       if bool_decide (MAX_FILE_SIZE < Z.of_nat (length buffer))
       then throw ("File size exceeds maximum limit of "
                   ++ string_of_Z (MAX_FILE_SIZE / (1024 * 1024)) ++ "MB")
       else
         let fileExtension :=
           match format validation with
           | Some (String c f) => String c f
           | _ => "jpg"
           end in
         let fileName :=
           string_of_Z timestamp ++ "_" ++ file_name input ++ "."
           ++ fileExtension in
         let filePath := join UPLOAD_DIR fileName in
         await_ writeFile filePath buffer;
         ret {| url := "/uploads/photos/" ++ fileName;
                fileName := fileName |})
    rethrow.

(** [fileName.includes('..') || fileName.includes('/')
     || fileName.includes('\\')] *)
Definition traversal (fileName : string) : bool :=
  includes fileName ".." || includes fileName "/" || includes fileName "\".

Definition getPhoto (fileName : string) : Async FileSystem (option Buffer) :=
  try_catch
    (if traversal fileName then throw "Invalid filename"
     else
       let filePath := join UPLOAD_DIR fileName in
       await fs <- get;
       if negb (existsSync filePath fs) then ret None
       else
         await buffer <- readFile filePath;
         ret (Some buffer))
    (fun _ => ret None).

Definition deletePhoto (fileName : string) : Async FileSystem unit :=
  if traversal fileName then throw "Invalid filename"
  else
    try_catch
      (let filePath := join UPLOAD_DIR fileName in
       await fs <- get;
       if existsSync filePath fs then unlink filePath else ret tt)
      (fun _ => ret tt).

End PhotoStore.

(** An in-memory file system: regular files by path, every directory
    taken to exist. *)
Module MemFs.

Abbreviation FileSystem := (gmap string Buffer).

Definition join (dir file : string) : string := dir ++ "/" ++ file.

Definition existsSync (path : string) (fs : FileSystem) : bool :=
  bool_decide (is_Some (fs !! path)).

Definition mkdir_recursive (path : string) : Async FileSystem unit := ret tt.

Definition writeFile (path : string) (data : Buffer)
  : Async FileSystem unit :=
  fun fs => (Resolved tt, <[path := data]> fs).

Definition readFile (path : string) : Async FileSystem Buffer :=
  fun fs => match fs !! path with
            | Some data => (Resolved data, fs)
            | None => (Rejected (mkError "ENOENT: no such file or directory"), fs)
            end.

Definition unlink (path : string) : Async FileSystem unit :=
  fun fs => match fs !! path with
            | Some _ => (Resolved tt, base.delete path fs)
            | None => (Rejected (mkError "ENOENT: no such file or directory"), fs)
            end.

Definition uploadPhoto :=
  uploadPhoto FileSystem join existsSync mkdir_recursive writeFile.
Definition getPhoto := getPhoto FileSystem join existsSync readFile.
Definition deletePhoto := deletePhoto FileSystem join existsSync unlink.

End MemFs.


(** * Vocabulary of the specification *)

(** An error mentions a text when its message contains it. *)
Definition mentions (e : Error) (text : string) : Prop :=
  includes (message e) text = true.

(** The NotFound kind of the specification: the handlers signal it with
    an [Error] whose message ends in [not found]. *)
Definition NotFound (e : Error) : Prop := mentions e "not found".

(** The notification invariant of a violation record. *)
Definition sent_invariant (v : Violation) : Prop :=
  whatsapp_sent_at v <> None <-> whatsapp_sent v = true.

(** Keys and references that the relational store enforces
    ([primaryKey], [references]). The primary key of the violations
    table is a [serial] column: its values are distinct 32-bit
    integers. *)
Definition primary_key_ok (db : Database) : Prop :=
  NoDup (map id (violationsTable db))
  /\ Forall (fun v => int4 (id v) = true) (violationsTable db).

Definition foreign_keys_ok (db : Database) : Prop :=
  Forall (fun v => Exists (fun s => student_id_ s = student_id v)
                     (studentsTable db))
    (violationsTable db).



(** ** Sample data *)

(** A stand-in for the driver: every refused statement fails with the
    same text, and every time stamp of a caller is accepted. *)
#[global] Instance sample_driver : Driver | 100 :=
  {| query_error := fun _ => mkError "Failed query";
     timestamp_ok := fun _ => true |}.

Definition budi : Student :=
  {| student_id_ := 1; nisn := "1234567890"; name := "Ahmad Budi";
     class := "12 IPA 1"; parent_name := "Pak Budi";
     parent_whatsapp := "+6281234567890";
     student_created_at := 10; student_updated_at := 10 |}.

Definition guru : User :=
  {| user_id := 1; username := "guru"; password := "hash"; role := teacher;
     user_created_at := 5; user_updated_at := 5 |}.

Definition terlambat : Violation :=
  {| id := 1; student_id := 1; violation_type := "Terlambat";
     location := "Gerbang Sekolah"; description := None; photo_url := None;
     violation_time := 1705303800000; reported_by := 1;
     whatsapp_sent := false; whatsapp_sent_at := None;
     created_at := 20; updated_at := 20 |}.

(** The same violation once its notification went out at time 100. *)
Definition terlambat_sent : Violation :=
  {| id := 1; student_id := 1; violation_type := "Terlambat";
     location := "Gerbang Sekolah"; description := None; photo_url := None;
     violation_time := 1705303800000; reported_by := 1;
     whatsapp_sent := true; whatsapp_sent_at := Some 100;
     created_at := 20; updated_at := 20 |}.

Definition sample_db : Database :=
  {| usersTable := [guru]; studentsTable := [budi];
     violationsTable := [terlambat]; violations_id_seq := 2 |}.

Definition sample_db_sent : Database :=
  {| usersTable := [guru]; studentsTable := [budi];
     violationsTable := [terlambat_sent]; violations_id_seq := 2 |}.

(** A store in which the student 1 has 1001 violations, the one with
    identifier [n] at time [n]. *)
Definition busy_db : Database :=
  {| usersTable := [guru]; studentsTable := [budi];
     violationsTable :=
       map (fun n : nat =>
              {| id := Z.of_nat n; student_id := 1;
                 violation_type := "Terlambat"; location := "Gerbang Sekolah";
                 description := None; photo_url := None;
                 violation_time := Z.of_nat n; reported_by := 1;
                 whatsapp_sent := false; whatsapp_sent_at := None;
                 created_at := 20; updated_at := 20 |})
           (seq 1 1001);
     violations_id_seq := 1002 |}.

Definition only_student (x : Z) : option GetViolationsInput :=
  Some {| gv_student_id := Some x; gv_limit := None; gv_offset := None |}.

Definition only_whatsapp_sent (x : Z) (sent : bool) : UpdateViolationInput :=
  {| uv_id := x; uv_student_id := None; uv_violation_type := None;
     uv_location := None; uv_description := None; uv_photo_url := None;
     uv_violation_time := None; uv_whatsapp_sent := Some sent |}.

(** ** Substrings and character classes *)

(** [t] occurs in [s]. *)
Definition contains (s t : string) : Prop :=
  exists a b, s = a ++ t ++ b.

(** Every character of [s] is in the class [p]. *)
Fixpoint every (p : ascii -> bool) (s : string) : bool :=
  match s with
  | EmptyString => true
  | String c s' => p c && every p s'
  end.

(** ** Photo data in the words of the specification *)

(** [s] has the form [data:image/<fmt>;base64,<payload>]. *)
Definition data_url (s fmt payload : string) : Prop :=
  s = "data:image/" ++ fmt ++ ";base64," ++ payload
  /\ fmt <> ""
  /\ every word_char fmt = true.

(** [payload] is text over the base64 alphabet with at most two [=] of
    padding. *)
Definition base64_text (payload : string) : Prop :=
  exists body pad,
    payload = body ++ pad
    /\ every Base64.alphabet body = true
    /\ (pad = "" \/ pad = "=" \/ pad = "==").

(** What the validator accepts as the header of an image of format
    [fmt]: at least eight bytes that begin with the signature of the
    format; for GIF the highest bit of the first six bytes is not
    looked at. *)
Definition header_ok (fmt : string) (b : Buffer) : Prop :=
  (8 <= length b)%nat
  /\ ((fmt = "jpeg" \/ fmt = "jpg") /\ take 3 b = [255; 216; 255]
      \/ fmt = "png" /\ take 8 b = [137; 80; 78; 71; 13; 10; 26; 10]
      \/ fmt = "gif"
         /\ (map (fun x => Z.land x 127) (take 6 b) = [71; 73; 70; 56; 55; 97]
             \/ map (fun x => Z.land x 127) (take 6 b)
                = [71; 73; 70; 56; 57; 97])).

(** The outcomes that the specification tells apart. *)
Inductive PhotoClass :=
| NotDataUrl
| UnsupportedFormat
| TooLarge
| CorruptHeader
| Accepted (fmt : string)
| OtherFailure.

(** The class of a result, read off its flag and its error text. *)
Definition classify (v : Validation) : PhotoClass :=
  if valid v then Accepted (nullish (format v) "")
  else
    let e := nullish (validation_error v) "" in
    if includes e "Invalid base64 image data format" then NotDataUrl
    else if includes e "Unsupported image format" then UnsupportedFormat
    else if includes e "File size exceeds maximum limit" then TooLarge
    else if includes e "does not appear to be a valid image" then CorruptHeader
    else OtherFailure.

(** The decoded bytes begin with the signature of the format, read
    literally: JPEG [FF D8 FF], the eight bytes of PNG, [GIF87a] or
    [GIF89a]. *)
Definition starts_with_signature (fmt : string) (b : Buffer) : bool :=
  if String.eqb fmt "jpeg" || String.eqb fmt "jpg"
  then bool_decide (take 3 b = [255; 216; 255])
  else if String.eqb fmt "png"
  then bool_decide (take 8 b = [137; 80; 78; 71; 13; 10; 26; 10])
  else if String.eqb fmt "gif"
  then bool_decide (take 6 b = [71; 73; 70; 56; 55; 97])
       || bool_decide (take 6 b = [71; 73; 70; 56; 57; 97])
  else false.

(** The classification as property C6 words it: not a data URL, format
    outside the four names, payload over 5 MiB, bytes that do not begin
    with the signature, accepted otherwise. *)
Definition stated_class (fileData : string) : PhotoClass :=
  match match_data_url fileData with
  | None => NotDataUrl
  | Some (fmt, payload) =>
      if negb (bool_decide (fmt ∈ ALLOWED_FORMATS)) then UnsupportedFormat
      else
        let buffer := Base64.decode payload in
        if bool_decide (MAX_FILE_SIZE < Z.of_nat (length buffer)) then TooLarge
        else if negb (starts_with_signature fmt buffer) then CorruptHeader
        else Accepted fmt
  end.

(** ** Sample photos and messages *)

Definition gif_photo : string :=
  "data:image/gif;base64,R0lGODlhAQABAIAAAAAAAP///yH5BAEAAAAALAAAAAABAAEAAAIBRAA7".

Definition test_upload : UploadPhotoInput :=
  {| file_data := gif_photo; file_name := "test_photo" |}.

(** A violation whose location reads like the label of the description
    line. *)
Definition di_keterangan : Violation :=
  {| id := 2; student_id := 1; violation_type := "Terlambat";
     location := "Keterangan: lihat papan"; description := None;
     photo_url := None; violation_time := 1705303800000; reported_by := 1;
     whatsapp_sent := false; whatsapp_sent_at := None;
     created_at := 20; updated_at := 20 |}.

(** A violation with a description and a photo. *)
Definition lengkap : Violation :=
  {| id := 3; student_id := 1; violation_type := "Terlambat";
     location := "Gerbang Sekolah"; description := Some "Terlambat 15 menit";
     photo_url := Some "/uploads/photos/1_bukti.jpeg";
     violation_time := 1705303800000; reported_by := 1;
     whatsapp_sent := false; whatsapp_sent_at := None;
     created_at := 20; updated_at := 20 |}.

Definition message_db : Database :=
  {| usersTable := [guru]; studentsTable := [budi];
     violationsTable := [terlambat; di_keterangan; lengkap];
     violations_id_seq := 4 |}.

(** Stand-ins for the formatters of the runtime. *)
Definition sample_formatDate (_ : Date) : string := "Senin, 15 Januari 2024".
Definition sample_formatTime (_ : Date) : string := "07.30".

(** ** Message texts in the words of the specification *)

(** A nullable text is present when it is neither null nor empty. *)
Definition present (x : option string) : Prop :=
  exists t, x = Some t /\ t <> "".

(** The texts that the template always interpolates. *)
Definition interpolated (formatDate formatTime : Date -> string)
    (violation : Violation) (student : Student) : list string :=
  [name student; class student; nisn student;
   formatDate (violation_time violation);
   formatTime (violation_time violation);
   violation_type violation; location violation].

(** Lines joined by line feeds. *)
Fixpoint join_lines (lines : list string) : string :=
  match lines with
  | [] => ""
  | [l] => l
  | l :: rest => l ++ nl ++ join_lines rest
  end.

(** The message of [violationMessage], line by line. *)
Definition message_lines (formatDate formatTime : Date -> string)
    (violation : Violation) (student : Student) : list string :=
  ["Assalamu'alaikum Bapak/Ibu,";
   "";
   "Kami dari pihak sekolah ingin memberitahukan bahwa anak Bapak/Ibu:";
   "";
   "Nama: " ++ name student;
   "Kelas: " ++ class student;
   "NISN: " ++ nisn student;
   "";
   "Telah melakukan pelanggaran pada:";
   "Hari/Tanggal: " ++ formatDate (violation_time violation);
   "Waktu: " ++ formatTime (violation_time violation);
   "Jenis Pelanggaran: " ++ violation_type violation;
   "Lokasi: " ++ location violation]
  ++ (if truthy (description violation)
      then ["Keterangan: " ++ nullish (description violation) ""]
      else [])
  ++ (if truthy (photo_url violation)
      then [""; "Bukti foto: " ++ nullish (photo_url violation) ""]
      else [])
  ++ ["";
      "Mohon untuk memberikan pembinaan kepada anak Bapak/Ibu di rumah.";
      "";
      "Terima kasih atas perhatiannya.";
      "";
      "Hormat kami,";
      "Sekolah"].

(** The character [c] does not occur in [s]. *)
Definition free_of (c : ascii) (s : string) : bool :=
  every (fun x => negb (Ascii.eqb x c)) s.

(** A payload of 1747627 groups [AAAA], which decode to 5242881 zero
    bytes, one more than [MAX_FILE_SIZE]. *)
Definition oversized_payload : string :=
  Pos.iter (String.append "AAAA") "" 1747627.

(** * Further handlers *)

(** ** [handlers/students.ts]: lookup *)

Section StudentLookup.

Context `{!Driver}.


End StudentLookup.

(** ** [handlers/whatsapp.ts]: preview *)

Record Preview := mkPreview {
  preview_message : string;
  recipient : string;
  studentName : string;
  violationType : string
}.

Section Preview.

Variable formatDate : Date -> string.
Variable formatTime : Date -> string.
Context `{!Driver}.

Definition previewWhatsAppMessage (violationId : Z) : Async Database Preview :=
  try_catch
    (await_ execute (select_violation_with_student violationId);
     await db <- get;
     match joined_row violationId db with
     | [] => throw "Violation not found"
     | (violation, student) :: _ =>
         await message <-
           generateViolationMessage formatDate formatTime violationId;
         ret {| preview_message := message;
                recipient := parent_whatsapp student;
                studentName := name student;
                violationType := violation_type violation |}
     end)
    rethrow.

End Preview.

(** ** [handlers/auth.ts] *)

Record LoginInput := mkLoginInput {
  li_username : string;
  li_password : string
}.

Record CreateUserInput := mkCreateUserInput {
  cu_username : string;
  cu_password : string;
  cu_role : Role
}.

Record SetupResult := mkSetupResult {
  setup_success : bool;
  setup_message : string
}.

(** The user as the handlers return it: [password: ''], every other
    field as stored. *)
Definition without_password (user : User) : User :=
  {| user_id := user_id user;
     username := username user;
     password := "";
     role := role user;
     user_created_at := user_created_at user;
     user_updated_at := user_updated_at user |}.

Section Auth.

(** [Bun.password.hash] and [Bun.password.verify] belong to the runtime.
    The hash depends on a salt that the runtime draws; [verify] may
    throw, for instance on a text that is no hash. A hash is printable
    text, which the store takes. *)
Variable password_hash : string -> string -> string.
Variable password_verify : string -> string -> Outcome bool.
Context `{!Driver}.

Definition login (input : LoginInput) : Async Database User :=
  try_catch
    (await_ execute (select_user_by_username (li_username input));
     await db <- get;
     let users :=
       filter (fun u => username u = li_username input) (usersTable db) in
     match users with
     | [] => throw "Invalid username or password"
     | user :: _ =>
         await isValidPassword <-
           (fun s => (password_verify (li_password input) (password user), s));
         if negb isValidPassword
         then throw "Invalid username or password"
         else ret (without_password user)
     end)
    rethrow.

(** [serial] is the value that the store draws for the serial column
    [id], [salt] the salt of the hash and [now] the clock of
    [defaultNow()]. *)
Definition createUser (serial : Z) (salt : string) (now : Date)
    (input : CreateUserInput) : Async Database User :=
  try_catch
    (await_ execute (select_user_by_username (cu_username input));
     await db <- get;
     let existingUsers :=
       filter (fun u => username u = cu_username input) (usersTable db) in
     if bool_decide (0 < length existingUsers)%nat
     then throw "Username already exists"
     else
       let hashedPassword := password_hash salt (cu_password input) in
       await_ execute (insert_user (cu_username input) (cu_role input));
       let user :=
         {| user_id := serial;
            username := cu_username input;
            password := hashedPassword;
            role := cu_role input;
            user_created_at := now;
            user_updated_at := now |} in
       await_ put (mkDatabase (usersTable db ++ [user]) (studentsTable db)
                     (violationsTable db) (violations_id_seq db));
       ret (without_password user))
    rethrow.

Definition getCurrentUser (userId : Z) : Async Database (option User) :=
  try_catch
    (await_ execute (select_user userId);
     await db <- get;
     let users := filter (fun u => user_id u = userId) (usersTable db) in
     match users with
     | [] => ret None
     | user :: _ => ret (Some (without_password user))
     end)
    rethrow.

Definition setupAdminUser (serial : Z) (salt : string) (now : Date)
  : Async Database SetupResult :=
  try_catch
    (await_ execute (select_user_by_username "user");
     await db <- get;
     let existingAdmins :=
       filter (fun u => username u = "user") (usersTable db) in
     let create :=
       await_ createUser serial salt now
                {| cu_username := "user"; cu_password := "user";
                   cu_role := admin |};
       ret {| setup_success := true;
              setup_message := "Admin user created successfully" |} in
     match existingAdmins with
     | admin0 :: _ =>
         match role admin0 with
         | admin =>
             ret {| setup_success := true;
                    setup_message := "Admin user already exists" |}
         | teacher => create
         end
     | [] => create
     end)
    (fun error =>
       ret {| setup_success := false;
              setup_message :=
                "Failed to setup admin user: " ++ message error |}).

End Auth.

(** The row that [createViolation] inserts. *)
Definition created_row (now : Date) (input : CreateViolationInput)
    (db : Database) : Violation :=
  {| id := violations_id_seq db;
     student_id := cv_student_id input;
     violation_type := cv_violation_type input;
     location := cv_location input;
     description := cv_description input;
     photo_url := cv_photo_url input;
     violation_time := cv_violation_time input;
     reported_by := cv_reported_by input;
     whatsapp_sent := false;
     whatsapp_sent_at := None;
     created_at := now;
     updated_at := now |}.

(** A report that the sample store accepts. *)
Definition merokok_input : CreateViolationInput :=
  {| cv_student_id := 1; cv_violation_type := "Merokok";
     cv_location := "Kantin"; cv_description := None;
     cv_photo_url := None; cv_violation_time := 40;
     cv_reported_by := 1 |}.

(** ** Store constraints *)

(** The serial of the violations table is ahead of every stored
    identifier. *)
Definition sequence_ok (db : Database) : Prop :=
  Forall (fun v => id v < violations_id_seq db) (violationsTable db).

(** [reported_by] references a stored user. *)
Definition reporters_ok (db : Database) : Prop :=
  Forall (fun v => Exists (fun u => user_id u = reported_by v)
                     (usersTable db))
    (violationsTable db).

(** The constraints of the violations table together. *)
Definition store_ok (db : Database) : Prop :=
  primary_key_ok db /\ sequence_ok db /\ foreign_keys_ok db
  /\ reporters_ok db.


(** ** Records after an operation *)

(** [v] once it is marked as sent at [now]: two fields change. *)
Definition marked (now : Date) (v : Violation) : Violation :=
  {| id := id v; student_id := student_id v;
     violation_type := violation_type v; location := location v;
     description := description v; photo_url := photo_url v;
     violation_time := violation_time v; reported_by := reported_by v;
     whatsapp_sent := true; whatsapp_sent_at := Some now;
     created_at := created_at v; updated_at := updated_at v |}.

(** [v] with [updated_at] set to [now] and nothing else changed. *)
Definition touched (now : Date) (v : Violation) : Violation :=
  {| id := id v; student_id := student_id v;
     violation_type := violation_type v; location := location v;
     description := description v; photo_url := photo_url v;
     violation_time := violation_time v; reported_by := reported_by v;
     whatsapp_sent := whatsapp_sent v; whatsapp_sent_at := whatsapp_sent_at v;
     created_at := created_at v; updated_at := now |}.

(** The query [{student_id?, limit, offset}]. *)
Definition page (sid : option Z) (limit offset : nat)
  : option GetViolationsInput :=
  Some {| gv_student_id := sid; gv_limit := Some limit;
          gv_offset := Some offset |}.

(** The rows that the [WHERE] clause of [getViolations] selects. *)
Definition selected (sid : option Z) (db : Database) : list Violation :=
  match sid with
  | Some x => filter (fun v => student_id v = x) (violationsTable db)
  | None => violationsTable db
  end.

(** An upload whose file name ends with a full stop. *)
Definition dotted_upload : UploadPhotoInput :=
  {| file_data := gif_photo; file_name := "foto." |}.

(** ** Sample accounts *)

(** A stand-in for the password functions of the runtime that keeps the
    password as it is. *)
Definition plain_hash (salt password : string) : string := password.
Definition plain_verify (password hash : string) : Outcome bool :=
  Resolved (String.eqb password hash).

Definition pak_guru : CreateUserInput :=
  {| cu_username := "pakguru"; cu_password := "rahasia"; cu_role := teacher |}.

(** The account that [setupAdminUser] asks [createUser] for. *)
Definition adminInput : CreateUserInput :=
  {| cu_username := "user"; cu_password := "user"; cu_role := admin |}.

(** The row that [createUser] inserts. *)
Definition created_user (password_hash : string -> string -> string)
    (serial : Z) (salt : string) (now : Date) (input : CreateUserInput)
  : User :=
  {| user_id := serial;
     username := cu_username input;
     password := password_hash salt (cu_password input);
     role := cu_role input;
     user_created_at := now;
     user_updated_at := now |}.

(** ** [handlers/photos.ts]: thumbnails *)

Definition THUMBNAIL_MAX_SIZE : Z := 200 * 1024.

(** The character that stands for six bits. *)
Definition base64_char (v : Z) : ascii :=
  if Z.ltb v 26 then ascii_of_nat (Z.to_nat (v + 65))
  else if Z.ltb v 52 then ascii_of_nat (Z.to_nat (v + 71))
  else if Z.ltb v 62 then ascii_of_nat (Z.to_nat (v - 4))
  else if Z.eqb v 62 then "+"%char
  else "/"%char.

(** [buffer.toString('base64')] *)
Fixpoint toString_base64 (b : Buffer) : string :=
  match b with
  | x :: y :: z :: rest =>
      String (base64_char (Z.shiftr x 2))
        (String (base64_char (Z.lor (Z.shiftl (Z.land x 3) 4) (Z.shiftr y 4)))
           (String (base64_char
                      (Z.lor (Z.shiftl (Z.land y 15) 2) (Z.shiftr z 6)))
              (String (base64_char (Z.land z 63)) (toString_base64 rest))))
  | [x; y] =>
      String (base64_char (Z.shiftr x 2))
        (String (base64_char (Z.lor (Z.shiftl (Z.land x 3) 4) (Z.shiftr y 4)))
           (String (base64_char (Z.shiftl (Z.land y 15) 2)) "="))
  | [x] =>
      String (base64_char (Z.shiftr x 2))
        (String (base64_char (Z.shiftl (Z.land x 3) 4)) "==")
  | [] => ""
  end.

Section Thumbnail.

(** [Math.floor(originalSize * (THUMBNAIL_MAX_SIZE / originalSize))] is
    computed in the floating-point arithmetic of the runtime. *)
Variable scaled_size : Z -> Z.

(** The handler reads no state; its promise resolves or rejects. *)
Definition generatePhotoThumbnail (fileData : string) : Outcome string :=
  let validation := validatePhotoFormat fileData in
  if negb (valid validation)
  then Rejected (mkError (match validation_error validation with
                          | Some (String c e) => String c e
                          | _ => "Invalid photo format"
                          end))
  else
    let base64Data := strip_data_url_header fileData in
    let buffer := Base64.decode base64Data in
    let originalSize := Z.of_nat (length buffer) in
    if bool_decide (originalSize <= THUMBNAIL_MAX_SIZE)
    then Resolved fileData
    else
      let thumbnailSize := scaled_size originalSize in
      let adjustedSize := Z.max (thumbnailSize / 3 * 3) 1024 in
      let thumbnailBuffer := take (Z.to_nat adjustedSize) buffer in
      let thumbnailBase64 := toString_base64 thumbnailBuffer in
      let mimeType :=
        match format validation with
        | Some f => if String.eqb f "jpg" then "jpeg" else f
        | None => "undefined"
        end in
      Resolved ("data:image/" ++ mimeType ++ ";base64," ++ thumbnailBase64).

End Thumbnail.

(** A byte, and six bits. *)
Definition is_byte (x : Z) : Prop := 0 <= x < 256.
Definition is_sextet (v : Z) : Prop := 0 <= v < 64.

(** [p] holds of every number from 0 below [n]. *)
Definition all_below (n : Z) (p : Z -> bool) : bool := forallb p (seqZ 0 n).

(** The MIME subtype that a thumbnail is labelled with. *)
Definition mimeType_of (fmt : string) : string :=
  if String.eqb fmt "jpg" then "jpeg" else fmt.

(** ** [handlers/students.ts]: listing, creating and updating *)

Section Listing.

(** [ORDER BY name] follows the collation of the database. *)
Context (collate_le : string -> string -> Prop)
  `{!forall a b, Decision (collate_le a b)}.

Definition by_name (a b : Student) : Prop := collate_le (name a) (name b).

#[global] Instance by_name_dec a b : Decision (by_name a b).
Proof. unfold by_name. apply _. Defined.

Definition getStudents : Async Database (list Student) :=
  try_catch
    (await db <- get;
     ret (merge_sort by_name (studentsTable db)))
    rethrow.

End Listing.

Section Students.

Context `{!Driver}.




End Students.


(** A stand-in for the collation: shorter names first. *)
Definition shorter_le (a b : string) : Prop :=
  (String.length a <= String.length b)%nat.

#[global] Instance shorter_le_dec a b : Decision (shorter_le a b).
Proof. unfold shorter_le. apply _. Defined.

Definition siti_input : CreateStudentInput :=
  {| cs_nisn := "0099887766"; cs_name := "Siti"; cs_class := "XI-B";
     cs_parent_name := "Ibu Siti"; cs_parent_whatsapp := "081200000002" |}.


(** A JPEG header followed by 70000 groups [AAAA]: 210009 bytes, more
    than [THUMBNAIL_MAX_SIZE]. *)
Definition large_payload : string :=
  "/9j/4AAQSkZJ" ++ Pos.iter (String.append "AAAA") "" 70000.

Definition large_jpeg : string := "data:image/jpeg;base64," ++ large_payload.

(** * Properties *)

(** ** Strings *)

Lemma startsWith_refl s : startsWith s s = true.
Proof. induction s as [|c s IH]; simpl; [done|]. by rewrite Ascii.eqb_refl. Qed.

Lemma startsWith_app s t : startsWith (s ++ t) s = true.
Proof. induction s as [|c s IH]; simpl; [done|]. by rewrite Ascii.eqb_refl. Qed.

Lemma includes_startsWith s needle :
  startsWith s needle = true -> includes s needle = true.
Proof. intros H. destruct s; cbn [includes]; rewrite H; reflexivity. Qed.

Lemma includes_app_r a b needle :
  includes b needle = true -> includes (a ++ b) needle = true.
Proof.
  intros H. induction a as [|c a IH]; simpl; [done|].
  rewrite IH. apply orb_true_r.
Qed.

Lemma includes_here needle rest : includes (needle ++ rest) needle = true.
Proof. apply includes_startsWith, startsWith_app. Qed.

Lemma includes_middle a needle rest :
  includes (a ++ needle ++ rest) needle = true.
Proof. apply includes_app_r, includes_here. Qed.

Lemma includes_suffix a needle : includes (a ++ needle) needle = true.
Proof. apply includes_app_r, includes_startsWith, startsWith_refl. Qed.

Lemma not_found_message what n :
  NotFound (mkError (what ++ string_of_Z n ++ " not found")).
Proof.
  unfold NotFound, mentions; simpl.
  apply includes_app_r, includes_app_r.
  reflexivity.
Qed.

Lemma append_assoc (a b c : string) : (a ++ b) ++ c = a ++ b ++ c.
Proof. induction a as [|x a IH]; simpl; [done|]. by rewrite IH. Qed.

Lemma append_nil_r (a : string) : a ++ "" = a.
Proof. induction a as [|x a IH]; simpl; [done|]. by rewrite IH. Qed.

Lemma length_append (a b : string) :
  String.length (a ++ b) = (String.length a + String.length b)%nat.
Proof. induction a as [|x a IH]; simpl; [done|]. by rewrite IH. Qed.

Lemma append_inv_tail (a b r : string) : a ++ r = b ++ r -> a = b.
Proof.
  revert b. induction a as [|x a IH]; intros [|y b] H; simpl in H.
  - done.
  - apply (f_equal String.length) in H. simpl in H.
    rewrite length_append in H. lia.
  - apply (f_equal String.length) in H. simpl in H.
    rewrite length_append in H. lia.
  - injection H as -> H. f_equal. by apply IH.
Qed.

Lemma startsWith_spec s p :
  startsWith s p = true <-> exists b, s = p ++ b.
Proof.
  revert s. induction p as [|x p IH]; intros s; simpl.
  - split; [intros _; by exists s | done].
  - destruct s as [|y s].
    + split; [done | intros [b Hb]; discriminate Hb].
    + rewrite andb_true_iff, IH. split.
      * intros [Hxy [b ->]]. apply Ascii.eqb_eq in Hxy as ->. by exists b.
      * intros [b [= -> ->]]. split; [apply Ascii.eqb_refl | by exists b].
Qed.

Lemma includes_spec s needle :
  includes s needle = true <-> contains s needle.
Proof.
  unfold contains. induction s as [|x s IH]; cbn [includes].
  - rewrite orb_false_r, startsWith_spec. split.
    + intros [b Hb]. by exists "", b.
    + intros ([|y a] & b & Hab); [by exists b | discriminate Hab].
  - rewrite orb_true_iff, startsWith_spec, IH. split.
    + intros [[b Hb] | (a & b & ->)].
      * by exists "", b.
      * by exists (String x a), b.
    + intros ([|y a] & b & Hab).
      * left. by exists b.
      * right. injection Hab as -> ->. by exists a, b.
Qed.

Lemma includes_false_spec s needle :
  includes s needle = false <-> ~ contains s needle.
Proof. rewrite <- includes_spec. by destruct (includes s needle). Qed.

Lemma string_of_Z_inj (a b : Z) : string_of_Z a = string_of_Z b -> a = b.
Proof.
  unfold string_of_Z. intros H.
  assert (Hnil : forall z, Z.to_int z <> Decimal.Pos Decimal.Nil
                           /\ Z.to_int z <> Decimal.Neg Decimal.Nil).
  { intros [|p|p]; simpl; split; try discriminate;
      intros [= Hp]; by apply (DecimalPos.Unsigned.to_uint_nonnil p). }
  apply DecimalZ.to_int_inj.
  destruct (Hnil a) as [Ha1 Ha2], (Hnil b) as [Hb1 Hb2].
  pose proof (NilZero.isi _ Ha1 Ha2) as Ea.
  pose proof (NilZero.isi _ Hb1 Hb2) as Eb.
  rewrite H in Ea. congruence.
Qed.

Lemma split_at_separator c a b r1 r2 :
  free_of c a = true -> free_of c b = true ->
  a ++ String c r1 = b ++ String c r2 -> a = b /\ r1 = r2.
Proof.
  unfold free_of. revert b.
  induction a as [|x a IH]; intros [|y b]; simpl; intros Ha Hb Heq.
  - by injection Heq as ->.
  - injection Heq as -> _. apply andb_true_iff in Hb as [Hy _].
    by rewrite Ascii.eqb_refl in Hy.
  - injection Heq as -> _. apply andb_true_iff in Ha as [Hx _].
    by rewrite Ascii.eqb_refl in Hx.
  - injection Heq as -> Heq.
    apply andb_true_iff in Ha as [_ Ha]. apply andb_true_iff in Hb as [_ Hb].
    destruct (IH b Ha Hb Heq) as [-> ->]. done.
Qed.

Lemma string_of_Z_no_underscore (n : Z) : free_of "_" (string_of_Z n) = true.
Proof.
  assert (Hdigits : forall d, free_of "_" (NilEmpty.string_of_uint d) = true)
    by (induction d; simpl; auto).
  assert (Huint : forall d, free_of "_" (NilZero.string_of_uint d) = true)
    by (intros d; destruct d; first [reflexivity | apply Hdigits]).
  unfold string_of_Z. destruct (Z.to_int n) as [d|d]; simpl.
  - apply Huint.
  - apply (Huint d).
Qed.

(** ** Tables *)

Lemma set_violationsTable_same db : set_violationsTable db (violationsTable db) = db.
Proof. by destruct db. Qed.

Lemma set_studentsTable_same db : set_studentsTable db (studentsTable db) = db.
Proof. by destruct db. Qed.

Section Rows.

Context {R : Type} (p : R -> Prop) `{!forall r, Decision (p r)}.

Lemma filter_none (rows : list R) :
  Forall (fun r => ~ p r) rows -> filter p rows = [].
Proof.
  induction 1 as [|r rows Hr _ IH]; [done|].
  by rewrite filter_cons_False.
Qed.

Lemma filter_all (rows : list R) : Forall p rows -> filter p rows = rows.
Proof.
  induction 1 as [|r rows Hr _ IH]; [done|].
  rewrite filter_cons_True by done. by rewrite IH.
Qed.

Lemma first_match (rows : list R) :
  Exists p rows ->
  exists r rest, filter p rows = r :: rest /\ p r /\ r ∈ rows.
Proof.
  induction 1 as [r rows Hr|r rows _ IH].
  - exists r, (filter p rows). rewrite filter_cons_True by done.
    split_and!; [done|done|left].
  - destruct (decide (p r)) as [Hr|Hr].
    + exists r, (filter p rows). rewrite filter_cons_True by done.
      split_and!; [done|done|left].
    + destruct IH as (r' & rest & Hf & Hp & Hin).
      exists r', rest. rewrite filter_cons_False by done.
      split_and!; [done|done|by right].
Qed.

Lemma update_none (set : R -> R) (rows : list R) :
  Forall (fun r => ~ p r) rows ->
  map (fun r => if decide (p r) then set r else r) rows = rows.
Proof.
  induction 1 as [|r rows Hr _ IH]; [done|].
  simpl. rewrite IH. by rewrite decide_False.
Qed.

Lemma update_Forall (set : R -> R) (Q : R -> Prop) (rows : list R) :
  (forall r, p r -> Q (set r)) ->
  (forall r, ~ p r -> Q r) ->
  Forall Q (map (fun r => if decide (p r) then set r else r) rows).
Proof.
  intros Hset Hkeep. apply Forall_map, Forall_forall. intros r _.
  simpl. destruct (decide (p r)); auto.
Qed.

End Rows.


(** ** Statements *)

Lemma int4_spec n : int4 n = true <-> -2147483648 <= n <= 2147483647.
Proof. unfold int4. rewrite andb_true_iff, !Z.leb_le. done. Qed.

Lemma text_ok_spec s : text_ok s = true <-> ~ (exists a b, s = a ++ nul ++ b).
Proof.
  unfold text_ok. rewrite negb_true_iff, <- not_true_iff_false.
  by rewrite includes_spec.
Qed.

Section Statements.

Context `{!Driver}.

Lemma execute_accepted s db :
  accepted s = true -> execute s db = (Resolved tt, db).
Proof. intros Hs. unfold execute. by rewrite Hs. Qed.

Lemma execute_refused s db :
  accepted s = false -> execute s db = (Rejected (query_error s), db).
Proof. intros Hs. unfold execute. by rewrite Hs. Qed.

Lemma accepted_markData now x :
  accepted (update_violation x (markData now)) = int4 x.
Proof. simpl. by rewrite !andb_true_r. Qed.

Lemma createViolation_refused_student now input db :
  int4 (cv_student_id input) = false ->
  createViolation now input db =
    (Rejected (query_error (select_student (cv_student_id input))), db).
Proof.
  intros Hsid. unfold createViolation, try_catch, bind.
  by rewrite execute_refused.
Qed.

Lemma createViolation_unknown_student now input db :
  int4 (cv_student_id input) = true ->
  Forall (fun s => student_id_ s <> cv_student_id input) (studentsTable db) ->
  createViolation now input db =
    (Rejected (mkError ("Student with ID " ++ string_of_Z (cv_student_id input)
                          ++ " not found")), db).
Proof.
  intros Hsid Hmissing. unfold createViolation, try_catch, bind, get.
  rewrite execute_accepted by done.
  by rewrite (filter_none _ _ Hmissing).
Qed.

Lemma createViolation_refused_reporter now input db :
  int4 (cv_student_id input) = true ->
  Exists (fun s => student_id_ s = cv_student_id input) (studentsTable db) ->
  int4 (cv_reported_by input) = false ->
  createViolation now input db =
    (Rejected (query_error (select_user (cv_reported_by input))), db).
Proof.
  intros Hsid Hstudent Huid.
  destruct (first_match _ _ Hstudent) as (s & rest & Hs & _ & _).
  unfold createViolation, try_catch, bind, get.
  rewrite execute_accepted by done. rewrite Hs. simpl.
  by rewrite execute_refused.
Qed.

Lemma createViolation_unknown_reporter now input db :
  int4 (cv_student_id input) = true ->
  Exists (fun s => student_id_ s = cv_student_id input) (studentsTable db) ->
  int4 (cv_reported_by input) = true ->
  Forall (fun u => user_id u <> cv_reported_by input) (usersTable db) ->
  createViolation now input db =
    (Rejected (mkError ("User with ID " ++ string_of_Z (cv_reported_by input)
                          ++ " not found")), db).
Proof.
  intros Hsid Hstudent Huid Hmissing.
  destruct (first_match _ _ Hstudent) as (s & rest & Hs & _ & _).
  unfold createViolation, try_catch, bind, get.
  rewrite execute_accepted by done. rewrite Hs. simpl.
  rewrite execute_accepted by done.
  rewrite (filter_none _ _ Hmissing). reflexivity.
Qed.

Lemma createViolation_refused_insert now input db :
  int4 (cv_student_id input) = true ->
  Exists (fun s => student_id_ s = cv_student_id input) (studentsTable db) ->
  int4 (cv_reported_by input) = true ->
  Exists (fun u => user_id u = cv_reported_by input) (usersTable db) ->
  accepted (insert_violation (created_row now input db)) = false ->
  createViolation now input db =
    (Rejected (query_error (insert_violation (created_row now input db))), db).
Proof.
  intros Hsid Hstudent Huid Hreporter Hinsert.
  destruct (first_match _ _ Hstudent) as (s & rest & Hs & _ & _).
  destruct (first_match _ _ Hreporter) as (u & urest & Hu & _ & _).
  unfold createViolation, try_catch, bind, get.
  rewrite execute_accepted by done. rewrite Hs. simpl.
  rewrite execute_accepted by done. rewrite Hu. simpl.
  fold (created_row now input db).
  by rewrite execute_refused.
Qed.

Lemma createViolation_inserted now input db :
  int4 (cv_student_id input) = true ->
  Exists (fun s => student_id_ s = cv_student_id input) (studentsTable db) ->
  int4 (cv_reported_by input) = true ->
  Exists (fun u => user_id u = cv_reported_by input) (usersTable db) ->
  accepted (insert_violation (created_row now input db)) = true ->
  createViolation now input db =
    (Resolved (created_row now input db),
     mkDatabase (usersTable db) (studentsTable db)
       (violationsTable db ++ [created_row now input db])
       (violations_id_seq db + 1)).
Proof.
  intros Hsid Hstudent Huid Hreporter Hinsert.
  destruct (first_match _ _ Hstudent) as (s & rest & Hs & _ & _).
  destruct (first_match _ _ Hreporter) as (u & urest & Hu & _ & _).
  unfold createViolation, try_catch, bind, get.
  rewrite execute_accepted by done. rewrite Hs. simpl.
  rewrite execute_accepted by done. rewrite Hu. simpl.
  fold (created_row now input db).
  by rewrite execute_accepted.
Qed.

(** [createViolation] either rejects and leaves the store alone, or
    inserts the row it returns. *)
Lemma createViolation_cases now input db :
  (exists e, createViolation now input db = (Rejected e, db))
  \/ (createViolation now input db =
        (Resolved (created_row now input db),
         mkDatabase (usersTable db) (studentsTable db)
           (violationsTable db ++ [created_row now input db])
           (violations_id_seq db + 1))
      /\ Exists (fun s => student_id_ s = cv_student_id input) (studentsTable db)
      /\ Exists (fun u => user_id u = cv_reported_by input) (usersTable db)
      /\ accepted (insert_violation (created_row now input db)) = true).
Proof.
  destruct (int4 (cv_student_id input)) eqn:Hsid;
    [|left; eexists; by apply createViolation_refused_student].
  destruct (decide (Exists (fun s => student_id_ s = cv_student_id input)
                      (studentsTable db))) as [Hs|Hs]; cycle 1.
  { apply not_Exists_Forall in Hs; [|intros s; apply _].
    left. eexists. by apply createViolation_unknown_student. }
  destruct (int4 (cv_reported_by input)) eqn:Huid;
    [|left; eexists; by apply createViolation_refused_reporter].
  destruct (decide (Exists (fun u => user_id u = cv_reported_by input)
                      (usersTable db))) as [Hu|Hu]; cycle 1.
  { apply not_Exists_Forall in Hu; [|intros u; apply _].
    left. eexists. by apply createViolation_unknown_reporter. }
  destruct (accepted (insert_violation (created_row now input db))) eqn:Hrow;
    [|left; eexists; by apply createViolation_refused_insert].
  right. split_and!; try done. by apply createViolation_inserted.
Qed.

Lemma accepted_insert_violation row :
  accepted (insert_violation row) = true -> int4 (id row) = true.
Proof. simpl. rewrite !andb_true_iff. tauto. Qed.

End Statements.

(** ** Notification state *)

Section NotificationState.

Context `{!Driver}.

Lemma markWhatsAppSent_table now violationId messageId db :
  int4 violationId = true ->
  markWhatsAppSent now violationId messageId db =
    (Resolved tt,
     set_violationsTable db
       (map (fun v => if decide (id v = violationId)
                      then apply_set (markData now) v
                      else v)
          (violationsTable db))).
Proof.
  intros Hx. unfold markWhatsAppSent, try_catch, bind.
  rewrite execute_accepted by by rewrite accepted_markData.
  reflexivity.
Qed.

Lemma markWhatsAppSent_refused now violationId messageId db :
  int4 violationId = false ->
  markWhatsAppSent now violationId messageId db =
    (Rejected (query_error (update_violation violationId (markData now))), db).
Proof.
  intros Hx. unfold markWhatsAppSent, try_catch, bind.
  rewrite execute_refused by by rewrite accepted_markData.
  reflexivity.
Qed.

(** C10 (amended). [markWhatsAppSent] on an identifier within the 32-bit
    integers that no stored violation carries resolves without an error
    and leaves the whole store as it was: the [UPDATE] matches no row,
    and the handler has no existence check that would reject. An
    identifier outside the 32-bit integers is refused by the store: the
    call rejects with the error of the driver, the store as it was. *)
Theorem markWhatsAppSent_missing_id
    (now : Date) (violationId : Z) (messageId : string) (db : Database) :
  (int4 violationId = true ->
   Forall (fun v => id v <> violationId) (violationsTable db) ->
   markWhatsAppSent now violationId messageId db = (Resolved tt, db))
  /\ (int4 violationId = false ->
      markWhatsAppSent now violationId messageId db =
        (Rejected (query_error (update_violation violationId (markData now))),
         db)).
Proof.
  split.
  - intros Hx Hmissing. rewrite markWhatsAppSent_table by done.
    rewrite update_none by done.
    by rewrite set_violationsTable_same.
  - apply markWhatsAppSent_refused.
Qed.

Lemma sendWhatsAppMessage_refused date_now random now input db :
  int4 (sw_violation_id input) = false ->
  sendWhatsAppMessage date_now random now input db =
    (Resolved {| success := false; messageId := None;
                 error := Some "Failed to send WhatsApp message" |}, db).
Proof.
  intros Hx. unfold sendWhatsAppMessage, try_catch, bind.
  by rewrite execute_refused.
Qed.

Lemma sendWhatsAppMessage_missing date_now random now input db :
  int4 (sw_violation_id input) = true ->
  Forall (fun v => id v <> sw_violation_id input) (violationsTable db) ->
  sendWhatsAppMessage date_now random now input db =
    (Resolved {| success := false; messageId := None;
                 error := Some "Violation not found" |}, db).
Proof.
  intros Hx Hmissing. unfold sendWhatsAppMessage, try_catch, bind, get.
  rewrite execute_accepted by done.
  rewrite (filter_none _ _ Hmissing). reflexivity.
Qed.

Lemma sendWhatsAppMessage_found date_now random now input db :
  int4 (sw_violation_id input) = true ->
  Exists (fun v => id v = sw_violation_id input) (violationsTable db) ->
  sendWhatsAppMessage date_now random now input db =
    (Resolved {| success := true;
                 messageId :=
                   Some ("wa_" ++ string_of_Z date_now ++ "_" ++ random);
                 error := None |},
     snd (markWhatsAppSent now (sw_violation_id input)
            ("wa_" ++ string_of_Z date_now ++ "_" ++ random) db)).
Proof.
  intros Hx Hexists.
  destruct (first_match _ _ Hexists) as (v & rest & Hf & _ & _).
  unfold sendWhatsAppMessage, try_catch, bind, get.
  rewrite execute_accepted by done.
  rewrite Hf. simpl. rewrite markWhatsAppSent_table by done. reflexivity.
Qed.

(** C4 (amended). [sendWhatsAppMessage] always resolves. For an
    identifier within the 32-bit integers that no violation carries it
    resolves to the failure value with the text [Violation not found]
    and leaves the store alone; for one that a violation carries it
    resolves to a success value that carries the generated identifier,
    and every stored record with that identifier is marked as sent at
    the current time while the other records and the other tables stay
    as they were. An identifier outside the 32-bit integers is refused
    by the store, and the handler resolves to the failure value with
    the text [Failed to send WhatsApp message], the store as it was. *)
Theorem sendWhatsAppMessage_result
    (date_now : Z) (random : string) (now : Date)
    (input : SendWhatsAppInput) (db : Database) :
  (exists r db',
      sendWhatsAppMessage date_now random now input db = (Resolved r, db'))
  /\ (int4 (sw_violation_id input) = true ->
      Forall (fun v => id v <> sw_violation_id input) (violationsTable db) ->
      sendWhatsAppMessage date_now random now input db =
        (Resolved {| success := false; messageId := None;
                     error := Some "Violation not found" |}, db))
  /\ (int4 (sw_violation_id input) = true ->
      Exists (fun v => id v = sw_violation_id input) (violationsTable db) ->
      exists db',
        sendWhatsAppMessage date_now random now input db =
          (Resolved {| success := true;
                       messageId :=
                         Some ("wa_" ++ string_of_Z date_now ++ "_" ++ random);
                       error := None |}, db')
        /\ usersTable db' = usersTable db
        /\ studentsTable db' = studentsTable db
        /\ map id (violationsTable db') = map id (violationsTable db)
        /\ Forall (fun v' => if decide (id v' = sw_violation_id input)
                             then whatsapp_sent v' = true
                                  /\ whatsapp_sent_at v' = Some now
                             else v' ∈ violationsTable db)
             (violationsTable db'))
  /\ (int4 (sw_violation_id input) = false ->
      sendWhatsAppMessage date_now random now input db =
        (Resolved {| success := false; messageId := None;
                     error := Some "Failed to send WhatsApp message" |}, db)).
Proof.
  split_and!.
  - destruct (int4 (sw_violation_id input)) eqn:Hx.
    + destruct (decide (Exists (fun v => id v = sw_violation_id input)
                          (violationsTable db))) as [Hex|Hno].
      * rewrite sendWhatsAppMessage_found by done. eauto.
      * apply not_Exists_Forall in Hno; [|intros v; apply _].
        rewrite sendWhatsAppMessage_missing by done. eauto.
    + rewrite sendWhatsAppMessage_refused by done. eauto.
  - apply sendWhatsAppMessage_missing.
  - intros Hx Hexists. eexists.
    split; [by apply sendWhatsAppMessage_found|].
    rewrite markWhatsAppSent_table by done. simpl. split_and!; try done.
    + rewrite <- list_fmap_compose. apply list_fmap_ext.
      intros i v' _. simpl. by destruct (decide (id v' = _)).
    + apply Forall_map, Forall_forall. intros v' Hin. simpl.
      destruct (decide (id v' = sw_violation_id input)) as [Heq|Hne]; simpl.
      * by rewrite decide_True.
      * by rewrite decide_False.
  - apply sendWhatsAppMessage_refused.
Qed.

Lemma createViolation_sent_invariant now input db v db' :
  createViolation now input db = (Resolved v, db') ->
  sent_invariant v
  /\ (Forall sent_invariant (violationsTable db) ->
      Forall sent_invariant (violationsTable db')).
Proof.
  destruct (createViolation_cases now input db)
    as [[e ->]|(-> & _)]; [discriminate|].
  intros [= <- <-]; simpl.
  assert (Hnew : sent_invariant
            {| id := violations_id_seq db; student_id := cv_student_id input;
               violation_type := cv_violation_type input;
               location := cv_location input;
               description := cv_description input;
               photo_url := cv_photo_url input;
               violation_time := cv_violation_time input;
               reported_by := cv_reported_by input;
               whatsapp_sent := false; whatsapp_sent_at := None;
               created_at := now; updated_at := now |}).
  { unfold sent_invariant; simpl. split; [done | discriminate]. }
  split; [exact Hnew|]. intros Hold. apply Forall_app; split; [done|].
  constructor; [exact Hnew | constructor].
Qed.

Lemma markWhatsAppSent_sent_invariant now violationId messageId db :
  Forall sent_invariant (violationsTable db) ->
  Forall sent_invariant
    (violationsTable (snd (markWhatsAppSent now violationId messageId db))).
Proof.
  intros Hold. destruct (int4 violationId) eqn:Hx;
    [|by rewrite markWhatsAppSent_refused].
  rewrite markWhatsAppSent_table by done. simpl.
  rewrite Forall_forall in Hold.
  apply Forall_map, Forall_forall. intros v Hin. simpl.
  destruct (decide (id v = violationId)); [|by apply Hold].
  unfold sent_invariant; simpl. done.
Qed.

Lemma sendWhatsAppMessage_sent_invariant date_now random now input db :
  Forall sent_invariant (violationsTable db) ->
  Forall sent_invariant
    (violationsTable (snd (sendWhatsAppMessage date_now random now input db))).
Proof.
  intros Hold. destruct (int4 (sw_violation_id input)) eqn:Hx;
    [|by rewrite sendWhatsAppMessage_refused].
  destruct (decide (Exists (fun v => id v = sw_violation_id input)
                      (violationsTable db))) as [Hex|Hno].
  - rewrite sendWhatsAppMessage_found by done.
    by apply markWhatsAppSent_sent_invariant.
  - apply not_Exists_Forall in Hno; [|intros v; apply _].
    by rewrite sendWhatsAppMessage_missing.
Qed.

End NotificationState.

Lemma markWhatsAppSent_missing_id_witness :
  markWhatsAppSent 300 7 "wa_300_abc" sample_db = (Resolved tt, sample_db).
Proof.
  apply (markWhatsAppSent_missing_id 300 7 "wa_300_abc" sample_db).
  - reflexivity.
  - repeat constructor. simpl. lia.
Defined.

(** C10 as stated fails: no stored violation carries the identifier
    2147483648, which [z.number()] lets through, and [markWhatsAppSent]
    rejects on it. *)
Lemma markWhatsAppSent_out_of_range :
  Forall (fun v => id v <> 2147483648) (violationsTable sample_db)
  /\ exists e,
       markWhatsAppSent 300 2147483648 "wa_300_abc" sample_db
       = (Rejected e, sample_db).
Proof.
  split; [repeat constructor; simpl; lia|].
  eexists. reflexivity.
Qed.

Lemma sendWhatsAppMessage_result_witness :
  sendWhatsAppMessage 1700000000000 "k3j9x0a1b" 300
    {| sw_violation_id := 7; sw_phone_number := "+6281234567890";
       sw_message := "Assalamu'alaikum" |} sample_db =
    (Resolved {| success := false; messageId := None;
                 error := Some "Violation not found" |}, sample_db)
  /\ exists db',
       sendWhatsAppMessage 1700000000000 "k3j9x0a1b" 300
         {| sw_violation_id := 1; sw_phone_number := "+6281234567890";
            sw_message := "Assalamu'alaikum" |} sample_db =
         (Resolved {| success := true;
                      messageId := Some "wa_1700000000000_k3j9x0a1b";
                      error := None |}, db')
       /\ Forall (fun v' => whatsapp_sent v' = true
                            /\ whatsapp_sent_at v' = Some 300)
            (violationsTable db').
Proof.
  split.
  - apply (sendWhatsAppMessage_result 1700000000000 "k3j9x0a1b" 300
             {| sw_violation_id := 7; sw_phone_number := "+6281234567890";
                sw_message := "Assalamu'alaikum" |} sample_db).
    + reflexivity.
    + repeat constructor. simpl. lia.
  - destruct (sendWhatsAppMessage_result 1700000000000 "k3j9x0a1b" 300
                {| sw_violation_id := 1; sw_phone_number := "+6281234567890";
                   sw_message := "Assalamu'alaikum" |} sample_db)
      as (_ & _ & Hfound & _).
    destruct Hfound as (db' & Hsend & _ & _ & Hids & Hsent).
    { reflexivity. }
    { left. reflexivity. }
    exists db'. split; [exact Hsend|].
    destruct (violationsTable db') as [|v' [|w l]]; try discriminate Hids.
    injection Hids as Hid. apply Forall_inv in Hsent.
    simpl in Hsent. rewrite decide_True in Hsent by done.
    by constructor.
Defined.

(** C4 as stated fails: no stored violation carries the identifier
    2147483648, and [sendWhatsAppMessage] answers with [Failed to send
    WhatsApp message], not with [Violation not found]. *)
Lemma sendWhatsAppMessage_out_of_range :
  Forall (fun v => id v <> 2147483648) (violationsTable sample_db)
  /\ sendWhatsAppMessage 1700000000000 "k3j9x0a1b" 300
       {| sw_violation_id := 2147483648; sw_phone_number := "+6281234567890";
          sw_message := "Assalamu'alaikum" |} sample_db
     = (Resolved {| success := false; messageId := None;
                    error := Some "Failed to send WhatsApp message" |},
        sample_db).
Proof.
  split; [repeat constructor; simpl; lia | reflexivity].
Qed.

(** ** Partial update *)

Lemma primary_key_unique db v w :
  primary_key_ok db ->
  v ∈ violationsTable db -> w ∈ violationsTable db -> id v = id w -> v = w.
Proof.
  unfold primary_key_ok. intros [Hnd _]. revert Hnd.
  induction (violationsTable db) as [|x l IH]; simpl.
  - intros _ Hv. by apply elem_of_nil in Hv.
  - intros Hnd Hv Hw Hid. apply NoDup_cons in Hnd as [Hx Hnd].
    apply elem_of_cons in Hv as [->|Hv]; apply elem_of_cons in Hw as [->|Hw].
    + done.
    + exfalso. apply Hx. rewrite Hid. by apply list_elem_of_fmap_2.
    + exfalso. apply Hx. rewrite <- Hid. by apply list_elem_of_fmap_2.
    + by apply IH.
Qed.

Lemma primary_key_int4 db v :
  primary_key_ok db -> v ∈ violationsTable db -> int4 (id v) = true.
Proof.
  intros [_ Hrange] Hin. rewrite Forall_forall in Hrange. by apply Hrange.
Qed.

Section PartialUpdate.

Context `{!Driver}.

Lemma accepted_update_violation x set :
  accepted (update_violation x set) = true ->
  int4 x = true /\ nullable_ok int4 (set_student_id set) = true.
Proof. simpl. rewrite !andb_true_iff. tauto. Qed.

Lemma updateViolation_refused_id now input db :
  int4 (uv_id input) = false ->
  updateViolation now input db =
    (Rejected (query_error (select_violation (uv_id input))), db).
Proof.
  intros Hx. unfold updateViolation, try_catch, bind.
  by rewrite execute_refused.
Qed.

Lemma updateViolation_missing now input db :
  int4 (uv_id input) = true ->
  Forall (fun v => id v <> uv_id input) (violationsTable db) ->
  updateViolation now input db =
    (Rejected (mkError ("Violation with ID " ++ string_of_Z (uv_id input)
                          ++ " not found")), db).
Proof.
  intros Hx Hmissing. unfold updateViolation, try_catch, bind, get.
  rewrite execute_accepted by done.
  by rewrite (filter_none _ _ Hmissing).
Qed.

Lemma updateViolation_refused_student now input db sid :
  int4 (uv_id input) = true ->
  Exists (fun v => id v = uv_id input) (violationsTable db) ->
  uv_student_id input = Some sid ->
  int4 sid = false ->
  updateViolation now input db =
    (Rejected (query_error (select_student sid)), db).
Proof.
  intros Hx Hexists Hsid Hrange.
  destruct (first_match _ _ Hexists) as (v & rest & Hf & _ & _).
  unfold updateViolation, try_catch, bind, get.
  rewrite execute_accepted by done.
  rewrite Hf, Hsid. simpl.
  by rewrite execute_refused.
Qed.

Lemma updateViolation_unknown_student now input db sid :
  int4 (uv_id input) = true ->
  Exists (fun v => id v = uv_id input) (violationsTable db) ->
  uv_student_id input = Some sid ->
  int4 sid = true ->
  Forall (fun s => student_id_ s <> sid) (studentsTable db) ->
  updateViolation now input db =
    (Rejected (mkError ("Student with ID " ++ string_of_Z sid
                          ++ " not found")), db).
Proof.
  intros Hx Hexists Hsid Hrange Hmissing.
  destruct (first_match _ _ Hexists) as (v & rest & Hf & _ & _).
  unfold updateViolation, try_catch, bind, get.
  rewrite execute_accepted by done.
  rewrite Hf, Hsid. simpl.
  rewrite execute_accepted by done.
  by rewrite (filter_none _ _ Hmissing).
Qed.

(** The checks of [updateViolation] passed: what is left is the
    [UPDATE]. *)
Lemma updateViolation_checked now input db existing0 rest :
  int4 (uv_id input) = true ->
  filter (fun v => id v = uv_id input) (violationsTable db) = existing0 :: rest ->
  (forall sid, uv_student_id input = Some sid ->
               int4 sid = true
               /\ Exists (fun s => student_id_ s = sid) (studentsTable db)) ->
  updateViolation now input db =
    if accepted (update_violation (uv_id input)
                   (updateData now input (whatsapp_sent existing0)))
    then
      (Resolved
         (Some (apply_set (updateData now input (whatsapp_sent existing0))
                  existing0)),
       set_violationsTable db
         (map (fun v => if decide (id v = uv_id input)
                        then apply_set
                               (updateData now input (whatsapp_sent existing0))
                               v
                        else v)
            (violationsTable db)))
    else
      (Rejected
         (query_error
            (update_violation (uv_id input)
               (updateData now input (whatsapp_sent existing0)))), db).
Proof.
  intros Hx Hf Hstudent.
  unfold updateViolation, try_catch, bind, get.
  rewrite execute_accepted by done.
  rewrite Hf. cbn [take].
  assert (Hcheck :
    (match uv_student_id input with
     | Some sid =>
         await_ execute (select_student sid);
         if bool_decide
              (take 1 (filter (fun s => student_id_ s = sid) (studentsTable db))
               = [])
         then throw ("Student with ID " ++ string_of_Z sid ++ " not found")
         else ret tt
     | None => ret tt
     end) db = (Resolved tt, db)).
  { destruct (uv_student_id input) as [sid|]; [|done].
    destruct (Hstudent sid eq_refl) as [Hrange Hs].
    destruct (first_match _ _ Hs) as (s & srest & Hfs & _ & _).
    unfold bind. rewrite execute_accepted by done. by rewrite Hfs. }
  unfold bind in Hcheck. rewrite Hcheck.
  unfold execute.
  destruct (accepted _); [|reflexivity].
  simpl. rewrite Hf. reflexivity.
Qed.

Lemma updateViolation_found now input db existing0 rest :
  filter (fun v => id v = uv_id input) (violationsTable db) = existing0 :: rest ->
  (forall sid, uv_student_id input = Some sid ->
               Exists (fun s => student_id_ s = sid) (studentsTable db)) ->
  accepted (update_violation (uv_id input)
              (updateData now input (whatsapp_sent existing0))) = true ->
  updateViolation now input db =
    (Resolved
       (Some (apply_set (updateData now input (whatsapp_sent existing0))
                existing0)),
     set_violationsTable db
       (map (fun v => if decide (id v = uv_id input)
                      then apply_set
                             (updateData now input (whatsapp_sent existing0)) v
                      else v)
          (violationsTable db))).
Proof.
  intros Hf Hstudent Haccepted.
  destruct (accepted_update_violation _ _ Haccepted) as [Hx Hsid].
  rewrite (updateViolation_checked now input db existing0 rest Hx Hf).
  - by rewrite Haccepted.
  - intros sid Heq. split; [|by apply Hstudent].
    simpl in Hsid. by rewrite Heq in Hsid.
Qed.

(** [updateViolation] either rejects and leaves the store alone, or
    rewrites the rows with the identifier. *)
Lemma updateViolation_cases now input db :
  (exists e, updateViolation now input db = (Rejected e, db))
  \/ exists e0 rest,
       filter (fun v => id v = uv_id input) (violationsTable db) = e0 :: rest
       /\ (forall sid, uv_student_id input = Some sid ->
                       Exists (fun s => student_id_ s = sid) (studentsTable db))
       /\ accepted (update_violation (uv_id input)
                      (updateData now input (whatsapp_sent e0))) = true
       /\ updateViolation now input db =
            (Resolved
               (Some (apply_set (updateData now input (whatsapp_sent e0)) e0)),
             set_violationsTable db
               (map (fun v => if decide (id v = uv_id input)
                              then apply_set
                                     (updateData now input (whatsapp_sent e0)) v
                              else v)
                  (violationsTable db))).
Proof.
  destruct (int4 (uv_id input)) eqn:Hx;
    [|left; eexists; by apply updateViolation_refused_id].
  destruct (decide (Exists (fun v => id v = uv_id input) (violationsTable db)))
    as [Hexists|Hmissing]; cycle 1.
  { apply not_Exists_Forall in Hmissing; [|intros v; apply _].
    left. eexists. by apply updateViolation_missing. }
  destruct (first_match _ _ Hexists) as (e0 & rest & Hf & Hid0 & Hin0).
  assert (Hstudent :
    (forall sid, uv_student_id input = Some sid ->
                 int4 sid = true
                 /\ Exists (fun s => student_id_ s = sid) (studentsTable db))
    \/ exists e, updateViolation now input db = (Rejected e, db)).
  { destruct (uv_student_id input) as [sid|] eqn:Hsid; [|left; by intros].
    destruct (int4 sid) eqn:Hrange; cycle 1.
    { right. eexists.
      by apply (updateViolation_refused_student now input db sid). }
    destruct (decide (Exists (fun s => student_id_ s = sid) (studentsTable db)))
      as [Hs|Hs].
    - left. by intros sid' [= <-].
    - apply not_Exists_Forall in Hs; [|intros s; apply _].
      right. eexists.
      by apply (updateViolation_unknown_student now input db sid). }
  destruct Hstudent as [Hstudent|Hrejected]; [|by left].
  pose proof (updateViolation_checked now input db e0 rest Hx Hf Hstudent)
    as Hupdate.
  destruct (accepted (update_violation (uv_id input)
                        (updateData now input (whatsapp_sent e0)))) eqn:Hacc.
  - right. exists e0, rest. split_and!; try done.
    intros sid Hsid. by apply Hstudent.
  - left. by eexists.
Qed.



End PartialUpdate.



(** C3 as stated also fails where the store refuses a parameter: on the
    stored violation 1, the update that supplies a [location] with a NUL
    character rejects and leaves the store as it was, and an update of
    the identifier 2147483648, which no violation carries, rejects with
    an error that is not a NotFound error. *)
Lemma updateViolation_refused_parameter :
  (exists e,
     updateViolation 200
       {| uv_id := 1; uv_student_id := None; uv_violation_type := None;
          uv_location := Some ("a" ++ nul ++ "b"); uv_description := None;
          uv_photo_url := None; uv_violation_time := None;
          uv_whatsapp_sent := None |} sample_db
     = (Rejected e, sample_db))
  /\ Forall (fun v => id v <> 2147483648) (violationsTable sample_db)
  /\ exists e,
       updateViolation 200 (only_whatsapp_sent 2147483648 true) sample_db
       = (Rejected e, sample_db)
       /\ ~ NotFound e.
Proof.
  split; [eexists; reflexivity|].
  split; [by repeat constructor|].
  eexists. split; [reflexivity|].
  unfold NotFound, mentions. vm_compute. discriminate.
Qed.

(** ** The notification invariant under updates *)

Section InvariantUnderUpdates.

Context `{!Driver}.

Lemma updateViolation_store now input db :
  snd (updateViolation now input db) = db
  \/ exists e0,
       e0 ∈ violationsTable db
       /\ id e0 = uv_id input
       /\ snd (updateViolation now input db) =
            set_violationsTable db
              (map (fun v => if decide (id v = uv_id input)
                             then apply_set
                                    (updateData now input (whatsapp_sent e0)) v
                             else v)
                 (violationsTable db)).
Proof.
  destruct (updateViolation_cases now input db)
    as [[e ->]|(e0 & rest & Hf & _ & _ & ->)]; [by left|].
  right. exists e0.
  assert (Hin : e0 ∈ filter (fun v => id v = uv_id input) (violationsTable db))
    by (rewrite Hf; left).
  apply list_elem_of_filter in Hin as [Hid Hin]. done.
Qed.

Lemma apply_set_sent_invariant now input v :
  sent_invariant v ->
  uv_whatsapp_sent input <> Some false ->
  sent_invariant (apply_set (updateData now input (whatsapp_sent v)) v).
Proof.
  unfold sent_invariant. intros Hv Hflag. simpl.
  destruct (uv_whatsapp_sent input) as [[|]|]; simpl; [|done|done].
  destruct (whatsapp_sent v); simpl; [tauto | done].
Qed.

Lemma updateViolation_sent_invariant now input db :
  primary_key_ok db ->
  Forall sent_invariant (violationsTable db) ->
  uv_whatsapp_sent input <> Some false ->
  Forall sent_invariant
    (violationsTable (snd (updateViolation now input db))).
Proof.
  intros Hpk Hold Hflag.
  destruct (updateViolation_store now input db)
    as [->|(e0 & Hin0 & Hid0 & ->)]; [done|].
  simpl. rewrite Forall_forall in Hold.
  apply Forall_map, Forall_forall. intros w Hw. simpl.
  destruct (decide (id w = uv_id input)) as [Hwid|]; [|by apply Hold].
  assert (w = e0) as -> by (apply (primary_key_unique db); congruence).
  apply apply_set_sent_invariant; auto.
Qed.

End InvariantUnderUpdates.

(** C1. The invariant, [whatsapp_sent_at] is set exactly when
    [whatsapp_sent] is true, holds after [createViolation],
    [markWhatsAppSent] and [sendWhatsAppMessage], and after every
    [updateViolation] that does not supply [whatsapp_sent = false] (the
    lemmas above). The remaining update breaks it: on a violation that was
    sent at time 100, the update that supplies only
    [whatsapp_sent = false] stores [whatsapp_sent = false] and keeps
    [whatsapp_sent_at = 100]. *)
Theorem updateViolation_unsend_keeps_timestamp :
  Forall sent_invariant (violationsTable sample_db_sent)
  /\ exists v' db',
       updateViolation 200 (only_whatsapp_sent 1 false) sample_db_sent =
         (Resolved (Some v'), db')
       /\ violationsTable db' = [v']
       /\ whatsapp_sent v' = false
       /\ whatsapp_sent_at v' = Some 100
       /\ ~ sent_invariant v'.
Proof.
  split.
  - repeat constructor; simpl; done.
  - eexists _, _. split; [reflexivity|]. simpl. split_and!; try done.
    unfold sent_invariant; simpl. intros [H _].
    by discriminate H.
Qed.

(** ** Listing the violations of a student *)

#[local] Instance desc_violation_time_total : Total desc_violation_time.
Proof. intros a b. unfold desc_violation_time. lia. Qed.

#[local] Instance desc_violation_time_trans : Transitive desc_violation_time.
Proof. intros a b c. unfold desc_violation_time. lia. Qed.

Lemma merge_order_orders_by_time : orders_by_time merge_order.
Proof.
  intros rows. split.
  - apply merge_sort_Permutation.
  - apply (StronglySorted_merge_sort _).
Qed.

Lemma orders_by_time_nil order : orders_by_time order -> order [] = [].
Proof. intros Horder. apply Permutation_nil_r, Horder. Qed.

Lemma StronglySorted_take {A} (R : A -> A -> Prop) n (l : list A) :
  StronglySorted R l -> StronglySorted R (take n l).
Proof.
  intros Hl. revert n. induction Hl as [|x l Hl IH Hx]; intros [|n]; simpl;
    try constructor.
  - apply IH.
  - rewrite Forall_forall in Hx. apply Forall_forall.
    intros y Hy. apply Hx. by apply (subseteq_take n l).
Qed.

Lemma StronglySorted_drop {A} (R : A -> A -> Prop) n (l : list A) :
  StronglySorted R l -> StronglySorted R (drop n l).
Proof.
  intros Hl. revert n. induction Hl as [|x l Hl IH Hx]; intros [|n]; simpl;
    try constructor; auto.
Qed.

(** Rows with pairwise distinct times have one descending order. *)
Lemma sorted_by_time_unique (l m : list Violation) :
  NoDup (map violation_time l) ->
  l ≡ₚ m ->
  StronglySorted desc_violation_time l ->
  StronglySorted desc_violation_time m ->
  l = m.
Proof.
  revert m. induction l as [|x l IH]; intros m Hnd Hperm Hl Hm.
  - by apply Permutation_nil_l.
  - destruct m as [|y m]; [by apply Permutation_nil_r in Hperm|].
    simpl in Hnd. apply NoDup_cons in Hnd as [Hx Hnd].
    apply StronglySorted_inv in Hl as [Hl Hxl].
    apply StronglySorted_inv in Hm as [Hm Hym].
    assert (x = y) as <-.
    { assert (Hxin : x ∈ y :: m) by (rewrite <- Hperm; left).
      assert (Hyin : y ∈ x :: l) by (rewrite Hperm; left).
      apply elem_of_cons in Hxin as [?|Hxin]; [done|].
      apply elem_of_cons in Hyin as [?|Hyin]; [done|].
      rewrite Forall_forall in Hxl, Hym.
      pose proof (Hxl y Hyin) as H1. pose proof (Hym x Hxin) as H2.
      unfold desc_violation_time in H1, H2.
      exfalso. apply Hx.
      replace (violation_time x) with (violation_time y) by lia.
      by apply list_elem_of_fmap_2. }
    f_equal. apply IH; try done.
    by apply (Permutation_cons_inv (a := x)).
Qed.

Lemma orders_agree (order order' : list Violation -> list Violation) rows :
  orders_by_time order -> orders_by_time order' ->
  NoDup (map violation_time rows) ->
  order rows = order' rows.
Proof.
  intros Horder Horder' Hnd.
  destruct (Horder rows) as [Hp Hs]. destruct (Horder' rows) as [Hp' Hs'].
  apply sorted_by_time_unique; try done.
  - by rewrite Hp.
  - by rewrite Hp, Hp'.
Qed.

Lemma unknown_student_has_no_violations X db :
  foreign_keys_ok db ->
  Forall (fun s => student_id_ s <> X) (studentsTable db) ->
  Forall (fun v => student_id v <> X) (violationsTable db).
Proof.
  intros Hfk Hmissing. eapply Forall_impl; [exact Hfk|].
  intros v Hv HX. simpl in Hv.
  apply Exists_exists in Hv as (s & Hs & Heq).
  rewrite Forall_forall in Hmissing. apply (Hmissing s Hs). congruence.
Qed.

Section Listing.

Context `{!Driver}.

(** What [getViolations] does, by whether the store takes the
    parameters of the query. *)
Lemma getViolations_rows order input db :
  getViolations order input db =
    if accepted (select_violations (input ≫= gv_student_id)
                   (nullish (input ≫= gv_limit) 1000%nat)
                   (nullish (input ≫= gv_offset) 0%nat))
    then
      (Resolved
         (take (nullish (input ≫= gv_limit) 1000%nat)
            (drop (nullish (input ≫= gv_offset) 0%nat)
               (order (selected (input ≫= gv_student_id) db)))), db)
    else
      (Rejected
         (query_error
            (select_violations (input ≫= gv_student_id)
               (nullish (input ≫= gv_limit) 1000%nat)
               (nullish (input ≫= gv_offset) 0%nat))), db).
Proof.
  unfold getViolations, try_catch, bind, get, ret, execute, selected.
  destruct (accepted _); [|reflexivity].
  by destruct (input ≫= gv_student_id).
Qed.

Lemma accepted_only_student X :
  accepted (select_violations (Some X) 1000 0) = int4 X.
Proof.
  unfold accepted, nullable_ok.
  replace (int8 (Z.of_nat 1000)) with true by (vm_compute; reflexivity).
  replace (int8 (Z.of_nat 0)) with true by (vm_compute; reflexivity).
  by rewrite !andb_true_r.
Qed.

Lemma getViolations_only_student order X db :
  getViolations order (only_student X) db =
    if int4 X
    then
      (Resolved
         (take 1000
            (order (filter (fun v => student_id v = X) (violationsTable db)))),
       db)
    else (Rejected (query_error (select_violations (Some X) 1000 0)), db).
Proof.
  rewrite getViolations_rows.
  change (only_student X ≫= gv_student_id) with (Some X).
  change (nullish (only_student X ≫= gv_limit) 1000%nat) with 1000%nat.
  change (nullish (only_student X ≫= gv_offset) 0%nat) with 0%nat.
  rewrite accepted_only_student. reflexivity.
Qed.

Lemma getViolationsByStudent_refused order X db :
  int4 X = false ->
  getViolationsByStudent order X db =
    (Rejected (query_error (select_student X)), db).
Proof.
  intros HX. unfold getViolationsByStudent, try_catch, bind.
  by rewrite execute_refused.
Qed.

Lemma getViolationsByStudent_missing order X db :
  int4 X = true ->
  Forall (fun s => student_id_ s <> X) (studentsTable db) ->
  getViolationsByStudent order X db =
    (Rejected (mkError ("Student with ID " ++ string_of_Z X ++ " not found")),
     db).
Proof.
  intros HX Hmissing. unfold getViolationsByStudent, try_catch, bind, get.
  rewrite execute_accepted by done.
  by rewrite (filter_none _ _ Hmissing).
Qed.

Lemma getViolationsByStudent_found order X db :
  int4 X = true ->
  Exists (fun s => student_id_ s = X) (studentsTable db) ->
  getViolationsByStudent order X db =
    (Resolved
       (order (filter (fun v => student_id v = X) (violationsTable db))), db).
Proof.
  intros HX Hexists.
  destruct (first_match _ _ Hexists) as (s & rest & Hs & _ & _).
  unfold getViolationsByStudent, try_catch, bind, get.
  rewrite execute_accepted by done.
  rewrite Hs. simpl.
  by rewrite execute_accepted.
Qed.

(** C2 (amended). Let [X] be a 32-bit integer. When no student carries
    [X], [getViolationsByStudent] rejects with a NotFound error, and
    [getViolations] with that [student_id] resolves to the empty list
    (no violation can reference a student that does not exist). When a
    student carries [X], [getViolationsByStudent] resolves to all the
    violations of that student in descending order of [violation_time],
    and [getViolations] with only [student_id] supplied resolves to the
    first 1000 rows, its default limit, of such a list; violations with
    equal times come in the order the store gives them to each query.
    When [X] is not a 32-bit integer, the store refuses the parameter
    and both calls reject with the error of the driver. Neither call
    writes. *)
Theorem violations_of_student
    (order order' : list Violation -> list Violation)
    (X : Z) (db : Database) :
  (int4 X = true ->
   Forall (fun s => student_id_ s <> X) (studentsTable db) ->
   (exists e, getViolationsByStudent order X db = (Rejected e, db)
              /\ NotFound e
              /\ message e = "Student with ID " ++ string_of_Z X
                             ++ " not found")
   /\ (foreign_keys_ok db -> orders_by_time order' ->
       getViolations order' (only_student X) db = (Resolved [], db)))
  /\ (int4 X = true ->
      Exists (fun s => student_id_ s = X) (studentsTable db) ->
      orders_by_time order -> orders_by_time order' ->
      exists all all',
        getViolationsByStudent order X db = (Resolved all, db)
        /\ getViolations order' (only_student X) db =
             (Resolved (take 1000 all'), db)
        /\ all ≡ₚ filter (fun v => student_id v = X) (violationsTable db)
        /\ StronglySorted desc_violation_time all
        /\ all' ≡ₚ filter (fun v => student_id v = X) (violationsTable db)
        /\ StronglySorted desc_violation_time all'
        /\ StronglySorted desc_violation_time (take 1000 all'))
  /\ (int4 X = false ->
      getViolationsByStudent order X db =
        (Rejected (query_error (select_student X)), db)
      /\ getViolations order' (only_student X) db =
           (Rejected (query_error (select_violations (Some X) 1000 0)), db)).
Proof.
  split_and!.
  - intros HX Hmissing. split.
    + eexists. split; [by apply getViolationsByStudent_missing|].
      split; [apply not_found_message | reflexivity].
    + intros Hfk Horder.
      pose proof (unknown_student_has_no_violations X db Hfk Hmissing) as Hnone.
      rewrite getViolations_only_student, HX.
      rewrite (filter_none _ _ Hnone).
      by rewrite (orders_by_time_nil _ Horder).
  - intros HX Hexists Horder Horder'.
    eexists _, _. split; [by apply getViolationsByStudent_found|].
    split; [by rewrite getViolations_only_student, HX|].
    destruct (Horder (filter (fun v => student_id v = X) (violationsTable db)))
      as [Hp Hs].
    destruct (Horder' (filter (fun v => student_id v = X) (violationsTable db)))
      as [Hp' Hs'].
    split_and!; try done.
    by apply StronglySorted_take.
  - intros HX. split; [by apply getViolationsByStudent_refused|].
    by rewrite getViolations_only_student, HX.
Qed.

End Listing.

Lemma violations_of_student_witness :
  exists all all',
    getViolationsByStudent merge_order 1 sample_db = (Resolved all, sample_db)
    /\ getViolations merge_order (only_student 1) sample_db =
         (Resolved (take 1000 all'), sample_db)
    /\ all ≡ₚ filter (fun v => student_id v = 1) (violationsTable sample_db)
    /\ StronglySorted desc_violation_time all
    /\ all' ≡ₚ filter (fun v => student_id v = 1) (violationsTable sample_db)
    /\ StronglySorted desc_violation_time all'
    /\ StronglySorted desc_violation_time (take 1000 all').
Proof.
  apply (violations_of_student merge_order merge_order 1 sample_db).
  - reflexivity.
  - simpl. left. reflexivity.
  - apply merge_order_orders_by_time.
  - apply merge_order_orders_by_time.
Defined.

(** C2 as stated fails for [getViolations]: in a store where student 1
    has 1001 violations, the call with only [student_id = 1] resolves to
    1000 of them, and the oldest one is left out. *)
Lemma getViolations_default_limit :
  Exists (fun s => student_id_ s = 1) (studentsTable busy_db)
  /\ length (filter (fun v => student_id v = 1) (violationsTable busy_db))
     = 1001%nat
  /\ exists l,
       getViolations merge_order (only_student 1) busy_db =
         (Resolved l, busy_db)
       /\ length l = 1000%nat
       /\ Forall (fun v => id v <> 1) l
       /\ Exists (fun v => id v = 1 /\ student_id v = 1)
            (violationsTable busy_db).
Proof.
  split; [left; reflexivity|].
  split; [vm_compute; reflexivity|].
  exists (take 1000 (merge_order
                       (filter (fun v => student_id v = 1)
                          (violationsTable busy_db)))).
  split; [reflexivity|].
  split; [vm_compute; reflexivity|].
  split.
  - apply (bool_decide_unpack _). vm_compute. reflexivity.
  - left. split; reflexivity.
Qed.

(** C2 as stated also fails outside the 32-bit integers: 2147483648 is
    an identifier that no student of the sample store carries, and the
    store refuses it as a parameter, so that [getViolationsByStudent]
    rejects with an error that is not a NotFound error and
    [getViolations] rejects where the claim promises the empty list. *)
Lemma violations_of_student_out_of_range :
  foreign_keys_ok sample_db
  /\ Forall (fun s => student_id_ s <> 2147483648) (studentsTable sample_db)
  /\ (exists e,
        getViolationsByStudent merge_order 2147483648 sample_db
        = (Rejected e, sample_db)
        /\ ~ NotFound e)
  /\ exists e,
       getViolations merge_order (only_student 2147483648) sample_db
       = (Rejected e, sample_db).
Proof.
  split; [repeat constructor|].
  split; [by repeat constructor|].
  split.
  - eexists. split; [reflexivity|].
    unfold NotFound, mentions. vm_compute. discriminate.
  - eexists. reflexivity.
Qed.

(** ** Deleting a student *)

Lemma delete_keeps_others {R} (p : R -> Prop) `{!forall r, Decision (p r)}
    (rows : list R) (r : R) :
  ~ p r -> (r ∈ rows <-> r ∈ filter (fun r => ~ p r) rows).
Proof. intros Hr. rewrite list_elem_of_filter. split; [auto | by intros [_ ?]]. Qed.

Section DeletingStudent.

Context `{!Driver}.

(** C9 (amended). Let [x] be a 32-bit integer. [deleteStudent] on a
    student that a violation references rejects with the error
    [Cannot delete student with existing violations] and leaves the
    store as it was; on a stored student that no violation references
    it resolves, and afterwards no row carries the identifier while
    every other row is kept; on an identifier that no student carries
    it rejects with [Student not found], given that violations
    reference stored students only. When [x] is not a 32-bit integer,
    the store refuses the parameter of the count query and the call
    rejects with the error of the driver, the store as it was. *)
Theorem deleteStudent_guard (x : Z) (db : Database) :
  (int4 x = true ->
   Exists (fun v => student_id v = x) (violationsTable db) ->
   exists e, deleteStudent x db = (Rejected e, db)
             /\ message e = "Cannot delete student with existing violations"
             /\ mentions e "existing violations")
  /\ (int4 x = true ->
      Exists (fun s => student_id_ s = x) (studentsTable db) ->
      Forall (fun v => student_id v <> x) (violationsTable db) ->
      exists db',
        deleteStudent x db = (Resolved tt, db')
        /\ Forall (fun s => student_id_ s <> x) (studentsTable db')
        /\ (forall s, student_id_ s <> x ->
                      (s ∈ studentsTable db <-> s ∈ studentsTable db'))
        /\ violationsTable db' = violationsTable db
        /\ usersTable db' = usersTable db)
  /\ (int4 x = true ->
      foreign_keys_ok db ->
      Forall (fun s => student_id_ s <> x) (studentsTable db) ->
      exists e, deleteStudent x db = (Rejected e, db)
                /\ message e = "Student not found"
                /\ NotFound e)
  /\ (int4 x = false ->
      deleteStudent x db =
        (Rejected (query_error (count_violations_of_student x)), db)).
Proof.
  split_and!.
  - intros Hx Hexists.
    destruct (first_match _ _ Hexists) as (v & rest & Hf & _ & _).
    eexists. split.
    { unfold deleteStudent, try_catch, bind, get.
      rewrite execute_accepted by done.
      rewrite Hf. rewrite bool_decide_true by (simpl; lia). reflexivity. }
    split; reflexivity.
  - intros Hx Hexists Hnone.
    destruct (first_match _ _ Hexists) as (s & rest & Hs & _ & _).
    eexists. split.
    { unfold deleteStudent, try_catch, bind, get.
      rewrite execute_accepted by done.
      rewrite (filter_none _ _ Hnone). simpl.
      rewrite execute_accepted by done.
      simpl. rewrite Hs. reflexivity. }
    simpl. split_and!; try reflexivity.
    + apply Forall_forall. intros s' Hs'.
      by apply list_elem_of_filter in Hs' as [? _].
    + intros s' Hs'. by apply delete_keeps_others.
  - intros Hx Hfk Hmissing.
    pose proof (unknown_student_has_no_violations x db Hfk Hmissing) as Hnone.
    exists (mkError "Student not found"). split; [|split; reflexivity].
    unfold deleteStudent, try_catch, bind, get.
    rewrite execute_accepted by done.
    rewrite (filter_none _ _ Hnone). simpl.
    rewrite execute_accepted by done.
    simpl. rewrite (filter_none _ _ Hmissing). simpl.
    unfold put, throw, rethrow. f_equal.
    rewrite filter_all; [apply set_studentsTable_same|].
    eapply Forall_impl; [exact Hmissing|]. simpl. auto.
  - intros Hx. unfold deleteStudent, try_catch, bind.
    by rewrite execute_refused.
Qed.

End DeletingStudent.

Lemma deleteStudent_guard_witness :
  exists e, deleteStudent 1 sample_db = (Rejected e, sample_db)
            /\ message e = "Cannot delete student with existing violations"
            /\ mentions e "existing violations".
Proof.
  apply (deleteStudent_guard 1 sample_db).
  - reflexivity.
  - left. reflexivity.
Defined.

(** C9 as stated fails: 2147483648 is an identifier that no student of
    the sample store carries, and [deleteStudent] rejects there with an
    error that is not a NotFound error. *)
Lemma deleteStudent_out_of_range :
  foreign_keys_ok sample_db
  /\ Forall (fun s => student_id_ s <> 2147483648) (studentsTable sample_db)
  /\ exists e, deleteStudent 2147483648 sample_db = (Rejected e, sample_db)
               /\ ~ NotFound e.
Proof.
  split; [repeat constructor|].
  split; [by repeat constructor|].
  eexists. split; [reflexivity|].
  unfold NotFound, mentions. simpl. vm_compute. discriminate.
Qed.

(** ** Notification messages *)

Lemma truthy_spec x : truthy x = true <-> present x.
Proof.
  unfold present. destruct x as [[|c t]|]; simpl.
  - split; [done | intros (t & [= <-] & Ht); done].
  - split; [intros _; by eexists | done].
  - split; [done | intros (t & [=] & _)].
Qed.

Lemma contains_app_r a b t : contains b t -> contains (a ++ b) t.
Proof.
  intros (x & y & ->). exists (a ++ x), y. by rewrite append_assoc.
Qed.

Lemma contains_app_l a b t : contains a t -> contains (a ++ b) t.
Proof.
  intros (x & y & ->). exists x, (y ++ b). by rewrite !append_assoc.
Qed.

Lemma contains_self t : contains t t.
Proof. exists "", "". simpl. by rewrite append_nil_r. Qed.

Lemma startsWith_sep c a b needle :
  free_of c needle = true ->
  startsWith (a ++ String c b) needle = startsWith a needle.
Proof.
  unfold free_of. revert a.
  induction needle as [|y needle IH]; intros a Hfree; simpl; [done|].
  simpl in Hfree. apply andb_true_iff in Hfree as [Hy Hfree].
  destruct a as [|x a]; simpl.
  - apply andb_false_intro1. by apply negb_true_iff.
  - by rewrite IH.
Qed.

Lemma includes_sep c a b needle :
  free_of c needle = true ->
  includes (a ++ String c b) needle = includes a needle || includes b needle.
Proof.
  intros Hfree. induction a as [|x a IH].
  - change ("" ++ String c b) with (String c b). cbn [includes].
    rewrite <- (startsWith_sep c "" b needle Hfree). simpl.
    by rewrite orb_false_r.
  - change (String x a ++ String c b) with (String x (a ++ String c b)).
    cbn [includes]. rewrite IH.
    rewrite <- (startsWith_sep c (String x a) b needle Hfree). simpl.
    by rewrite orb_assoc.
Qed.

Lemma includes_join_lines needle (l : string) (lines : list string) :
  free_of "010" needle = true ->
  includes (join_lines (l :: lines)) needle
  = existsb (fun l => includes l needle) (l :: lines).
Proof.
  intros Hfree. revert l. induction lines as [|l' lines IH]; intros l.
  - simpl. by rewrite orb_false_r.
  - change (join_lines (l :: l' :: lines))
      with (l ++ String "010" (join_lines (l' :: lines))).
    rewrite includes_sep by done. rewrite IH. reflexivity.
Qed.

Lemma violationMessage_lines formatDate formatTime violation student :
  violationMessage formatDate formatTime violation student
  = join_lines (message_lines formatDate formatTime violation student).
Proof.
  unfold violationMessage, message_lines, nl.
  destruct (truthy (description violation)),
           (truthy (photo_url violation));
    rewrite ?append_assoc; reflexivity.
Qed.

Ltac case_includes :=
  repeat match goal with
         | |- context [includes ?t ?n] =>
             destruct (includes t n); simpl; try reflexivity
         end.

Lemma falsy_text x : truthy x = false -> nullish x "" = "".
Proof. by destruct x as [[|c t]|]. Qed.

Lemma keterangan_in_message formatDate formatTime violation student :
  includes (violationMessage formatDate formatTime violation student)
    "Keterangan:"
  = truthy (description violation)
    || existsb (fun t => includes t "Keterangan:")
         (interpolated formatDate formatTime violation student
          ++ [nullish (photo_url violation) ""]).
Proof.
  rewrite violationMessage_lines. unfold message_lines, interpolated.
  destruct (truthy (description violation)) eqn:Hd,
           (truthy (photo_url violation)) eqn:Hp;
    rewrite ?(falsy_text _ Hd), ?(falsy_text _ Hp);
    cbn [app]; rewrite includes_join_lines by reflexivity;
    simpl; case_includes.
Qed.

Lemma bukti_foto_in_message formatDate formatTime violation student :
  includes (violationMessage formatDate formatTime violation student)
    "Bukti foto:"
  = truthy (photo_url violation)
    || existsb (fun t => includes t "Bukti foto:")
         (interpolated formatDate formatTime violation student
          ++ [nullish (description violation) ""]).
Proof.
  rewrite violationMessage_lines. unfold message_lines, interpolated.
  destruct (truthy (description violation)) eqn:Hd,
           (truthy (photo_url violation)) eqn:Hp;
    rewrite ?(falsy_text _ Hd), ?(falsy_text _ Hp);
    cbn [app]; rewrite includes_join_lines by reflexivity;
    simpl; case_includes.
Qed.

Lemma existsb_includes_none needle (texts : list string) :
  Forall (fun t => ~ contains t needle) texts ->
  existsb (fun t => includes t needle) texts = false.
Proof.
  induction 1 as [|t texts Ht _ IH]; simpl; [done|].
  apply includes_false_spec in Ht. by rewrite Ht, IH.
Qed.

Lemma description_line formatDate formatTime violation student d :
  description violation = Some d -> d <> "" ->
  contains (violationMessage formatDate formatTime violation student)
    ("Keterangan: " ++ d).
Proof.
  intros Hd Hne. unfold violationMessage. rewrite Hd.
  destruct d as [|c d]; [done|]. cbn [truthy nullish].
  destruct (truthy (photo_url violation)).
  - apply contains_app_l, contains_app_l, contains_app_r, contains_app_r.
    apply contains_self.
  - apply contains_app_l, contains_app_r, contains_app_r, contains_self.
Qed.

Lemma photo_line formatDate formatTime violation student p :
  photo_url violation = Some p -> p <> "" ->
  contains (violationMessage formatDate formatTime violation student)
    ("Bukti foto: " ++ p).
Proof.
  intros Hp Hne. unfold violationMessage. rewrite Hp.
  destruct p as [|c p]; [done|]. cbn [truthy nullish].
  apply contains_app_l, contains_app_r, contains_app_r, contains_app_r.
  apply contains_self.
Qed.

Lemma joined_row_of_violation db violation :
  primary_key_ok db ->
  foreign_keys_ok db ->
  violation ∈ violationsTable db ->
  exists student,
    joined_row (id violation) db = [(violation, student)]
    /\ student ∈ studentsTable db
    /\ student_id_ student = student_id violation.
Proof.
  intros Hpk Hfk Hin.
  assert (Hexists : Exists (fun v => id v = id violation) (violationsTable db))
    by (apply Exists_exists; eauto).
  destruct (first_match _ _ Hexists) as (e0 & vrest & Hf & Hid0 & Hin0).
  assert (e0 = violation) as -> by by apply (primary_key_unique db).
  unfold foreign_keys_ok in Hfk. rewrite Forall_forall in Hfk.
  assert (Hstudent : Exists (fun s => student_id violation = student_id_ s)
                       (studentsTable db)).
  { eapply Exists_impl; [apply (Hfk violation Hin)|]. simpl. auto. }
  destruct (first_match _ _ Hstudent) as (s & srest & Hs & Hsid & Hsin).
  exists s. split_and!; [|done|done].
  unfold joined_row. rewrite Hf. simpl. by rewrite Hs.
Qed.

Section Messages.

Context `{!Driver}.

(** C5 (amended). For a stored violation, [generateViolationMessage]
    resolves to a message in which a present description [d] appears as
    the line [Keterangan: d] and a present photo link [p] as the line
    [Bukti foto: p]. When none of the other interpolated texts (student
    name, class, NISN, formatted date and time, violation type, location,
    and the other optional text) contains the label itself, the message
    contains [Keterangan:] exactly when the description is present, and
    [Bukti foto:] exactly when the photo link is present. *)
Theorem generateViolationMessage_optional_lines
    (formatDate formatTime : Date -> string)
    (db : Database) (violation : Violation) :
  primary_key_ok db ->
  foreign_keys_ok db ->
  violation ∈ violationsTable db ->
  exists student message,
    student ∈ studentsTable db
    /\ student_id_ student = student_id violation
    /\ generateViolationMessage formatDate formatTime (id violation) db
       = (Resolved message, db)
    /\ (forall d, description violation = Some d -> d <> "" ->
          contains message ("Keterangan: " ++ d)
          /\ contains message "Keterangan:" /\ contains message d)
    /\ (forall p, photo_url violation = Some p -> p <> "" ->
          contains message ("Bukti foto: " ++ p)
          /\ contains message "Bukti foto:" /\ contains message p)
    /\ (Forall (fun t => ~ contains t "Keterangan:")
          (interpolated formatDate formatTime violation student
           ++ [nullish (photo_url violation) ""]) ->
        (contains message "Keterangan:" <-> present (description violation)))
    /\ (Forall (fun t => ~ contains t "Bukti foto:")
          (interpolated formatDate formatTime violation student
           ++ [nullish (description violation) ""]) ->
        (contains message "Bukti foto:" <-> present (photo_url violation))).
Proof.
  intros Hpk Hfk Hin.
  destruct (joined_row_of_violation db violation Hpk Hfk Hin)
    as (student & Hrow & Hstudent & Hsid).
  exists student, (violationMessage formatDate formatTime violation student).
  split_and!; [done|done|..].
  - unfold generateViolationMessage, try_catch, bind, get.
    rewrite execute_accepted by (by apply (primary_key_int4 db)).
    by rewrite Hrow.
  - intros d Hd Hne.
    pose proof (description_line formatDate formatTime _ student d Hd Hne)
      as (a & b & Hm).
    rewrite Hm. split_and!.
    + apply contains_app_r, contains_app_l, contains_self.
    + apply contains_app_r, contains_app_l.
      apply (contains_app_l "Keterangan:" (" " ++ d)), contains_self.
    + apply contains_app_r, contains_app_l.
      apply (contains_app_r "Keterangan: " d), contains_self.
  - intros p Hp Hne.
    pose proof (photo_line formatDate formatTime violation student p Hp Hne)
      as (a & b & Hm).
    rewrite Hm. split_and!.
    + apply contains_app_r, contains_app_l, contains_self.
    + apply contains_app_r, contains_app_l.
      apply (contains_app_l "Bukti foto:" (" " ++ p)), contains_self.
    + apply contains_app_r, contains_app_l.
      apply (contains_app_r "Bukti foto: " p), contains_self.
  - intros Hother.
    rewrite <- includes_spec, <- truthy_spec, keterangan_in_message.
    by rewrite (existsb_includes_none _ _ Hother), orb_false_r.
  - intros Hother.
    rewrite <- includes_spec, <- truthy_spec, bukti_foto_in_message.
    by rewrite (existsb_includes_none _ _ Hother), orb_false_r.
Qed.

End Messages.

Lemma generateViolationMessage_optional_lines_witness :
  exists message,
    generateViolationMessage sample_formatDate sample_formatTime 3 message_db
      = (Resolved message, message_db)
    /\ contains message "Keterangan: Terlambat 15 menit"
    /\ contains message "Bukti foto: /uploads/photos/1_bukti.jpeg"
    /\ (contains message "Keterangan:" <-> present (description lengkap))
    /\ (contains message "Bukti foto:" <-> present (photo_url lengkap)).
Proof.
  destruct (generateViolationMessage_optional_lines
              sample_formatDate sample_formatTime message_db lengkap)
    as (student & message & Hstudent & _ & Hmessage & Hd & Hp & Hk & Hb).
  - unfold primary_key_ok. by apply (bool_decide_unpack _).
  - unfold foreign_keys_ok. by apply (bool_decide_unpack _).
  - simpl. repeat constructor.
  - apply list_elem_of_singleton in Hstudent as ->.
    exists message. split_and!.
    + exact Hmessage.
    + apply (Hd "Terlambat 15 menit"); [reflexivity | discriminate].
    + apply (Hp "/uploads/photos/1_bukti.jpeg"); [reflexivity | discriminate].
    + apply Hk. apply Forall_forall. intros t Ht.
      apply includes_false_spec.
      repeat (apply elem_of_cons in Ht as [->|Ht]; [reflexivity|]).
      by apply elem_of_nil in Ht.
    + apply Hb. apply Forall_forall. intros t Ht.
      apply includes_false_spec.
      repeat (apply elem_of_cons in Ht as [->|Ht]; [reflexivity|]).
      by apply elem_of_nil in Ht.
Defined.

(** C5 as stated fails: a violation without a description whose location
    text reads [Keterangan: lihat papan] yields a message that contains
    [Keterangan:]. *)
Lemma generateViolationMessage_label_in_location :
  description di_keterangan = None
  /\ exists message,
       generateViolationMessage sample_formatDate sample_formatTime 2
         message_db = (Resolved message, message_db)
       /\ includes message "Keterangan:" = true
       /\ contains message "Keterangan:".
Proof.
  split; [reflexivity|]. eexists. split; [reflexivity|].
  assert (H : includes
                (violationMessage sample_formatDate sample_formatTime
                   di_keterangan budi) "Keterangan:" = true)
    by (vm_compute; reflexivity).
  split; [exact H | by apply includes_spec].
Qed.


(** ** Photo validation *)

Lemma strip_prefix_spec p s r : strip_prefix p s = Some r <-> s = p ++ r.
Proof.
  revert s. induction p as [|a p IH]; intros s; simpl.
  - split; [by intros [= ->] | by intros ->].
  - destruct s as [|b s]; [split; intros H; discriminate H|].
    destruct (Ascii.eqb_spec a b) as [->|Hab].
    + rewrite IH. split; [by intros -> | by intros [= ->]].
    + split; [intros H; discriminate H | intros [= H _]; by symmetry in H].
Qed.

Lemma span_stop p run c rest :
  every p run = true -> p c = false ->
  span p (run ++ String c rest) = (run, String c rest).
Proof.
  intros Hrun Hc. induction run as [|x run IH]; simpl in *.
  - by rewrite Hc.
  - apply andb_true_iff in Hrun as [Hx Hrun]. by rewrite Hx, IH.
Qed.

Lemma span_all p run : every p run = true -> span p run = (run, "").
Proof.
  induction run as [|x run IH]; simpl; [done|].
  intros [Hx Hrun]%andb_true_iff. by rewrite Hx, IH.
Qed.

Lemma span_sound p s run rest :
  span p s = (run, rest) ->
  s = run ++ rest
  /\ every p run = true
  /\ (rest = "" \/ exists c r, rest = String c r /\ p c = false).
Proof.
  revert run rest. induction s as [|x s IH]; intros run rest; simpl.
  - intros [= <- <-]. auto.
  - destruct (p x) eqn:Hx.
    + destruct (span p s) as [run' rest'] eqn:Hs. intros [= <- <-].
      destruct (IH _ _ eq_refl) as (-> & Hrun & Hrest).
      simpl. rewrite Hx. auto.
    + intros [= <- <-]. split_and!; [done|done|]. right. eauto.
Qed.

Lemma match_data_url_spec s fmt payload :
  match_data_url s = Some (fmt, payload) <-> data_url s fmt payload.
Proof.
  unfold match_data_url, data_url. split.
  - destruct (strip_prefix "data:image/" s) as [after|] eqn:Hs; [|done].
    apply strip_prefix_spec in Hs as ->.
    destruct (span word_char after) as [run rest] eqn:Hspan.
    apply span_sound in Hspan as (-> & Hrun & _).
    destruct run as [|c run]; [done|].
    destruct (strip_prefix ";base64," rest) as [pl|] eqn:Hp; [|done].
    apply strip_prefix_spec in Hp as ->.
    intros [= <- <-]. split_and!; [reflexivity | done | done].
  - intros (-> & Hne & Hword).
    assert (strip_prefix "data:image/" ("data:image/" ++ fmt ++ ";base64," ++ payload)
            = Some (fmt ++ ";base64," ++ payload)) as ->
      by (by apply strip_prefix_spec).
    change (";base64," ++ payload) with (String ";" ("base64," ++ payload)).
    rewrite span_stop by done.
    destruct fmt as [|c fmt]; [done|].
    change (String ";" ("base64," ++ payload)) with (";base64," ++ payload).
    assert (strip_prefix ";base64," (";base64," ++ payload) = Some payload) as ->
      by (by apply strip_prefix_spec).
    done.
Qed.

Lemma match_data_url_none s :
  match_data_url s = None <-> forall fmt payload, ~ data_url s fmt payload.
Proof.
  split.
  - intros Hnone fmt payload Hd. apply match_data_url_spec in Hd. congruence.
  - intros Hno. destruct (match_data_url s) as [[fmt payload]|] eqn:Hm; [|done].
    apply match_data_url_spec in Hm. by apply Hno in Hm.
Qed.

Lemma base64_test_spec s : base64_test s = true <-> base64_text s.
Proof.
  unfold base64_test, base64_text. split.
  - destruct (span Base64.alphabet s) as [run rest] eqn:Hspan.
    apply span_sound in Hspan as (-> & Hrun & _).
    rewrite !orb_true_iff, !String.eqb_eq. intros Hpad.
    exists run, rest. split_and!; [done|done|tauto].
  - intros (body & pad & -> & Hbody & [->|[->| ->]]).
    + rewrite append_nil_r, span_all by done. reflexivity.
    + change "=" with (String "="%char ""). rewrite span_stop by done.
      reflexivity.
    + change "==" with (String "="%char "="). rewrite span_stop by done.
      reflexivity.
Qed.

Lemma low_seven_bits x : 0 <= Z.land x 127 < 128.
Proof.
  change 127 with (Z.ones 7). rewrite Z.land_ones by lia.
  apply Z.mod_pos_bound. lia.
Qed.

Lemma ascii_of_low_bits x c :
  ascii_of_nat (Z.to_nat (Z.land x 127)) = c <->
  Z.land x 127 = Z.of_nat (nat_of_ascii c).
Proof.
  pose proof (low_seven_bits x) as Hx. split.
  - intros <-. rewrite nat_ascii_embedding by lia. lia.
  - intros ->. by rewrite Nat2Z.id, ascii_nat_embedding.
Qed.

Lemma toString_ascii_spec (b : Buffer) (s : string) :
  toString_ascii b = s <->
  map (fun x => Z.land x 127) b
  = map (fun c => Z.of_nat (nat_of_ascii c)) (list_ascii_of_string s).
Proof.
  unfold toString_ascii. revert s.
  induction b as [|x b IH]; intros [|c s]; simpl; try (split; discriminate).
  - done.
  - split.
    + intros [= Hc Hs]. apply ascii_of_low_bits in Hc. apply IH in Hs.
      congruence.
    + intros [= Hc Hs]. apply ascii_of_low_bits in Hc. apply IH in Hs.
      congruence.
Qed.

Section EightBytes.

Context (b0 b1 b2 b3 b4 b5 b6 b7 : Z) (rest : Buffer).

Lemma long_enough :
  bool_decide
    (length (b0 :: b1 :: b2 :: b3 :: b4 :: b5 :: b6 :: b7 :: rest) < 8)%nat
  = false.
Proof. apply bool_decide_eq_false. simpl. lia. Qed.

Lemma validateImageHeader_jpeg :
  validateImageHeader (b0 :: b1 :: b2 :: b3 :: b4 :: b5 :: b6 :: b7 :: rest)
    "jpeg"
  = Z.eqb b0 255 && Z.eqb b1 216 && Z.eqb b2 255.
Proof. unfold validateImageHeader. rewrite long_enough. reflexivity. Qed.

Lemma validateImageHeader_jpg :
  validateImageHeader (b0 :: b1 :: b2 :: b3 :: b4 :: b5 :: b6 :: b7 :: rest)
    "jpg"
  = Z.eqb b0 255 && Z.eqb b1 216 && Z.eqb b2 255.
Proof. unfold validateImageHeader. rewrite long_enough. reflexivity. Qed.

Lemma validateImageHeader_png :
  validateImageHeader (b0 :: b1 :: b2 :: b3 :: b4 :: b5 :: b6 :: b7 :: rest)
    "png"
  = Z.eqb b0 137 && Z.eqb b1 80 && Z.eqb b2 78 && Z.eqb b3 71
    && Z.eqb b4 13 && Z.eqb b5 10 && Z.eqb b6 26 && Z.eqb b7 10.
Proof. unfold validateImageHeader. rewrite long_enough. reflexivity. Qed.

Lemma validateImageHeader_gif :
  validateImageHeader (b0 :: b1 :: b2 :: b3 :: b4 :: b5 :: b6 :: b7 :: rest)
    "gif"
  = String.eqb (toString_ascii [b0; b1; b2; b3; b4; b5]) "GIF87a"
    || String.eqb (toString_ascii [b0; b1; b2; b3; b4; b5]) "GIF89a".
Proof. unfold validateImageHeader. rewrite long_enough. reflexivity. Qed.

End EightBytes.

Lemma validateImageHeader_spec (fmt : string) (b : Buffer) :
  fmt ∈ ALLOWED_FORMATS ->
  validateImageHeader b fmt = true <-> header_ok fmt b.
Proof.
  unfold ALLOWED_FORMATS. rewrite !elem_of_cons, elem_of_nil.
  intros Hfmt.
  destruct (decide (length b < 8)%nat) as [Hshort|Hlong].
  { unfold validateImageHeader, header_ok.
    rewrite bool_decide_true by done. split; [discriminate | lia]. }
  destruct b as [|b0 [|b1 [|b2 [|b3 [|b4 [|b5 [|b6 [|b7 rest]]]]]]]];
    simpl in Hlong; try lia.
  unfold header_ok.
  assert (H8 : (8 <= length (b0 :: b1 :: b2 :: b3 :: b4 :: b5 :: b6 :: b7
                              :: rest))%nat) by (simpl; lia).
  destruct Hfmt as [->|[->|[->|[->|[]]]]].
  - rewrite validateImageHeader_jpeg, !andb_true_iff, !Z.eqb_eq.
    cbn [take]. split.
    + intros [[-> ->] ->]. split; [done|]. left. split; [by left | done].
    + intros [_ [[_ [= -> -> ->]]|[[[=] _]|[[=] _]]]]. done.
  - rewrite validateImageHeader_jpg, !andb_true_iff, !Z.eqb_eq.
    cbn [take]. split.
    + intros [[-> ->] ->]. split; [done|]. left. split; [by right | done].
    + intros [_ [[_ [= -> -> ->]]|[[[=] _]|[[=] _]]]]. done.
  - rewrite validateImageHeader_png, !andb_true_iff, !Z.eqb_eq.
    cbn [take]. split.
    + intros [[[[[[[-> ->] ->] ->] ->] ->] ->] ->].
      split; [done|]. right; left. done.
    + intros [_ [[[[=]|[=]] _]|[[_ [= -> -> -> -> -> -> -> ->]]|[[=] _]]]].
      done.
  - rewrite validateImageHeader_gif, orb_true_iff, !String.eqb_eq,
      !toString_ascii_spec.
    cbn [take]. split.
    + intros H. split; [done|]. right; right. done.
    + intros [_ [[[[=]|[=]] _]|[[[=] _]|[_ H]]]]. done.
Qed.

Lemma validatePhotoFormat_data_url s fmt payload :
  data_url s fmt payload ->
  validatePhotoFormat s =
    if negb (bool_decide (toLowerCase fmt ∈ ALLOWED_FORMATS)) then
      invalid ("Unsupported image format: " ++ toLowerCase fmt
               ++ ". Allowed formats: jpeg, jpg, png, gif")
    else if negb (String.eqb payload "") && negb (base64_test payload) then
      invalid "Invalid base64 encoding"
    else if bool_decide (MAX_FILE_SIZE
                         < Z.of_nat (length (Base64.decode payload))) then
      invalid "File size exceeds maximum limit of 5MB"
    else if negb (validateImageHeader (Base64.decode payload)
                    (toLowerCase fmt)) then
      invalid "File does not appear to be a valid image"
    else {| valid := true; format := Some (toLowerCase fmt);
            validation_error := None |}.
Proof.
  intros Hurl. apply match_data_url_spec in Hurl.
  unfold validatePhotoFormat, strip_data_url_header. rewrite Hurl.
  reflexivity.
Qed.

Lemma base64_text_empty : base64_text "".
Proof. exists "", "". auto. Qed.

(** C6 (amended). [validatePhotoFormat] sorts every string into exactly
    one of six outcomes. A string that is not of the form
    [data:image/<fmt>;base64,<payload>] is invalid with [Invalid base64
    image data format]. Otherwise, with [<fmt>] put in lower case: a format
    outside jpeg, jpg, png, gif is invalid with [Unsupported image
    format: ...]; a payload that is not base64 text is invalid with
    [Invalid base64 encoding]; a decoded payload of more than 5 MiB is
    invalid with [File size exceeds maximum limit of 5MB]; decoded bytes
    that are fewer than eight or do not begin with the signature of the
    format are invalid with [File does not appear to be a valid image];
    anything else is valid with the lower-case format. *)
Theorem validatePhotoFormat_classes (fileData : string) :
  ((forall fmt payload, ~ data_url fileData fmt payload) ->
   validatePhotoFormat fileData = invalid "Invalid base64 image data format")
  /\ (forall fmt payload,
        data_url fileData fmt payload ->
        (toLowerCase fmt ∉ ALLOWED_FORMATS ->
         validatePhotoFormat fileData =
           invalid ("Unsupported image format: " ++ toLowerCase fmt
                    ++ ". Allowed formats: jpeg, jpg, png, gif"))
        /\ (toLowerCase fmt ∈ ALLOWED_FORMATS ->
            (~ base64_text payload ->
             validatePhotoFormat fileData = invalid "Invalid base64 encoding")
            /\ (base64_text payload ->
                (MAX_FILE_SIZE < Z.of_nat (length (Base64.decode payload)) ->
                 validatePhotoFormat fileData =
                   invalid "File size exceeds maximum limit of 5MB")
                /\ (Z.of_nat (length (Base64.decode payload)) <= MAX_FILE_SIZE ->
                    (~ header_ok (toLowerCase fmt) (Base64.decode payload) ->
                     validatePhotoFormat fileData =
                       invalid "File does not appear to be a valid image")
                    /\ (header_ok (toLowerCase fmt) (Base64.decode payload) ->
                        validatePhotoFormat fileData =
                          {| valid := true;
                             format := Some (toLowerCase fmt);
                             validation_error := None |}))))).
Proof.
  split.
  - intros Hno. apply match_data_url_none in Hno.
    unfold validatePhotoFormat. by rewrite Hno.
  - intros fmt payload Hurl.
    rewrite (validatePhotoFormat_data_url _ _ _ Hurl). split.
    + intros Hout. by rewrite bool_decide_false.
    + intros Hin. rewrite bool_decide_true by done. simpl negb. cbv iota.
      split.
      * intros Hbad.
        assert (base64_test payload = false) as ->.
        { apply not_true_is_false. by rewrite base64_test_spec. }
        assert (String.eqb payload "" = false) as ->.
        { apply String.eqb_neq. intros ->. apply Hbad, base64_text_empty. }
        reflexivity.
      * intros Htext. apply base64_test_spec in Htext. rewrite Htext.
        rewrite andb_false_r. split.
        -- intros Hbig. by rewrite bool_decide_true.
        -- intros Hsmall. rewrite bool_decide_false by lia. split.
           ++ intros Hhdr.
              assert (validateImageHeader (Base64.decode payload)
                        (toLowerCase fmt) = false) as ->.
              { apply not_true_is_false.
                by rewrite validateImageHeader_spec. }
              reflexivity.
           ++ intros Hhdr. apply validateImageHeader_spec in Hhdr; [|done].
              by rewrite Hhdr.
Qed.

Lemma validatePhotoFormat_classes_witness :
  validatePhotoFormat gif_photo =
    {| valid := true; format := Some (toLowerCase "gif");
       validation_error := None |}.
Proof.
  destruct (validatePhotoFormat_classes gif_photo) as [_ Hform].
  destruct (Hform "gif"
              "R0lGODlhAQABAIAAAAAAAP///yH5BAEAAAAALAAAAAABAAEAAAIBRAA7")
    as [_ Hallowed].
  { split_and!; [reflexivity | discriminate | reflexivity]. }
  destruct Hallowed as [_ Htext].
  { vm_compute. do 3 right. left. }
  destruct Htext as [_ Hsmall].
  { exists "R0lGODlhAQABAIAAAAAAAP///yH5BAEAAAAALAAAAAABAAEAAAIBRAA7", "".
    split_and!; [reflexivity | reflexivity | by left]. }
  destruct Hsmall as [_ Hheader].
  { vm_compute. discriminate. }
  apply Hheader.
  split; [vm_compute; lia|]. right; right. split; [reflexivity|].
  right. reflexivity.
Defined.

(** C6 as stated fails on three kinds of input: a payload outside the
    base64 alphabet gets an error of its own instead of the corrupt-header
    one; the format name is compared in lower case, so [PNG] is accepted;
    and bytes that do begin with the signature are still rejected when
    there are fewer than eight of them. *)
Lemma validatePhotoFormat_outside_stated_classes :
  (classify (validatePhotoFormat "data:image/jpeg;base64,!!!!") = OtherFailure
   /\ validation_error (validatePhotoFormat "data:image/jpeg;base64,!!!!")
      = Some "Invalid base64 encoding"
   /\ stated_class "data:image/jpeg;base64,!!!!" = CorruptHeader)
  /\ (classify (validatePhotoFormat
        "data:image/PNG;base64,iVBORw0KGgoAAAANSUhEUgAAAAEAAAAB")
      = Accepted "png"
      /\ stated_class "data:image/PNG;base64,iVBORw0KGgoAAAANSUhEUgAAAAEAAAAB"
         = UnsupportedFormat)
  /\ (Base64.decode "/9j/4AAQ" = [255; 216; 255; 224; 0; 16]
      /\ classify (validatePhotoFormat "data:image/jpeg;base64,/9j/4AAQ")
         = CorruptHeader
      /\ stated_class "data:image/jpeg;base64,/9j/4AAQ" = Accepted "jpeg").
Proof. vm_compute. repeat split. Qed.

(** ** An oversized photo *)

Lemma decode_group_of_zeros s :
  Base64.decode ("AAAA" ++ s) = 0 :: 0 :: 0 :: Base64.decode s.
Proof. reflexivity. Qed.

Lemma groups_of_zeros (n : nat) :
  length (Base64.decode (Nat.iter n (String.append "AAAA") "")) = (3 * n)%nat
  /\ every Base64.alphabet (Nat.iter n (String.append "AAAA") "") = true.
Proof.
  induction n as [|n [IHlen IHtext]]; [done|].
  change (Nat.iter (S n) (String.append "AAAA") "")
    with ("AAAA" ++ Nat.iter n (String.append "AAAA") "").
  rewrite decode_group_of_zeros. split.
  - cbn [length]. rewrite IHlen. lia.
  - change ("AAAA" ++ ?s) with (String "A" (String "A" (String "A" (String "A" s)))).
    cbn [every]. by rewrite IHtext.
Qed.

Lemma oversized_payload_decoded :
  length (Base64.decode oversized_payload) = (3 * Pos.to_nat 1747627)%nat
  /\ every Base64.alphabet oversized_payload = true.
Proof.
  unfold oversized_payload. rewrite Pos2Nat.inj_iter.
  apply groups_of_zeros.
Qed.

Lemma too_large_jpeg payload :
  every Base64.alphabet payload = true ->
  MAX_FILE_SIZE < Z.of_nat (length (Base64.decode payload)) ->
  validatePhotoFormat ("data:image/jpeg;base64," ++ payload)
  = invalid "File size exceeds maximum limit of 5MB".
Proof.
  intros Htext Hlen.
  rewrite (validatePhotoFormat_data_url _ "jpeg" payload)
    by (split_and!; [reflexivity | discriminate | reflexivity]).
  assert (base64_test payload = true) as ->.
  { apply base64_test_spec. exists payload, "". rewrite append_nil_r. auto. }
  rewrite andb_false_r, (bool_decide_true _ Hlen). reflexivity.
Qed.

Lemma oversized_photo :
  validatePhotoFormat ("data:image/jpeg;base64," ++ oversized_payload)
  = invalid "File size exceeds maximum limit of 5MB".
Proof.
  destruct oversized_payload_decoded as [Hlen Htext].
  apply too_large_jpeg; [exact Htext|].
  rewrite Hlen. unfold MAX_FILE_SIZE.
  rewrite Nat2Z.inj_mul, positive_nat_Z. lia.
Qed.

(** ** The photo store *)

Section PhotoLookup.

Context (FileSystem : Type)
  (join : string -> string -> string)
  (existsSync : string -> FileSystem -> bool)
  (readFile : string -> Async FileSystem Buffer)
  (unlink : string -> Async FileSystem unit).

Lemma traversal_spec fileName :
  traversal fileName = true <->
  contains fileName ".." \/ contains fileName "/" \/ contains fileName "\".
Proof.
  unfold traversal. rewrite !orb_true_iff, !includes_spec. tauto.
Qed.

(** C7. For a file name that contains [..], [/] or [\], [getPhoto]
    resolves to null and [deletePhoto] rejects with [Invalid filename],
    both before the file system is touched. For any other file name whose
    path does not exist, [getPhoto] resolves to null and [deletePhoto]
    resolves, the file system unchanged. [getPhoto] never rejects, and
    [deletePhoto] never rejects on a name without those characters. *)
Theorem photo_names (fileName : string) (fs : FileSystem) :
  (contains fileName ".." \/ contains fileName "/" \/ contains fileName "\" ->
   getPhoto FileSystem join existsSync readFile fileName fs
     = (Resolved None, fs)
   /\ exists e,
        deletePhoto FileSystem join existsSync unlink fileName fs
          = (Rejected e, fs)
        /\ message e = "Invalid filename"
        /\ mentions e "Invalid")
  /\ (~ (contains fileName ".." \/ contains fileName "/"
         \/ contains fileName "\") ->
      (existsSync (join UPLOAD_DIR fileName) fs = false ->
       getPhoto FileSystem join existsSync readFile fileName fs
         = (Resolved None, fs)
       /\ deletePhoto FileSystem join existsSync unlink fileName fs
          = (Resolved tt, fs))
      /\ exists fs',
           deletePhoto FileSystem join existsSync unlink fileName fs
             = (Resolved tt, fs'))
  /\ (exists r fs',
        getPhoto FileSystem join existsSync readFile fileName fs
          = (Resolved r, fs')).
Proof.
  split_and!.
  - intros Hbad. apply traversal_spec in Hbad.
    unfold getPhoto, deletePhoto, try_catch. rewrite Hbad. simpl.
    split; [reflexivity|]. eexists. split; [reflexivity|]. split; reflexivity.
  - intros Hgood. rewrite <- traversal_spec in Hgood.
    apply not_true_is_false in Hgood.
    unfold getPhoto, deletePhoto, try_catch, bind, get. rewrite Hgood.
    split.
    + intros Habsent. rewrite Habsent. simpl. split; reflexivity.
    + destruct (existsSync (join UPLOAD_DIR fileName) fs); simpl; [|by eexists].
      destruct (unlink (join UPLOAD_DIR fileName) fs) as [[[]|e] fs'];
        by eexists.
  - unfold getPhoto, try_catch, bind, get.
    destruct (traversal fileName); simpl; [by eexists _, _|].
    destruct (existsSync (join UPLOAD_DIR fileName) fs); simpl;
      [|by eexists _, _].
    destruct (readFile (join UPLOAD_DIR fileName) fs) as [[b|e] fs'];
      by eexists _, _.
Qed.

End PhotoLookup.

Section PhotoUpload.

Context (FileSystem : Type)
  (join : string -> string -> string)
  (existsSync : string -> FileSystem -> bool)
  (mkdir_recursive : string -> Async FileSystem unit)
  (writeFile : string -> Buffer -> Async FileSystem unit).

(** The name under which a resolved upload stores the photo. *)
Lemma uploadPhoto_fileName timestamp input fs r :
  fst (uploadPhoto FileSystem join existsSync mkdir_recursive writeFile
         timestamp input fs) = Resolved r ->
  fileName r =
    string_of_Z timestamp
    ++ ("_" ++ file_name input ++ "."
        ++ match format (validatePhotoFormat (file_data input)) with
           | Some (String c f) => String c f
           | _ => "jpg"
           end).
Proof.
  unfold uploadPhoto, try_catch, bind, rethrow, throw, ret.
  destruct (valid (validatePhotoFormat (file_data input))); simpl;
    [|intros [=]].
  destruct (ensureUploadDir _ _ _ fs) as [[[]|e] fs1]; [|intros [=]].
  case_bool_decide; [intros [=]|].
  destruct (writeFile _ _ fs1) as [[[]|e] fs2]; [|intros [=]].
  intros [= <-]. reflexivity.
Qed.

(** X27. Two resolved uploads return distinct file names whenever
    their [Date.now()] readings differ, whatever their inputs and the
    file systems they run on. *)
Theorem uploadPhoto_fileName_distinct
    (t1 t2 : Z) (input1 input2 : UploadPhotoInput)
    (fs1 fs2 : FileSystem) (r1 r2 : UploadResult) :
  fst (uploadPhoto FileSystem join existsSync mkdir_recursive writeFile
         t1 input1 fs1) = Resolved r1 ->
  fst (uploadPhoto FileSystem join existsSync mkdir_recursive writeFile
         t2 input2 fs2) = Resolved r2 ->
  t1 <> t2 ->
  fileName r1 <> fileName r2.
Proof.
  intros H1 H2 Hne Heq.
  apply uploadPhoto_fileName in H1, H2. rewrite H1, H2 in Heq.
  apply Hne, string_of_Z_inj.
  apply (split_at_separator "_" _ _ _ _
           (string_of_Z_no_underscore t1) (string_of_Z_no_underscore t2)
           Heq).
Qed.

End PhotoUpload.

Lemma photo_names_witness :
  MemFs.getPhoto "../../../etc/passwd" ∅ = (Resolved None, ∅)
  /\ exists e,
       MemFs.deletePhoto "../../../etc/passwd" ∅ = (Rejected e, ∅)
       /\ message e = "Invalid filename"
       /\ mentions e "Invalid".
Proof.
  apply (photo_names MemFs.FileSystem MemFs.join MemFs.existsSync
           MemFs.readFile MemFs.unlink "../../../etc/passwd" ∅).
  left. exists "", "/../../etc/passwd". reflexivity.
Defined.

Lemma uploadPhoto_fileName_distinct_witness :
  1000 <> 1010
  /\ fileName {| url := "/uploads/photos/1000_test_photo.gif";
                 fileName := "1000_test_photo.gif" |}
     <> fileName {| url := "/uploads/photos/1010_test_photo.gif";
                    fileName := "1010_test_photo.gif" |}.
Proof.
  split; [lia|].
  apply (uploadPhoto_fileName_distinct MemFs.FileSystem MemFs.join
           MemFs.existsSync MemFs.mkdir_recursive MemFs.writeFile
           1000 1010 test_upload test_upload ∅ ∅
           {| url := "/uploads/photos/1000_test_photo.gif";
              fileName := "1000_test_photo.gif" |}
           {| url := "/uploads/photos/1010_test_photo.gif";
              fileName := "1010_test_photo.gif" |}).
  - vm_compute. reflexivity.
  - vm_compute. reflexivity.
  - lia.
Defined.

(** C8. The file name that [uploadPhoto] generates is made of the
    [Date.now()] reading and of the input, and of nothing else: two
    uploads of the same input whose readings coincide both resolve and
    return the same file name, and the second writes over the file of
    the first, so that one file is stored after the two uploads. *)
Theorem uploadPhoto_same_millisecond :
  exists r1 r2,
    fst (MemFs.uploadPhoto 1000 test_upload ∅) = Resolved r1
    /\ fst (MemFs.uploadPhoto 1000 test_upload
              (snd (MemFs.uploadPhoto 1000 test_upload ∅))) = Resolved r2
    /\ fileName r1 = "1000_test_photo.gif"
    /\ fileName r2 = "1000_test_photo.gif"
    /\ snd (MemFs.uploadPhoto 1000 test_upload
              (snd (MemFs.uploadPhoto 1000 test_upload ∅)))
       = snd (MemFs.uploadPhoto 1000 test_upload ∅).
Proof.
  exists {| url := "/uploads/photos/1000_test_photo.gif";
            fileName := "1000_test_photo.gif" |},
         {| url := "/uploads/photos/1000_test_photo.gif";
            fileName := "1000_test_photo.gif" |}.
  split; [vm_compute; reflexivity|].
  split; [vm_compute; reflexivity|].
  split; [reflexivity|].
  split; [reflexivity|].
  vm_compute. reflexivity.
Qed.

(** * Further properties *)

(** ** Looking a violation up *)

Section Lookup.

Context `{!Driver}.

Lemma getViolationById_head x db :
  getViolationById x db =
    if int4 x
    then (Resolved (head (filter (fun v => id v = x) (violationsTable db))), db)
    else (Rejected (query_error (select_violation x)), db).
Proof.
  unfold getViolationById, try_catch, bind, get, ret, execute.
  change (accepted (select_violation x)) with (int4 x).
  destruct (int4 x); [|reflexivity].
  unfold ret. simpl.
  by destruct (filter (fun v => id v = x) (violationsTable db)).
Qed.

(** X1. [getViolationById] never writes. On an identifier within the
    32-bit integers it resolves: to null exactly when no stored
    violation carries the identifier; otherwise to a stored violation
    with that identifier, and under the primary key to the one there
    is. An identifier outside the 32-bit integers is refused by the
    store, and the call rejects with the error of the driver. *)
Theorem getViolationById_lookup (x : Z) (db : Database) :
  (int4 x = true ->
   exists r,
     getViolationById x db = (Resolved r, db)
     /\ (r = None <-> Forall (fun v => id v <> x) (violationsTable db))
     /\ (forall v, r = Some v -> v ∈ violationsTable db /\ id v = x)
     /\ (forall v, primary_key_ok db -> v ∈ violationsTable db -> id v = x ->
                   r = Some v))
  /\ (int4 x = false ->
      getViolationById x db =
        (Rejected (query_error (select_violation x)), db)).
Proof.
  split; intros Hx; rewrite getViolationById_head, Hx; [|reflexivity].
  eexists. split; [reflexivity|].
  destruct (decide (Exists (fun v => id v = x) (violationsTable db)))
    as [Hex|Hno].
  - destruct (first_match _ _ Hex) as (e0 & rest & Hf & Hid0 & Hin0).
    rewrite Hf. simpl. split_and!.
    + split; [discriminate|]. intros Hall. rewrite Forall_forall in Hall.
      by destruct (Hall e0 Hin0).
    + by intros v [= <-].
    + intros v Hpk Hin Hid. f_equal. apply (primary_key_unique db); congruence.
  - apply not_Exists_Forall in Hno; [|intros v; apply _].
    rewrite (filter_none _ _ Hno). simpl. split_and!.
    + done.
    + discriminate.
    + intros v _ Hin Hid. rewrite Forall_forall in Hno.
      by destruct (Hno v Hin).
Qed.

(** ** Creating a violation *)

(** X2. [createViolation] checks its references before it writes, the
    identifiers being 32-bit integers: for an unknown student it rejects
    with [Student with ID ... not found], also when the reporter is
    unknown too; for a known student and an unknown reporter it rejects
    with [User with ID ... not found]; both errors are NotFound errors.
    A [student_id] outside the 32-bit integers, or such a [reported_by]
    with a known student, is refused by the store, and the call rejects
    with the error of the driver. The store is untouched in all four
    cases. *)
Theorem createViolation_references
    (now : Date) (input : CreateViolationInput) (db : Database) :
  (int4 (cv_student_id input) = true ->
   Forall (fun s => student_id_ s <> cv_student_id input) (studentsTable db) ->
   exists e,
     createViolation now input db = (Rejected e, db)
     /\ message e = "Student with ID " ++ string_of_Z (cv_student_id input)
                    ++ " not found"
     /\ NotFound e)
  /\ (int4 (cv_student_id input) = true ->
      Exists (fun s => student_id_ s = cv_student_id input) (studentsTable db) ->
      int4 (cv_reported_by input) = true ->
      Forall (fun u => user_id u <> cv_reported_by input) (usersTable db) ->
      exists e,
        createViolation now input db = (Rejected e, db)
        /\ message e = "User with ID " ++ string_of_Z (cv_reported_by input)
                       ++ " not found"
        /\ NotFound e)
  /\ (int4 (cv_student_id input) = false ->
      createViolation now input db =
        (Rejected (query_error (select_student (cv_student_id input))), db))
  /\ (int4 (cv_student_id input) = true ->
      Exists (fun s => student_id_ s = cv_student_id input) (studentsTable db) ->
      int4 (cv_reported_by input) = false ->
      createViolation now input db =
        (Rejected (query_error (select_user (cv_reported_by input))), db)).
Proof.
  split_and!.
  - intros Hsid Hmissing. eexists.
    split; [by apply createViolation_unknown_student|].
    split; [reflexivity | apply not_found_message].
  - intros Hsid Hstudent Huid Hmissing. eexists.
    split; [by apply createViolation_unknown_reporter|].
    split; [reflexivity | apply not_found_message].
  - apply createViolation_refused_student.
  - apply createViolation_refused_reporter.
Qed.

(** X3. A created violation can be read back: in a store whose serial is
    ahead of the stored identifiers, a resolved [createViolation] returns
    a record that is unsent, carries a fresh identifier and the current
    time in both timestamps, and [getViolationById] on that identifier
    then resolves to the same record; the violations stored before are
    still returned for their identifiers. *)
Theorem createViolation_then_get
    (now : Date) (input : CreateViolationInput) (db db' : Database)
    (v : Violation) :
  sequence_ok db ->
  createViolation now input db = (Resolved v, db') ->
  getViolationById (id v) db' = (Resolved (Some v), db')
  /\ whatsapp_sent v = false /\ whatsapp_sent_at v = None
  /\ created_at v = now /\ updated_at v = now
  /\ Forall (fun w => id w <> id v) (violationsTable db)
  /\ (forall x, x <> id v ->
        fst (getViolationById x db') = fst (getViolationById x db)).
Proof.
  intros Hseq Hcreate.
  assert (Hfresh : Forall (fun w => id w <> violations_id_seq db)
                     (violationsTable db)).
  { eapply Forall_impl; [exact Hseq|]. simpl. intros w Hw. lia. }
  destruct (createViolation_cases now input db)
    as [[e Heq]|(Heq & _ & _ & Hrow)];
    rewrite Heq in Hcreate; [discriminate Hcreate|].
  injection Hcreate as <- <-.
  apply accepted_insert_violation in Hrow.
  split_and!; try reflexivity.
  - rewrite getViolationById_head, Hrow.
    cbn [violationsTable].
    rewrite filter_app, (filter_none _ _ Hfresh).
    rewrite filter_cons_True by done. reflexivity.
  - exact Hfresh.
  - intros x Hx. rewrite !getViolationById_head.
    cbn [violationsTable].
    rewrite filter_app. rewrite (filter_cons_False _ (created_row now input db))
      by (intros Heq'; apply Hx; by rewrite <- Heq').
    rewrite filter_nil, app_nil_r. by destruct (int4 x).
Qed.

End Lookup.

Lemma getViolationById_lookup_witness :
  exists r,
    getViolationById 1 sample_db = (Resolved r, sample_db)
    /\ (r = None <-> Forall (fun v => id v <> 1) (violationsTable sample_db))
    /\ (forall v, r = Some v -> v ∈ violationsTable sample_db /\ id v = 1)
    /\ (forall v, primary_key_ok sample_db -> v ∈ violationsTable sample_db ->
                  id v = 1 -> r = Some v).
Proof.
  apply (getViolationById_lookup 1 sample_db). reflexivity.
Defined.

Lemma createViolation_references_witness :
  exists e,
    createViolation 50
      {| cv_student_id := 9; cv_violation_type := "Terlambat";
         cv_location := "Gerbang Sekolah"; cv_description := None;
         cv_photo_url := None; cv_violation_time := 40;
         cv_reported_by := 9 |} sample_db = (Rejected e, sample_db)
    /\ message e = "Student with ID 9 not found"
    /\ NotFound e.
Proof.
  apply (createViolation_references 50
           {| cv_student_id := 9; cv_violation_type := "Terlambat";
              cv_location := "Gerbang Sekolah"; cv_description := None;
              cv_photo_url := None; cv_violation_time := 40;
              cv_reported_by := 9 |} sample_db).
  - reflexivity.
  - repeat constructor. simpl. lia.
Defined.

Lemma createViolation_then_get_witness :
  getViolationById 2 (snd (createViolation 50 merokok_input sample_db))
  = (Resolved (Some (created_row 50 merokok_input sample_db)),
     snd (createViolation 50 merokok_input sample_db)).
Proof.
  apply (createViolation_then_get 50 merokok_input sample_db
           (snd (createViolation 50 merokok_input sample_db))
           (created_row 50 merokok_input sample_db)).
  - repeat constructor.
  - reflexivity.
Defined.

(** ** The constraints of the store are kept *)

Lemma NoDup_ids_filter (P : Violation -> Prop) `{!forall v, Decision (P v)}
    (rows : list Violation) :
  NoDup (map id rows) -> NoDup (map id (filter P rows)).
Proof.
  induction rows as [|v rows IH]; simpl; [done|].
  intros [Hv Hrows]%NoDup_cons. rewrite filter_cons.
  destruct (decide (P v)); [|by apply IH].
  simpl. apply NoDup_cons. split; [|by apply IH].
  intros (w & Hid & Hw)%list_elem_of_fmap. apply Hv.
  apply list_elem_of_fmap. exists w. split; [done|].
  by apply list_elem_of_filter in Hw as [_ ?].
Qed.

Lemma store_ok_filter (P : Violation -> Prop) `{!forall v, Decision (P v)} db :
  store_ok db ->
  store_ok (set_violationsTable db (filter P (violationsTable db))).
Proof.
  intros ([Hpk Hrange] & Hseq & Hfk & Hrep).
  unfold store_ok, primary_key_ok, sequence_ok, foreign_keys_ok, reporters_ok
    in *. simpl.
  split_and!.
  - by apply NoDup_ids_filter.
  - apply Forall_forall. intros v [_ Hv]%list_elem_of_filter.
    rewrite Forall_forall in Hrange. by apply Hrange.
  - apply Forall_forall. intros v [_ Hv]%list_elem_of_filter.
    rewrite Forall_forall in Hseq. by apply Hseq.
  - apply Forall_forall. intros v [_ Hv]%list_elem_of_filter.
    rewrite Forall_forall in Hfk. by apply Hfk.
  - apply Forall_forall. intros v [_ Hv]%list_elem_of_filter.
    rewrite Forall_forall in Hrep. by apply Hrep.
Qed.

Lemma store_ok_map (g : Violation -> Violation) db :
  store_ok db ->
  (forall v, id (g v) = id v) ->
  (forall v, reported_by (g v) = reported_by v) ->
  (forall v, v ∈ violationsTable db ->
             Exists (fun s => student_id_ s = student_id (g v))
               (studentsTable db)) ->
  store_ok (set_violationsTable db (map g (violationsTable db))).
Proof.
  intros ([Hpk Hrange] & Hseq & Hfk & Hrep) Hid Hreporter Hstudent.
  unfold store_ok, primary_key_ok, sequence_ok, foreign_keys_ok, reporters_ok
    in *. simpl.
  assert (Hids : map id (map g (violationsTable db))
                 = map id (violationsTable db)).
  { rewrite <- list_fmap_compose. apply list_fmap_ext. intros i v _. apply Hid. }
  split_and!.
  - by rewrite Hids.
  - apply Forall_map, Forall_forall. intros v Hv. simpl.
    rewrite Forall_forall in Hrange. rewrite Hid. by apply Hrange.
  - apply Forall_map, Forall_forall. intros v Hv. simpl.
    rewrite Forall_forall in Hseq. rewrite Hid. by apply Hseq.
  - apply Forall_map, Forall_forall. intros v Hv. simpl. by apply Hstudent.
  - apply Forall_map, Forall_forall. intros v Hv. simpl.
    rewrite Forall_forall in Hrep. rewrite Hreporter. by apply Hrep.
Qed.

Lemma store_ok_marked now x db :
  store_ok db ->
  store_ok
    (set_violationsTable db
       (map (fun v => if decide (id v = x)
                      then apply_set (markData now) v
                      else v)
          (violationsTable db))).
Proof.
  intros Hok. apply store_ok_map; [done| | |].
  - intros v. by destruct (decide (id v = x)).
  - intros v. by destruct (decide (id v = x)).
  - intros v Hv. destruct Hok as (_ & _ & Hfk & _).
    unfold foreign_keys_ok in Hfk. rewrite Forall_forall in Hfk.
    destruct (decide (id v = x)); simpl; by apply Hfk.
Qed.

Section Constraints.

Context `{!Driver}.

Lemma deleteViolation_refused x db :
  int4 x = false ->
  deleteViolation x db = (Rejected (query_error (select_violation x)), db).
Proof.
  intros Hx. unfold deleteViolation, try_catch, bind.
  by rewrite execute_refused.
Qed.

Lemma deleteViolation_missing x db :
  int4 x = true ->
  Forall (fun v => id v <> x) (violationsTable db) ->
  deleteViolation x db =
    (Rejected (mkError ("Violation with ID " ++ string_of_Z x ++ " not found")),
     db).
Proof.
  intros Hx Hmissing. unfold deleteViolation, try_catch, bind, get.
  rewrite execute_accepted by done.
  by rewrite (filter_none _ _ Hmissing).
Qed.

Lemma deleteViolation_found x db :
  int4 x = true ->
  Exists (fun v => id v = x) (violationsTable db) ->
  deleteViolation x db =
    (Resolved tt,
     set_violationsTable db (filter (fun v => id v <> x) (violationsTable db))).
Proof.
  intros Hx Hexists.
  destruct (first_match _ _ Hexists) as (v & rest & Hf & _ & _).
  unfold deleteViolation, try_catch, bind, get.
  rewrite execute_accepted by done.
  rewrite Hf. simpl.
  rewrite execute_accepted by done.
  reflexivity.
Qed.

(** X4. The handlers keep the constraints of the violations table:
    unique identifiers, a serial ahead of them, and references to stored
    students and stored reporters. Whatever its outcome, each of
    [createViolation], [updateViolation], [deleteViolation],
    [deleteStudent], [markWhatsAppSent] and [sendWhatsAppMessage] leaves
    a store that satisfies them when it started from one. *)
Theorem handlers_keep_store_ok (db : Database) :
  store_ok db ->
  (forall now input, store_ok (snd (createViolation now input db)))
  /\ (forall now input, store_ok (snd (updateViolation now input db)))
  /\ (forall x, store_ok (snd (deleteViolation x db)))
  /\ (forall x, store_ok (snd (deleteStudent x db)))
  /\ (forall now x messageId,
        store_ok (snd (markWhatsAppSent now x messageId db)))
  /\ (forall date_now random now input,
        store_ok (snd (sendWhatsAppMessage date_now random now input db))).
Proof.
  intros Hok. split_and!.
  - intros now input.
    destruct (createViolation_cases now input db)
      as [[e ->]|(-> & Hs & Hu & Hrow)]; [done|].
    apply accepted_insert_violation in Hrow.
    destruct Hok as ([Hpk Hrange] & Hseq & Hfk & Hrep).
    unfold store_ok, primary_key_ok, sequence_ok, foreign_keys_ok,
      reporters_ok in *. simpl.
    split_and!.
    + rewrite fmap_app. apply NoDup_app. split_and!; [done| |].
      * intros i (w & -> & Hw)%list_elem_of_fmap. simpl.
        rewrite list_elem_of_singleton. rewrite Forall_forall in Hseq.
        specialize (Hseq w Hw). lia.
      * simpl. apply NoDup_singleton.
    + apply Forall_app. split; [done|].
      constructor; [exact Hrow | constructor].
    + apply Forall_app. split.
      * eapply Forall_impl; [exact Hseq|]. simpl. intros w Hw. lia.
      * constructor; [simpl; lia | constructor].
    + apply Forall_app. split; [done|]. constructor; [exact Hs | constructor].
    + apply Forall_app. split; [done|]. constructor; [exact Hu | constructor].
  - intros now input.
    destruct (updateViolation_cases now input db)
      as [[e ->]|(e0 & rest & Hf & Hstudent & _ & ->)]; [done|].
    simpl. apply store_ok_map; [done| | |].
    + intros v. by destruct (decide (id v = uv_id input)).
    + intros v. by destruct (decide (id v = uv_id input)).
    + intros v Hv. destruct Hok as (_ & _ & Hfk & _).
      unfold foreign_keys_ok in Hfk. rewrite Forall_forall in Hfk.
      destruct (decide (id v = uv_id input)); [|by apply Hfk].
      simpl. destruct (uv_student_id input) as [sid|] eqn:Hsid; simpl.
      * by apply Hstudent.
      * by apply Hfk.
  - intros x.
    destruct (int4 x) eqn:Hx; [|by rewrite deleteViolation_refused].
    destruct (decide (Exists (fun v => id v = x) (violationsTable db)))
      as [Hex|Hno].
    + rewrite deleteViolation_found by done. simpl.
      by apply (store_ok_filter (fun v => id v <> x)).
    + apply not_Exists_Forall in Hno; [|intros v; apply _].
      by rewrite deleteViolation_missing.
  - intros x.
    destruct (int4 x) eqn:Hx; cycle 1.
    { unfold deleteStudent, try_catch, bind.
      by rewrite execute_refused. }
    destruct (decide (Exists (fun v => student_id v = x) (violationsTable db)))
      as [Hex|Hno].
    + destruct (first_match _ _ Hex) as (v & rest & Hf & _ & _).
      unfold deleteStudent, try_catch, bind, get.
      rewrite execute_accepted by done.
      rewrite Hf. rewrite bool_decide_true by (simpl; lia). done.
    + apply not_Exists_Forall in Hno; [|intros v; apply _].
      assert (Hkept : store_ok
                (set_studentsTable db
                   (filter (fun s => student_id_ s <> x) (studentsTable db)))).
      { destruct Hok as (Hpk & Hseq & Hfk & Hrep).
        unfold store_ok, primary_key_ok, sequence_ok, foreign_keys_ok,
          reporters_ok in *. simpl. split_and!; [apply Hpk|apply Hpk|done| |done].
        rewrite Forall_forall in Hfk, Hno. apply Forall_forall. intros v Hv.
        apply Exists_exists.
        destruct (proj1 (Exists_exists _ _) (Hfk v Hv)) as (s & Hs & Hsid).
        exists s. split; [|done]. apply list_elem_of_filter. split; [|done].
        rewrite Hsid. by apply Hno. }
      unfold deleteStudent, try_catch, bind, get.
      rewrite execute_accepted by done.
      rewrite (filter_none _ _ Hno). simpl.
      rewrite execute_accepted by done. simpl.
      by destruct (bool_decide _).
  - intros now x messageId.
    destruct (int4 x) eqn:Hx; [|by rewrite markWhatsAppSent_refused].
    rewrite markWhatsAppSent_table by done. simpl.
    by apply store_ok_marked.
  - intros date_now random now input.
    destruct (int4 (sw_violation_id input)) eqn:Hx;
      [|by rewrite sendWhatsAppMessage_refused].
    destruct (decide (Exists (fun v => id v = sw_violation_id input)
                        (violationsTable db))) as [Hex|Hno].
    + rewrite sendWhatsAppMessage_found by done.
      rewrite markWhatsAppSent_table by done. simpl.
      by apply store_ok_marked.
    + apply not_Exists_Forall in Hno; [|intros v; apply _].
      by rewrite sendWhatsAppMessage_missing.
Qed.

(** ** Deleting a violation *)

(** X5. Let [x] be a 32-bit integer. [deleteViolation] rejects with a
    NotFound error and leaves the store alone when no violation carries
    the identifier. Otherwise it resolves and removes every row with
    that identifier and no other, without rewinding the serial;
    afterwards [getViolationById] resolves to null for it and a second
    [deleteViolation] rejects. An identifier outside the 32-bit
    integers is refused by the store: the call rejects with the error
    of the driver, the store as it was. *)
Theorem deleteViolation_effect (x : Z) (db : Database) :
  (int4 x = true ->
   Forall (fun v => id v <> x) (violationsTable db) ->
   exists e,
     deleteViolation x db = (Rejected e, db)
     /\ message e = "Violation with ID " ++ string_of_Z x ++ " not found"
     /\ NotFound e)
  /\ (int4 x = true ->
      Exists (fun v => id v = x) (violationsTable db) ->
      exists db',
        deleteViolation x db = (Resolved tt, db')
        /\ violationsTable db' = filter (fun v => id v <> x) (violationsTable db)
        /\ usersTable db' = usersTable db
        /\ studentsTable db' = studentsTable db
        /\ violations_id_seq db' = violations_id_seq db
        /\ getViolationById x db' = (Resolved None, db')
        /\ exists e, deleteViolation x db' = (Rejected e, db') /\ NotFound e)
  /\ (int4 x = false ->
      deleteViolation x db =
        (Rejected (query_error (select_violation x)), db)).
Proof.
  split_and!.
  - intros Hx Hmissing. eexists. split; [by apply deleteViolation_missing|].
    split; [reflexivity | apply not_found_message].
  - intros Hx Hexists.
    eexists. split; [by apply deleteViolation_found|].
    simpl.
    assert (Hgone : Forall (fun v => id v <> x)
                      (filter (fun v => id v <> x) (violationsTable db))).
    { apply Forall_forall. by intros w [? _]%list_elem_of_filter. }
    split_and!; try reflexivity.
    + rewrite getViolationById_head, Hx. simpl.
      by rewrite (filter_none _ _ Hgone).
    + eexists. split; [by apply deleteViolation_missing|].
      apply not_found_message.
  - apply deleteViolation_refused.
Qed.

End Constraints.

Lemma sample_db_ok : store_ok sample_db.
Proof.
  unfold store_ok, primary_key_ok, sequence_ok, foreign_keys_ok, reporters_ok.
  split_and!; by apply (bool_decide_unpack _).
Qed.

Lemma handlers_keep_store_ok_witness :
  store_ok (snd (createViolation 50 merokok_input sample_db))
  /\ store_ok (snd (deleteStudent 1 sample_db)).
Proof.
  destruct (handlers_keep_store_ok sample_db sample_db_ok)
    as (Hcreate & _ & _ & Hdelete & _).
  split; [apply Hcreate | apply Hdelete].
Defined.

Lemma deleteViolation_effect_witness :
  exists db',
    deleteViolation 1 sample_db = (Resolved tt, db')
    /\ violationsTable db' = []
    /\ getViolationById 1 db' = (Resolved None, db').
Proof.
  destruct (deleteViolation_effect 1 sample_db) as (_ & Hfound & _).
  destruct Hfound as (db' & Hdel & Hrows & _ & _ & _ & Hget & _).
  { reflexivity. }
  { left. reflexivity. }
  exists db'. split_and!; [exact Hdel | exact Hrows | exact Hget].
Defined.

(** ** Pages of violations *)

Lemma int8_of_nat_le (m n : nat) :
  (m <= n)%nat -> int8 (Z.of_nat n) = true -> int8 (Z.of_nat m) = true.
Proof.
  unfold int8. rewrite !andb_true_iff, !Z.leb_le. lia.
Qed.

Section Pages.

Context `{!Driver}.

(** X6. [getViolations] never writes. When the store takes the
    parameters of the query (a [student_id], if given, within the 32-bit
    integers, limit and offset within the 64-bit integers), it resolves,
    whatever order the store gives to violations with equal times. Its
    result has at most [limit] rows (1000 when no limit is given), is in
    descending order of [violation_time], has no row twice, and consists
    of stored violations, all of the requested student when a
    [student_id] is given. When the store refuses a parameter, the call
    rejects with the error of the driver. *)
Theorem getViolations_page
    (order : list Violation -> list Violation)
    (input : option GetViolationsInput) (db : Database) :
  (orders_by_time order ->
   accepted (select_violations (input ≫= gv_student_id)
               (nullish (input ≫= gv_limit) 1000%nat)
               (nullish (input ≫= gv_offset) 0%nat)) = true ->
   exists l,
     getViolations order input db = (Resolved l, db)
     /\ (length l <= nullish (input ≫= gv_limit) 1000)%nat
     /\ StronglySorted desc_violation_time l
     /\ Forall (fun v => v ∈ violationsTable db) l
     /\ (forall sid, input ≫= gv_student_id = Some sid ->
           Forall (fun v => student_id v = sid) l)
     /\ (primary_key_ok db -> NoDup (map id l)))
  /\ (accepted (select_violations (input ≫= gv_student_id)
                  (nullish (input ≫= gv_limit) 1000%nat)
                  (nullish (input ≫= gv_offset) 0%nat)) = false ->
      getViolations order input db =
        (Rejected
           (query_error
              (select_violations (input ≫= gv_student_id)
                 (nullish (input ≫= gv_limit) 1000%nat)
                 (nullish (input ≫= gv_offset) 0%nat))), db)).
Proof.
  split; intros; rewrite getViolations_rows;
    [|by match goal with H : _ = false |- _ => rewrite H end].
  match goal with
  | Horder : orders_by_time _, H : _ = true |- _ =>
      rewrite H; rename Horder into Hlaw
  end.
  eexists. split; [reflexivity|].
  set (rows := selected (input ≫= gv_student_id) db).
  destruct (Hlaw rows) as [Hperm Hsorted].
  assert (Hsub : forall v,
            v ∈ take (nullish (input ≫= gv_limit) 1000%nat)
                  (drop (nullish (input ≫= gv_offset) 0%nat) (order rows)) ->
            v ∈ rows).
  { intros v Hv. apply subseteq_take, subseteq_drop in Hv.
    by rewrite Hperm in Hv. }
  split_and!.
  - rewrite length_take. lia.
  - by apply StronglySorted_take, StronglySorted_drop.
  - apply Forall_forall. intros v Hv. apply Hsub in Hv. subst rows.
    unfold selected in Hv.
    destruct (input ≫= gv_student_id); [|done].
    by apply list_elem_of_filter in Hv as [_ ?].
  - intros sid Hsid. apply Forall_forall. intros v Hv. apply Hsub in Hv.
    subst rows. rewrite Hsid in Hv.
    by apply list_elem_of_filter in Hv as [? _].
  - intros [Hpk _].
    assert (Hrows : NoDup (map id rows)).
    { subst rows. unfold selected.
      destruct (input ≫= gv_student_id); [|done].
      by apply NoDup_ids_filter. }
    assert (Hordered : NoDup (map id (order rows))) by by rewrite Hperm.
    eapply sublist_NoDup; [exact Hordered|].
    apply (fmap_sublist id).
    etrans; [apply sublist_take | apply sublist_drop].
Qed.

Lemma accepted_page sid (limit offset n : nat) :
  nullable_ok int4 sid = true ->
  int8 (Z.of_nat n) = true ->
  (limit <= n)%nat -> (offset <= n)%nat ->
  accepted (select_violations sid limit offset) = true.
Proof.
  intros Hsid Hn Hlimit Hoffset. simpl.
  rewrite Hsid, (int8_of_nat_le limit n), (int8_of_nat_le offset n); done.
Qed.

Lemma getViolations_at_page order sid (limit offset : nat) db :
  accepted (select_violations sid limit offset) = true ->
  getViolations order (page sid limit offset) db =
    (Resolved (take limit (drop offset (order (selected sid db)))), db).
Proof.
  intros Haccepted. rewrite getViolations_rows.
  change (page sid limit offset ≫= gv_student_id) with sid.
  change (nullish (page sid limit offset ≫= gv_limit) 1000%nat) with limit.
  change (nullish (page sid limit offset ≫= gv_offset) 0%nat) with offset.
  by rewrite Haccepted.
Qed.

(** X7. Consecutive pages join when the violations that the filter
    selects have pairwise distinct times: then the page of [a] rows at
    offset [o] followed by the page of [b] rows at offset [o + a] is the
    page of [a + b] rows at offset [o], for the same filter, whatever
    the store does with equal times in each of the three queries. The
    [student_id], if given, is within the 32-bit integers and [o + a + b]
    within the 64-bit integers, so that the store takes the parameters. *)
Theorem getViolations_pages_join
    (order1 order2 order3 : list Violation -> list Violation)
    (sid : option Z) (o a b : nat) (db : Database) :
  orders_by_time order1 -> orders_by_time order2 -> orders_by_time order3 ->
  NoDup (map violation_time (selected sid db)) ->
  nullable_ok int4 sid = true ->
  int8 (Z.of_nat (o + a + b)) = true ->
  exists l1 l2,
    getViolations order1 (page sid a o) db = (Resolved l1, db)
    /\ getViolations order2 (page sid b (o + a)) db = (Resolved l2, db)
    /\ getViolations order3 (page sid (a + b) o) db
       = (Resolved (l1 ++ l2)%list, db).
Proof.
  intros H1 H2 H3 Htimes Hsid Hmax.
  eexists _, _.
  rewrite !getViolations_at_page
    by (apply (accepted_page sid _ _ (o + a + b)); (done || lia)).
  rewrite (orders_agree order2 order1) by done.
  rewrite (orders_agree order3 order1) by done.
  split_and!; [reflexivity | reflexivity |].
  by rewrite <- drop_drop, take_take_drop.
Qed.

End Pages.

Lemma getViolations_page_witness :
  exists l,
    getViolations merge_order (only_student 1) sample_db
    = (Resolved l, sample_db)
    /\ (length l <= 1000)%nat
    /\ StronglySorted desc_violation_time l
    /\ Forall (fun v => v ∈ violationsTable sample_db) l
    /\ (forall sid, Some 1 = Some sid -> Forall (fun v => student_id v = sid) l)
    /\ (primary_key_ok sample_db -> NoDup (map id l)).
Proof.
  apply (getViolations_page merge_order (only_student 1) sample_db).
  - apply merge_order_orders_by_time.
  - reflexivity.
Defined.

Lemma getViolations_pages_join_witness :
  exists l1 l2,
    getViolations merge_order (page (Some 1) 400 0) busy_db
    = (Resolved l1, busy_db)
    /\ getViolations merge_order (page (Some 1) 700 (0 + 400)) busy_db
       = (Resolved l2, busy_db)
    /\ getViolations merge_order (page (Some 1) (400 + 700) 0) busy_db
       = (Resolved (l1 ++ l2)%list, busy_db).
Proof.
  apply (getViolations_pages_join merge_order merge_order merge_order
           (Some 1) 0 400 700 busy_db).
  - apply merge_order_orders_by_time.
  - apply merge_order_orders_by_time.
  - apply merge_order_orders_by_time.
  - apply (bool_decide_unpack _). vm_compute. reflexivity.
  - reflexivity.
  - vm_compute. reflexivity.
Defined.

(** ** Marking and updating again *)

Lemma marked_spec now v : apply_set (markData now) v = marked now v.
Proof. reflexivity. Qed.

Lemma map_at_id_twice (x : Z) (g1 g2 : Violation -> Violation)
    (rows : list Violation) :
  (forall v, id (g1 v) = id v) ->
  map (fun v => if decide (id v = x) then g2 v else v)
    (map (fun v => if decide (id v = x) then g1 v else v) rows)
  = map (fun v => if decide (id v = x) then g2 (g1 v) else v) rows.
Proof.
  intros Hid. rewrite map_map. apply map_ext. intros v.
  destruct (decide (id v = x)) as [Hv|Hv].
  - rewrite decide_True by by rewrite Hid. done.
  - by rewrite decide_False.
Qed.

Lemma updateData_again t1 t2 input s (v : Violation) :
  apply_set
    (updateData t2 input (nullish (uv_whatsapp_sent input) s))
    (apply_set (updateData t1 input s) v)
  = touched t2 (apply_set (updateData t1 input s) v).
Proof.
  unfold apply_set, touched, updateData. simpl.
  destruct (uv_student_id input), (uv_violation_type input),
    (uv_location input), (uv_description input), (uv_photo_url input),
    (uv_violation_time input); simpl;
    destruct (uv_whatsapp_sent input) as [[|]|]; simpl;
    try reflexivity; by destruct s.
Qed.

Lemma filter_map_at_id (x : Z) (g : Violation -> Violation)
    (rows : list Violation) :
  (forall v, id (g v) = id v) ->
  filter (fun v => id v = x)
    (map (fun v => if decide (id v = x) then g v else v) rows)
  = map g (filter (fun v => id v = x) rows).
Proof.
  intros Hid. induction rows as [|v rows IH]; [done|].
  simpl. rewrite !filter_cons.
  destruct (decide (id v = x)) as [Hv|Hv].
  - rewrite decide_True by by rewrite Hid. simpl. by rewrite IH.
  - rewrite decide_False by done. by rewrite IH.
Qed.

Section Again.

Context `{!Driver}.

(** The store looks at the supplied fields of an update, not at the
    time stamps that the handler adds. *)
Lemma accepted_updateData x t1 t2 input s1 s2 :
  accepted (update_violation x (updateData t1 input s1))
  = accepted (update_violation x (updateData t2 input s2)).
Proof. reflexivity. Qed.

(** X8. [markWhatsAppSent] on an identifier within the 32-bit integers
    resolves. It rewrites exactly the rows with the given identifier,
    and in them only [whatsapp_sent] and [whatsapp_sent_at]:
    [updated_at] keeps its value. Marking again overrides the earlier
    mark: marking at [now1] and then at [now2] leaves the same store as
    marking at [now2] alone. An identifier outside the 32-bit integers
    is refused by the store: the call rejects with the error of the
    driver, the store as it was. *)
Theorem markWhatsAppSent_again
    (now1 now2 : Date) (x : Z) (m1 m2 : string) (db : Database) :
  (int4 x = true ->
   exists db1,
     markWhatsAppSent now1 x m1 db = (Resolved tt, db1)
     /\ Forall2 (fun v v1 => v1 = if decide (id v = x) then marked now1 v else v)
          (violationsTable db) (violationsTable db1)
     /\ map updated_at (violationsTable db1)
        = map updated_at (violationsTable db)
     /\ markWhatsAppSent now2 x m2 db1 = markWhatsAppSent now2 x m2 db)
  /\ (int4 x = false ->
      markWhatsAppSent now1 x m1 db =
        (Rejected (query_error (update_violation x (markData now1))), db)).
Proof.
  split; [|apply markWhatsAppSent_refused].
  intros Hx.
  eexists. split; [by apply markWhatsAppSent_table|].
  simpl. split_and!.
  - apply Forall2_fmap_r, Forall_Forall2_diag, Forall_forall.
    intros v _. simpl.
    destruct (decide (id v = x)); reflexivity.
  - rewrite map_map. apply map_ext. intros v.
    destruct (decide (id v = x)); reflexivity.
  - rewrite !markWhatsAppSent_table by done. simpl. f_equal.
    unfold set_violationsTable. simpl. f_equal.
    by rewrite map_at_id_twice.
Qed.

(** X9. Repeating an update changes nothing but [updated_at]: when
    [updateViolation] has resolved for an input, the same input applied
    once more resolves again, and every row it rewrites differs from
    what the first update left only in [updated_at]. In particular a
    repeated [whatsapp_sent: true] does not move [whatsapp_sent_at]. *)
Theorem updateViolation_again
    (t1 t2 : Date) (input : UpdateViolationInput)
    (db db1 : Database) (v1 : Violation) :
  updateViolation t1 input db = (Resolved (Some v1), db1) ->
  exists db2,
    updateViolation t2 input db1 = (Resolved (Some (touched t2 v1)), db2)
    /\ Forall2 (fun w w' => w' = if decide (id w = uv_id input)
                                  then touched t2 w else w)
         (violationsTable db1) (violationsTable db2)
    /\ usersTable db2 = usersTable db
    /\ studentsTable db2 = studentsTable db
    /\ violations_id_seq db2 = violations_id_seq db.
Proof.
  intros Hfirst.
  destruct (updateViolation_cases t1 input db)
    as [[e Heq]|(e0 & rest & Hf & Hstudent & Haccepted & Heq)];
    rewrite Heq in Hfirst; [discriminate Hfirst|].
  injection Hfirst as <- <-.
  set (g1 := apply_set (updateData t1 input (whatsapp_sent e0))).
  assert (Hf1 : filter (fun v => id v = uv_id input)
                  (violationsTable
                     (set_violationsTable db
                        (map (fun v => if decide (id v = uv_id input)
                                       then g1 v else v)
                           (violationsTable db))))
                = g1 e0 :: map g1 rest).
  { simpl. rewrite filter_map_at_id by done. by rewrite Hf. }
  assert (Hstudent1 : forall sid, uv_student_id input = Some sid ->
            Exists (fun s => student_id_ s = sid)
              (studentsTable
                 (set_violationsTable db
                    (map (fun v => if decide (id v = uv_id input)
                                   then g1 v else v)
                       (violationsTable db)))))
    by (intros sid Hsid; simpl; by apply Hstudent).
  assert (Haccepted1 :
    accepted (update_violation (uv_id input)
                (updateData t2 input (whatsapp_sent (g1 e0)))) = true)
    by (by rewrite (accepted_updateData _ t2 t1 input _ (whatsapp_sent e0))).
  pose proof (updateViolation_found t2 input _ (g1 e0) (map g1 rest)
                Hf1 Hstudent1 Haccepted1) as Hsecond.
  assert (Hsent : whatsapp_sent (g1 e0)
                  = nullish (uv_whatsapp_sent input) (whatsapp_sent e0))
    by reflexivity.
  rewrite Hsent in Hsecond. subst g1. rewrite updateData_again in Hsecond.
  eexists. split; [exact Hsecond|].
  split_and!; try reflexivity.
  apply Forall2_fmap_r, Forall_Forall2_diag. simpl.
  apply Forall_fmap, Forall_forall. intros v _. simpl.
  destruct (decide (id v = uv_id input)) as [Hv|Hv].
  - rewrite !decide_True by done. apply updateData_again.
  - by rewrite !decide_False by done.
Qed.

End Again.

Lemma markWhatsAppSent_again_witness :
  exists db1,
    markWhatsAppSent 60 1 "wa_60_abc" sample_db = (Resolved tt, db1)
    /\ Forall2 (fun v v1 => v1 = if decide (id v = 1) then marked 60 v else v)
         (violationsTable sample_db) (violationsTable db1)
    /\ map updated_at (violationsTable db1)
       = map updated_at (violationsTable sample_db)
    /\ markWhatsAppSent 70 1 "wa_70_def" db1
       = markWhatsAppSent 70 1 "wa_70_def" sample_db.
Proof.
  apply (markWhatsAppSent_again 60 70 1 "wa_60_abc" "wa_70_def" sample_db).
  reflexivity.
Defined.

Lemma updateViolation_again_witness :
  exists db2,
    updateViolation 70 (only_whatsapp_sent 1 true)
      (snd (updateViolation 60 (only_whatsapp_sent 1 true) sample_db))
    = (Resolved
         (Some (touched 70
                  (apply_set
                     (updateData 60 (only_whatsapp_sent 1 true) false)
                     terlambat))), db2)
    /\ violations_id_seq db2 = violations_id_seq sample_db.
Proof.
  destruct (updateViolation_again 60 70 (only_whatsapp_sent 1 true) sample_db
              (snd (updateViolation 60 (only_whatsapp_sent 1 true) sample_db))
              (apply_set (updateData 60 (only_whatsapp_sent 1 true) false)
                 terlambat))
    as (db2 & Hsecond & _ & _ & _ & Hseq).
  { reflexivity. }
  exists db2. split; [exact Hsecond | exact Hseq].
Defined.

(** ** Messages and previews *)

Lemma joined_row_none x db :
  Forall (fun v => id v = x ->
            Forall (fun s => student_id v <> student_id_ s) (studentsTable db))
    (violationsTable db) ->
  joined_row x db = [].
Proof.
  intros Hnone. unfold joined_row.
  induction Hnone as [|v rows Hv _ IH]; [done|].
  rewrite filter_cons. destruct (decide (id v = x)) as [Hid|Hid]; [|done].
  simpl. rewrite (filter_none _ _ (Hv Hid)). simpl. exact IH.
Qed.

Lemma joined_row_sound x db violation student rest :
  joined_row x db = (violation, student) :: rest ->
  violation ∈ violationsTable db /\ id violation = x
  /\ student ∈ studentsTable db
  /\ student_id_ student = student_id violation.
Proof.
  intros Hrow.
  assert (Hin : (violation, student) ∈ joined_row x db)
    by (rewrite Hrow; left).
  unfold joined_row in Hin. apply subseteq_take in Hin.
  apply list_elem_of_In, in_flat_map in Hin as (v & Hv & Hs).
  apply list_elem_of_In, list_elem_of_filter in Hv as [Hid Hv].
  apply list_elem_of_In, list_elem_of_fmap in Hs as (s & [= -> ->] & Hs).
  apply list_elem_of_filter in Hs as [Hsid Hs]. done.
Qed.

Lemma contains_join_lines (l : string) (lines : list string) :
  l ∈ lines -> contains (join_lines lines) l.
Proof.
  induction lines as [|l' lines IH]; intros Hin.
  - by apply elem_of_nil in Hin.
  - destruct lines as [|l'' lines].
    + apply list_elem_of_singleton in Hin as ->. apply contains_self.
    + change (join_lines (l' :: l'' :: lines))
        with (l' ++ nl ++ join_lines (l'' :: lines)).
      apply elem_of_cons in Hin as [->|Hin].
      * apply contains_app_l, contains_self.
      * apply contains_app_r, contains_app_r. by apply IH.
Qed.

Section Previews.

Context `{!Driver}.

Lemma generateViolationMessage_row formatDate formatTime x db :
  generateViolationMessage formatDate formatTime x db
  = if int4 x
    then match joined_row x db with
         | [] => (Rejected (mkError "Violation not found"), db)
         | (violation, student) :: _ =>
             (Resolved (violationMessage formatDate formatTime violation student),
              db)
         end
    else (Rejected (query_error (select_violation_with_student x)), db).
Proof.
  unfold generateViolationMessage, try_catch, bind, get, execute.
  change (accepted (select_violation_with_student x)) with (int4 x).
  destruct (int4 x); [|reflexivity].
  unfold ret. simpl.
  by destruct (joined_row x db) as [|[violation student] rest].
Qed.

(** X10. [generateViolationMessage] never writes. On an identifier
    within the 32-bit integers it rejects with [Violation not found]
    when no violation with the identifier has a student, which covers
    an unknown identifier; an identifier outside the 32-bit integers is
    refused by the store, and the call rejects with the error of the
    driver. Whenever it resolves, the message is made for a stored
    violation with that identifier and for the student it refers to,
    and contains the lines [Nama: ...], [Kelas: ...], [NISN: ...],
    [Hari/Tanggal: ...], [Waktu: ...], [Jenis Pelanggaran: ...] and
    [Lokasi: ...] with their values. *)
Theorem generateViolationMessage_fields
    (formatDate formatTime : Date -> string) (x : Z) (db : Database) :
  snd (generateViolationMessage formatDate formatTime x db) = db
  /\ (int4 x = true ->
      Forall (fun v => id v = x ->
                Forall (fun s => student_id v <> student_id_ s)
                  (studentsTable db))
        (violationsTable db) ->
      generateViolationMessage formatDate formatTime x db
      = (Rejected (mkError "Violation not found"), db))
  /\ (int4 x = false ->
      generateViolationMessage formatDate formatTime x db
      = (Rejected (query_error (select_violation_with_student x)), db))
  /\ (forall message,
        fst (generateViolationMessage formatDate formatTime x db)
        = Resolved message ->
        exists violation student,
          violation ∈ violationsTable db /\ id violation = x
          /\ student ∈ studentsTable db
          /\ student_id_ student = student_id violation
          /\ message
             = join_lines (message_lines formatDate formatTime violation student)
          /\ Forall (contains message)
               ["Nama: " ++ name student;
                "Kelas: " ++ class student;
                "NISN: " ++ nisn student;
                "Hari/Tanggal: " ++ formatDate (violation_time violation);
                "Waktu: " ++ formatTime (violation_time violation);
                "Jenis Pelanggaran: " ++ violation_type violation;
                "Lokasi: " ++ location violation]).
Proof.
  rewrite generateViolationMessage_row.
  split_and!.
  - destruct (int4 x); [|done].
    by destruct (joined_row x db) as [|[violation student] rest].
  - intros -> Hnone. by rewrite (joined_row_none _ _ Hnone).
  - by intros ->.
  - intros message Hmessage.
    destruct (int4 x); [|discriminate Hmessage].
    destruct (joined_row x db) as [|[violation student] rest] eqn:Hrow;
      [done|].
    simpl in Hmessage. injection Hmessage as <-.
    destruct (joined_row_sound _ _ _ _ _ Hrow) as (Hv & Hid & Hs & Hsid).
    exists violation, student. split_and!; try done.
    + apply violationMessage_lines.
    + rewrite violationMessage_lines.
      apply Forall_forall. intros l Hl. apply contains_join_lines.
      unfold message_lines. apply elem_of_app. left.
      repeat (apply elem_of_cons in Hl as [->|Hl];
              [repeat first [left; reflexivity | right]|]).
      by apply elem_of_nil in Hl.
Qed.

Lemma previewWhatsAppMessage_row formatDate formatTime x db :
  previewWhatsAppMessage formatDate formatTime x db
  = if int4 x
    then match joined_row x db with
         | [] => (Rejected (mkError "Violation not found"), db)
         | (violation, student) :: _ =>
             (Resolved
                {| preview_message :=
                     violationMessage formatDate formatTime violation student;
                   recipient := parent_whatsapp student;
                   studentName := name student;
                   violationType := violation_type violation |}, db)
         end
    else (Rejected (query_error (select_violation_with_student x)), db).
Proof.
  unfold previewWhatsAppMessage, try_catch, bind, get, execute.
  change (accepted (select_violation_with_student x)) with (int4 x).
  destruct (int4 x) eqn:Hx; [|reflexivity].
  unfold ret. simpl.
  destruct (joined_row x db) as [|[violation student] rest] eqn:Hrow;
    [done|].
  rewrite generateViolationMessage_row, Hx, Hrow. reflexivity.
Qed.

(** X11. [previewWhatsAppMessage] never writes, and it rejects exactly
    when [generateViolationMessage] rejects, with the same error. When
    it resolves, its message is the one [generateViolationMessage]
    resolves to, the recipient is the WhatsApp number of the parent of
    the student of a stored violation with the identifier, and the
    student name and the violation type are those of that student and
    that violation. *)
Theorem previewWhatsAppMessage_agrees
    (formatDate formatTime : Date -> string) (x : Z) (db : Database) :
  snd (previewWhatsAppMessage formatDate formatTime x db) = db
  /\ (forall e,
        fst (previewWhatsAppMessage formatDate formatTime x db) = Rejected e
        <-> fst (generateViolationMessage formatDate formatTime x db)
            = Rejected e)
  /\ (forall p,
        fst (previewWhatsAppMessage formatDate formatTime x db) = Resolved p ->
        generateViolationMessage formatDate formatTime x db
        = (Resolved (preview_message p), db)
        /\ exists violation student,
             violation ∈ violationsTable db /\ id violation = x
             /\ student ∈ studentsTable db
             /\ student_id_ student = student_id violation
             /\ recipient p = parent_whatsapp student
             /\ studentName p = name student
             /\ violationType p = violation_type violation).
Proof.
  rewrite previewWhatsAppMessage_row, generateViolationMessage_row.
  destruct (int4 x).
  2: { split_and!; [done | intros e; simpl; split; intros [=]; congruence |].
       intros p [=]. }
  destruct (joined_row x db) as [|[violation student] rest] eqn:Hrow.
  - split_and!; [done | intros e; simpl; split; intros [=]; congruence |]. intros p [=].
  - split_and!; [done | intros e; simpl; split; intros [=]; congruence |].
    simpl. intros p [= <-]. split; [done|].
    destruct (joined_row_sound _ _ _ _ _ Hrow) as (Hv & Hid & Hs & Hsid).
    by exists violation, student.
Qed.

End Previews.

Lemma generateViolationMessage_fields_witness :
  generateViolationMessage sample_formatDate sample_formatTime 9 message_db
  = (Rejected (mkError "Violation not found"), message_db).
Proof.
  apply (generateViolationMessage_fields sample_formatDate sample_formatTime
           9 message_db).
  - reflexivity.
  - apply Forall_forall. intros v Hv Hid. exfalso. revert Hid.
    repeat (apply elem_of_cons in Hv as [->|Hv]; [discriminate|]).
    by apply elem_of_nil in Hv.
Defined.

(** ** Uploading, reading and deleting a photo *)

Lemma validation_error_text fileData :
  valid (validatePhotoFormat fileData) = false ->
  exists c e, validation_error (validatePhotoFormat fileData) = Some (String c e).
Proof.
  unfold validatePhotoFormat.
  destruct (match_data_url fileData) as [[group1 payload]|];
    [|intros _; by eexists _, _].
  repeat match goal with
         | |- context [if ?b then _ else _] =>
             destruct b; try (intros _; by eexists _, _)
         end.
  discriminate.
Qed.

Lemma validation_accepts fileData :
  valid (validatePhotoFormat fileData) = true ->
  exists group1 payload,
    match_data_url fileData = Some (group1, payload)
    /\ validatePhotoFormat fileData
       = {| valid := true; format := Some (toLowerCase group1);
            validation_error := None |}
    /\ toLowerCase group1 ∈ ALLOWED_FORMATS
    /\ (payload = "" \/ base64_test payload = true)
    /\ Z.of_nat (length (Base64.decode payload)) <= MAX_FILE_SIZE
    /\ validateImageHeader (Base64.decode payload) (toLowerCase group1) = true.
Proof.
  unfold validatePhotoFormat, strip_data_url_header.
  destruct (match_data_url fileData) as [[group1 payload]|]; [|discriminate].
  intros Hvalid. exists group1, payload. revert Hvalid.
  case_bool_decide as Hfmt; simpl; [|discriminate].
  destruct (negb (payload =? "")%string && negb (base64_test payload))
    eqn:Htext; [discriminate|].
  case_bool_decide as Hsize; [discriminate|].
  destruct (validateImageHeader (Base64.decode payload) (toLowerCase group1))
    eqn:Hheader; simpl; [|discriminate].
  intros _. split_and!; try done; [|lia].
  apply andb_false_iff in Htext as [Hempty|Htext].
  - left. apply negb_false_iff in Hempty. by apply String.eqb_eq.
  - right. by apply negb_false_iff.
Qed.

Section PhotoOutcome.

Context (FileSystem : Type)
  (join : string -> string -> string)
  (existsSync : string -> FileSystem -> bool)
  (mkdir_recursive : string -> Async FileSystem unit)
  (writeFile : string -> Buffer -> Async FileSystem unit).

(** X12. [uploadPhoto] rejects data that [validatePhotoFormat] refuses
    with the error text of the validator, before it touches the file
    system. For accepted data it writes the decoded bytes once the
    upload directory is there, under the name
    [<timestamp>_<file_name>.<format>], and resolves to that name and
    the URL [/uploads/photos/<name>]; a failure to make the directory or
    to write the file is rethrown. Its own size check never fires. *)
Theorem uploadPhoto_outcome
    (timestamp : Z) (input : UploadPhotoInput) (fs : FileSystem) :
  (valid (validatePhotoFormat (file_data input)) = false ->
   exists e,
     uploadPhoto FileSystem join existsSync mkdir_recursive writeFile
       timestamp input fs = (Rejected e, fs)
     /\ validation_error (validatePhotoFormat (file_data input))
        = Some (message e))
  /\ (forall fmt,
        valid (validatePhotoFormat (file_data input)) = true ->
        format (validatePhotoFormat (file_data input)) = Some fmt ->
        fmt ∈ ALLOWED_FORMATS
        /\ forall fs1,
             snd (ensureUploadDir FileSystem existsSync mkdir_recursive fs)
             = fs1 ->
             match
               fst (ensureUploadDir FileSystem existsSync mkdir_recursive fs)
             with
             | Rejected e =>
                 uploadPhoto FileSystem join existsSync mkdir_recursive
                   writeFile timestamp input fs = (Rejected e, fs1)
             | Resolved _ =>
                 uploadPhoto FileSystem join existsSync mkdir_recursive
                   writeFile timestamp input fs
                 = match
                     writeFile
                       (join UPLOAD_DIR
                          (string_of_Z timestamp ++ "_" ++ file_name input
                           ++ "." ++ fmt))
                       (Base64.decode
                          (strip_data_url_header (file_data input))) fs1
                   with
                   | (Resolved _, fs2) =>
                       (Resolved
                          {| url := "/uploads/photos/"
                                    ++ string_of_Z timestamp ++ "_"
                                    ++ file_name input ++ "." ++ fmt;
                             fileName := string_of_Z timestamp ++ "_"
                                         ++ file_name input ++ "." ++ fmt |},
                        fs2)
                   | (Rejected e, fs2) => (Rejected e, fs2)
                   end
             end).
Proof.
  split.
  - intros Hinvalid.
    destruct (validation_error_text _ Hinvalid) as (c & e & Herror).
    unfold uploadPhoto, try_catch. rewrite Hinvalid, Herror. simpl.
    by eexists.
  - intros fmt Hvalid Hformat.
    destruct (validation_accepts _ Hvalid)
      as (group1 & payload & Hmatch & Hresult & Hallowed & _ & Hsize & _).
    rewrite Hresult in Hformat. injection Hformat as <-.
    split; [done|]. intros fs1 <-.
    assert (Hext : match toLowerCase group1 with
                   | String c f => String c f
                   | EmptyString => "jpg"
                   end = toLowerCase group1).
    { destruct (toLowerCase group1) eqn:Hl; [|done].
      assert (Hne : "" ∉ ALLOWED_FORMATS)
        by (apply (bool_decide_unpack _); reflexivity).
      done. }
    unfold uploadPhoto, try_catch, bind. rewrite Hresult. simpl.
    destruct (ensureUploadDir FileSystem existsSync mkdir_recursive fs)
      as [[[]|e] fs1]; simpl; [|done].
    unfold strip_data_url_header. rewrite Hmatch.
    rewrite bool_decide_false by lia.
    change (match toLowerCase group1 with
            | "" => "jpg"
            | String c f => String c f
            end)
      with (match toLowerCase group1 with
            | String c f => String c f
            | EmptyString => "jpg"
            end).
    rewrite Hext.
    by destruct (writeFile _ _ fs1) as [[[]|e] fs2].
Qed.

End PhotoOutcome.

Section PhotoRoundTrip.

Context (FileSystem : Type)
  (join : string -> string -> string)
  (existsSync : string -> FileSystem -> bool)
  (mkdir_recursive : string -> Async FileSystem unit)
  (writeFile : string -> Buffer -> Async FileSystem unit)
  (readFile : string -> Async FileSystem Buffer)
  (unlink : string -> Async FileSystem unit).

(** What the handlers need of the file system: a file that was written
    exists and reads back as written, and an existing file can be
    unlinked, after which it does not exist. *)
Hypothesis written : forall path data fs fs',
  writeFile path data fs = (Resolved tt, fs') ->
  existsSync path fs' = true /\ readFile path fs' = (Resolved data, fs').
Hypothesis unlinked : forall path fs,
  existsSync path fs = true ->
  exists fs', unlink path fs = (Resolved tt, fs')
              /\ existsSync path fs' = false.


End PhotoRoundTrip.




Section PhotoRefused.

Context (FileSystem : Type)
  (join : string -> string -> string)
  (existsSync : string -> FileSystem -> bool)
  (mkdir_recursive : string -> Async FileSystem unit)
  (writeFile : string -> Buffer -> Async FileSystem unit)
  (readFile : string -> Async FileSystem Buffer)
  (unlink : string -> Async FileSystem unit).

(** X14. [uploadPhoto] does not check the file name that [getPhoto] and
    [deletePhoto] check. When an upload resolves although its
    [file_name] contains [..], [/] or [\], or ends with a full stop
    (which meets the full stop before the extension), the returned name
    is refused by both: on every file system [getPhoto] resolves to
    null for it and [deletePhoto] rejects with [Invalid filename]. *)
Theorem uploadPhoto_name_refused
    (timestamp : Z) (input : UploadPhotoInput) (fs : FileSystem)
    (r : UploadResult) :
  fst (uploadPhoto FileSystem join existsSync mkdir_recursive writeFile
         timestamp input fs) = Resolved r ->
  contains (file_name input) ".." \/ contains (file_name input) "/"
  \/ contains (file_name input) "\"
  \/ (exists stem, file_name input = stem ++ ".") ->
  forall fs',
    getPhoto FileSystem join existsSync readFile (fileName r) fs'
    = (Resolved None, fs')
    /\ deletePhoto FileSystem join existsSync unlink (fileName r) fs'
       = (Rejected (mkError "Invalid filename"), fs').
Proof.
  intros Hupload Hname fs'. apply uploadPhoto_fileName in Hupload.
  assert (Hbad : traversal (fileName r) = true).
  { apply (traversal_spec FileSystem join existsSync readFile unlink).
    rewrite Hupload.
    destruct Hname as [H|[H|[H|[stem H]]]].
    - left. by apply contains_app_r, contains_app_r, contains_app_l.
    - right; left. by apply contains_app_r, contains_app_r, contains_app_l.
    - right; right. by apply contains_app_r, contains_app_r, contains_app_l.
    - left. rewrite H, append_assoc.
      apply contains_app_r, contains_app_r, contains_app_r.
      apply (contains_app_l ".." _ ".."), contains_self. }
  unfold getPhoto, deletePhoto, try_catch. by rewrite Hbad.
Qed.

End PhotoRefused.

Lemma uploadPhoto_name_refused_witness :
  MemFs.getPhoto "1000_foto..gif" (snd (MemFs.uploadPhoto 1000 dotted_upload ∅))
  = (Resolved None, snd (MemFs.uploadPhoto 1000 dotted_upload ∅))
  /\ MemFs.deletePhoto "1000_foto..gif"
       (snd (MemFs.uploadPhoto 1000 dotted_upload ∅))
     = (Rejected (mkError "Invalid filename"),
        snd (MemFs.uploadPhoto 1000 dotted_upload ∅)).
Proof.
  apply (uploadPhoto_name_refused MemFs.FileSystem MemFs.join MemFs.existsSync
           MemFs.mkdir_recursive MemFs.writeFile MemFs.readFile MemFs.unlink
           1000 dotted_upload ∅
           {| url := "/uploads/photos/1000_foto..gif";
              fileName := "1000_foto..gif" |}).
  - vm_compute. reflexivity.
  - do 3 right. by exists "foto".
Defined.

(** X15. What [validatePhotoFormat] accepts: a valid result carries no
    error and the lower-case format of a data URL whose format is one
    of jpeg, jpg, png and gif, whose payload is base64 text that decodes
    to at most 5 MiB, and whose decoded bytes begin with the signature
    of the format. An invalid result carries no format and an error
    text that is not empty. *)
Theorem validatePhotoFormat_sound (fileData : string) :
  (valid (validatePhotoFormat fileData) = true ->
   exists fmt payload,
     data_url fileData fmt payload
     /\ format (validatePhotoFormat fileData) = Some (toLowerCase fmt)
     /\ validation_error (validatePhotoFormat fileData) = None
     /\ toLowerCase fmt ∈ ALLOWED_FORMATS
     /\ base64_text payload
     /\ Z.of_nat (length (Base64.decode payload)) <= MAX_FILE_SIZE
     /\ header_ok (toLowerCase fmt) (Base64.decode payload))
  /\ (valid (validatePhotoFormat fileData) = false ->
      format (validatePhotoFormat fileData) = None
      /\ exists text,
           validation_error (validatePhotoFormat fileData) = Some text
           /\ text <> "").
Proof.
  split.
  - intros Hvalid.
    destruct (validation_accepts _ Hvalid)
      as (fmt & payload & Hmatch & Hresult & Hallowed & Htext & Hsize & Hheader).
    exists fmt, payload. rewrite Hresult. split_and!; try done.
    + by apply match_data_url_spec.
    + destruct Htext as [->|Htext];
        [apply base64_text_empty | by apply base64_test_spec].
    + by apply validateImageHeader_spec.
  - intros Hinvalid.
    destruct (validation_error_text _ Hinvalid) as (c & e & Herror).
    split; [|by eexists].
    revert Hinvalid. unfold validatePhotoFormat.
    destruct (match_data_url fileData) as [[group1 payload]|]; [|done].
    repeat match goal with
           | |- context [if ?b then _ else _] => destruct b; try done
           end.
Qed.


(** ** Accounts *)

Section Login.

Context (password_verify : string -> string -> Outcome bool) `{!Driver}.

Lemma login_refused input db :
  text_ok (li_username input) = false ->
  login password_verify input db
  = (Rejected (query_error (select_user_by_username (li_username input))), db).
Proof.
  intros Hname. unfold login, try_catch, bind.
  by rewrite execute_refused.
Qed.

Lemma login_unknown input db :
  text_ok (li_username input) = true ->
  Forall (fun u => username u <> li_username input) (usersTable db) ->
  login password_verify input db
  = (Rejected (mkError "Invalid username or password"), db).
Proof.
  intros Hname Hmissing. unfold login, try_catch, bind, get.
  rewrite execute_accepted by done.
  by rewrite (filter_none _ _ Hmissing).
Qed.

Lemma login_known input db user rest :
  text_ok (li_username input) = true ->
  filter (fun u => username u = li_username input) (usersTable db)
  = user :: rest ->
  login password_verify input db
  = match password_verify (li_password input) (password user) with
    | Resolved true => (Resolved (without_password user), db)
    | Resolved false =>
        (Rejected (mkError "Invalid username or password"), db)
    | Rejected e => (Rejected e, db)
    end.
Proof.
  intros Hname Hf. unfold login, try_catch, bind, get.
  rewrite execute_accepted by done.
  rewrite Hf. simpl.
  by destruct (password_verify (li_password input) (password user))
    as [[|]|e].
Qed.

(** X16. [login] never writes. For a user name without a NUL
    character it rejects with [Invalid username or password] both when
    no user has the name and when the stored hash does not verify the
    password, so the two cases cannot be told apart. A user name with a
    NUL character is refused by the store, and the call rejects with
    the error of the driver. When it resolves, the result is a stored
    user with that name whose hash verifies the password, returned with
    an empty [password]. *)
Theorem login_outcome (input : LoginInput) (db : Database) :
  snd (login password_verify input db) = db
  /\ (text_ok (li_username input) = true ->
      Forall (fun u => username u <> li_username input) (usersTable db) ->
      login password_verify input db
      = (Rejected (mkError "Invalid username or password"), db))
  /\ (forall user rest,
        text_ok (li_username input) = true ->
        filter (fun u => username u = li_username input) (usersTable db)
        = user :: rest ->
        password_verify (li_password input) (password user) = Resolved false ->
        login password_verify input db
        = (Rejected (mkError "Invalid username or password"), db))
  /\ (text_ok (li_username input) = false ->
      login password_verify input db
      = (Rejected (query_error (select_user_by_username (li_username input))),
         db))
  /\ (forall u,
        fst (login password_verify input db) = Resolved u ->
        password u = ""
        /\ username u = li_username input
        /\ exists stored,
             stored ∈ usersTable db
             /\ u = without_password stored
             /\ password_verify (li_password input) (password stored)
                = Resolved true).
Proof.
  destruct (text_ok (li_username input)) eqn:Htext; cycle 1.
  { rewrite (login_refused _ _ Htext). split_and!; try done. }
  destruct (decide (Exists (fun u => username u = li_username input)
                      (usersTable db))) as [Hexists|Hmissing].
  - destruct (first_match _ _ Hexists) as (user & rest & Hf & Hname & Hin).
    rewrite (login_known _ _ _ _ Htext Hf). split_and!.
    + by destruct (password_verify _ _) as [[|]|e].
    + intros _ Hnone. rewrite (filter_none _ _ Hnone) in Hf. done.
    + intros user' rest' _ Hf' Hfalse. rewrite Hf in Hf'.
      injection Hf' as <- <-. by rewrite Hfalse.
    + done.
    + intros u.
      destruct (password_verify _ _) as [[|]|e] eqn:Hverify; try done.
      simpl. intros [= <-]. split_and!; [done|done|]. by exists user.
  - apply not_Exists_Forall in Hmissing; [|intros u; apply _].
    assert (Hnone : Forall (fun u => username u <> li_username input)
                      (usersTable db))
      by (eapply Forall_impl; [exact Hmissing|]; simpl; auto).
    rewrite (login_unknown _ _ Htext Hnone). split_and!; try done.
Qed.

End Login.

Section CreateUser.

Context (password_hash : string -> string -> string) `{!Driver}.

Lemma createUser_refused serial salt now input db :
  text_ok (cu_username input) = false ->
  createUser password_hash serial salt now input db
  = (Rejected (query_error (select_user_by_username (cu_username input))), db).
Proof.
  intros Hname. unfold createUser, try_catch, bind.
  by rewrite execute_refused.
Qed.

Lemma createUser_existing serial salt now input db :
  text_ok (cu_username input) = true ->
  Exists (fun u => username u = cu_username input) (usersTable db) ->
  createUser password_hash serial salt now input db
  = (Rejected (mkError "Username already exists"), db).
Proof.
  intros Hname Hexists.
  destruct (first_match _ _ Hexists) as (user & rest & Hf & _ & _).
  unfold createUser, try_catch, bind, get.
  rewrite execute_accepted by done. rewrite Hf.
  rewrite bool_decide_true by (simpl; lia). reflexivity.
Qed.

Lemma createUser_fresh serial salt now input db :
  text_ok (cu_username input) = true ->
  Forall (fun u => username u <> cu_username input) (usersTable db) ->
  createUser password_hash serial salt now input db
  = (Resolved
       (without_password (created_user password_hash serial salt now input)),
     mkDatabase
       (usersTable db ++ [created_user password_hash serial salt now input])
       (studentsTable db) (violationsTable db) (violations_id_seq db)).
Proof.
  intros Hname Hmissing. unfold createUser, try_catch, bind, get.
  rewrite execute_accepted by done.
  rewrite (filter_none _ _ Hmissing).
  rewrite bool_decide_false by (simpl; lia).
  rewrite execute_accepted by done. reflexivity.
Qed.

(** [createUser] either rejects and leaves the store alone, or appends
    the user it returns. *)
Lemma createUser_cases serial salt now input db :
  (exists e,
     createUser password_hash serial salt now input db = (Rejected e, db))
  \/ (text_ok (cu_username input) = true
      /\ Forall (fun u => username u <> cu_username input) (usersTable db)
      /\ createUser password_hash serial salt now input db
         = (Resolved
              (without_password
                 (created_user password_hash serial salt now input)),
            mkDatabase
              (usersTable db
               ++ [created_user password_hash serial salt now input])
              (studentsTable db) (violationsTable db) (violations_id_seq db))).
Proof.
  destruct (text_ok (cu_username input)) eqn:Hname;
    [|left; eexists; by apply createUser_refused].
  destruct (decide (Exists (fun u => username u = cu_username input)
                      (usersTable db))) as [Hexists|Hmissing].
  { left. eexists. by apply createUser_existing. }
  apply not_Exists_Forall in Hmissing; [|intros x; apply _].
  assert (Hnone : Forall (fun u => username u <> cu_username input)
                    (usersTable db))
    by (eapply Forall_impl; [exact Hmissing|]; simpl; auto).
  right. split_and!; [done|done|]. by apply createUser_fresh.
Qed.


End CreateUser.

Section Accounts.

Context (password_hash : string -> string -> string)
  (password_verify : string -> string -> Outcome bool) `{!Driver}.

(** What the handlers need of the password functions: a hash verifies
    the password it was made from. *)
Hypothesis verify_hash : forall salt password,
  password_verify password (password_hash salt password) = Resolved true.

(** X18. On such password functions a new account can log in: after a
    resolved [createUser], [login] with the same user name and password
    resolves to the very user [createUser] returned, and leaves the
    store alone; with a password that the stored hash does not verify
    it rejects. *)
Theorem createUser_then_login
    (serial : Z) (salt : string) (now : Date) (input : CreateUserInput)
    (db db' : Database) (u : User) :
  createUser password_hash serial salt now input db = (Resolved u, db') ->
  login password_verify
    {| li_username := cu_username input; li_password := cu_password input |}
    db'
  = (Resolved u, db')
  /\ forall other,
       password_verify other (password_hash salt (cu_password input))
       = Resolved false ->
       login password_verify
         {| li_username := cu_username input; li_password := other |} db'
       = (Rejected (mkError "Invalid username or password"), db').
Proof.
  intros Hcreate.
  destruct (createUser_cases password_hash serial salt now input db)
    as [[e Heq]|(Hname & Hnone & Heq)];
    rewrite Heq in Hcreate; [discriminate Hcreate|].
  injection Hcreate as <- <-.
  assert (Hf : forall pw,
    filter (fun x => username x
                     = li_username {| li_username := cu_username input;
                                      li_password := pw |})
      (usersTable
         (mkDatabase
            (usersTable db
             ++ [created_user password_hash serial salt now input])
            (studentsTable db) (violationsTable db) (violations_id_seq db)))
    = [created_user password_hash serial salt now input]).
  { intros pw. simpl. rewrite filter_app, (filter_none _ _ Hnone).
    rewrite filter_cons, decide_True by done. done. }
  split.
  - rewrite (login_known password_verify
               {| li_username := cu_username input;
                  li_password := cu_password input |} _ _ _ Hname (Hf _)).
    simpl. by rewrite verify_hash.
  - intros other Hother.
    rewrite (login_known password_verify
               {| li_username := cu_username input; li_password := other |}
               _ _ _ Hname (Hf _)).
    simpl. by rewrite Hother.
Qed.

End Accounts.

Lemma createUser_then_login_witness :
  login plain_verify {| li_username := "pakguru"; li_password := "rahasia" |}
    (snd (createUser plain_hash 2 "garam" 80 pak_guru sample_db))
  = (Resolved
       {| user_id := 2; username := "pakguru"; password := "";
          role := teacher; user_created_at := 80; user_updated_at := 80 |},
     snd (createUser plain_hash 2 "garam" 80 pak_guru sample_db)).
Proof.
  refine (proj1 (createUser_then_login plain_hash plain_verify _
                   2 "garam" 80 pak_guru sample_db _ _ _)).
  - intros salt pw. unfold plain_verify, plain_hash.
    by rewrite String.eqb_refl.
  - reflexivity.
Defined.

Section SetupAdmin.

Context (password_hash : string -> string -> string) `{!Driver}.

(** X19. [setupAdminUser] never rejects. When no user is named [user]
    it creates the administrator [user] and reports success, and a
    second call then reports [Admin user already exists] and changes
    nothing. When the first user named [user] is an administrator it
    reports the same and changes nothing. When that user is a teacher
    it reports the failure [Failed to setup admin user: Username
    already exists] and changes nothing. *)
Theorem setupAdminUser_outcome
    (serial : Z) (salt : string) (now : Date) (db : Database) :
  (Forall (fun u => username u <> "user") (usersTable db) ->
   exists db',
     setupAdminUser password_hash serial salt now db
     = (Resolved {| setup_success := true;
                    setup_message := "Admin user created successfully" |},
        db')
     /\ usersTable db'
        = (usersTable db
           ++ [created_user password_hash serial salt now adminInput])%list
     /\ forall serial' salt' now',
          setupAdminUser password_hash serial' salt' now' db'
          = (Resolved {| setup_success := true;
                         setup_message := "Admin user already exists" |},
             db'))
  /\ (forall first rest,
        filter (fun u => username u = "user") (usersTable db) = first :: rest ->
        (role first = admin ->
         setupAdminUser password_hash serial salt now db
         = (Resolved {| setup_success := true;
                        setup_message := "Admin user already exists" |}, db))
        /\ (role first = teacher ->
            setupAdminUser password_hash serial salt now db
            = (Resolved
                 {| setup_success := false;
                    setup_message :=
                      "Failed to setup admin user: Username already exists" |},
               db)))
  /\ exists r db',
       setupAdminUser password_hash serial salt now db = (Resolved r, db').
Proof.
  assert (Hfound : forall serial salt now db first rest,
    filter (fun u => username u = "user") (usersTable db) = first :: rest ->
    setupAdminUser password_hash serial salt now db
    = match role first with
      | admin =>
          (Resolved {| setup_success := true;
                       setup_message := "Admin user already exists" |}, db)
      | teacher =>
          (Resolved
             {| setup_success := false;
                setup_message :=
                  "Failed to setup admin user: Username already exists" |},
           db)
      end).
  { intros serial0 salt0 now0 db0 first rest Hf.
    unfold setupAdminUser, try_catch, bind, get.
    rewrite execute_accepted by reflexivity. rewrite Hf.
    destruct (role first); [reflexivity|].
    pose proof (createUser_existing password_hash serial0 salt0 now0
                  adminInput db0 eq_refl) as Hexisting.
    unfold adminInput in Hexisting. rewrite Hexisting; [reflexivity|].
    apply Exists_exists. exists first.
    assert (Hin : first ∈ filter (fun u => username u = "user")
                            (usersTable db0)) by (rewrite Hf; left).
    by apply list_elem_of_filter in Hin as [? ?]. }
  assert (Hfresh : Forall (fun u => username u <> "user") (usersTable db) ->
    setupAdminUser password_hash serial salt now db
    = (Resolved {| setup_success := true;
                   setup_message := "Admin user created successfully" |},
       mkDatabase
         (usersTable db
          ++ [created_user password_hash serial salt now adminInput])
         (studentsTable db) (violationsTable db) (violations_id_seq db))).
  { intros Hnone.
    pose proof (createUser_fresh password_hash serial salt now adminInput db
                  eq_refl Hnone) as Hcreate.
    unfold setupAdminUser, try_catch, bind, get.
    rewrite execute_accepted by reflexivity.
    rewrite (filter_none _ _ Hnone).
    unfold adminInput in Hcreate. by rewrite Hcreate. }
  split_and!.
  - intros Hnone. eexists. split; [by apply Hfresh|]. split; [reflexivity|].
    intros serial' salt' now'.
    rewrite (Hfound serial' salt' now' _
               (created_user password_hash serial salt now adminInput) []);
      [reflexivity|].
    simpl. rewrite filter_app, (filter_none _ _ Hnone).
    by rewrite filter_cons, decide_True by done.
  - intros first rest Hf. rewrite (Hfound _ _ _ _ _ _ Hf).
    split; by intros ->.
  - destruct (decide (Exists (fun u => username u = "user") (usersTable db)))
      as [Hexists|Hmissing].
    + destruct (first_match _ _ Hexists) as (first & rest & Hf & _ & _).
      rewrite (Hfound _ _ _ _ _ _ Hf). destruct (role first); by eexists _, _.
    + apply not_Exists_Forall in Hmissing; [|intros x; apply _].
      rewrite Hfresh; [by eexists _, _|].
      eapply Forall_impl; [exact Hmissing|]. simpl. auto.
Qed.

End SetupAdmin.

Section CurrentUser.

Context `{!Driver}.

(** X20. [getCurrentUser] never writes. On an identifier within the
    32-bit integers it resolves: to null exactly when no user carries
    the identifier; otherwise to a stored user with that identifier,
    returned with an empty [password]. An identifier outside the 32-bit
    integers is refused by the store, and the call rejects with the
    error of the driver. *)
Theorem getCurrentUser_lookup (userId : Z) (db : Database) :
  (int4 userId = true ->
   exists r,
     getCurrentUser userId db = (Resolved r, db)
     /\ (r = None <-> Forall (fun u => user_id u <> userId) (usersTable db))
     /\ (forall u, r = Some u ->
           password u = "" /\ user_id u = userId
           /\ exists stored,
                stored ∈ usersTable db /\ u = without_password stored))
  /\ (int4 userId = false ->
      getCurrentUser userId db =
        (Rejected (query_error (select_user userId)), db)).
Proof.
  unfold getCurrentUser, try_catch, bind, get.
  split; intros Hx;
    [rewrite execute_accepted by done | by rewrite execute_refused].
  destruct (decide (Exists (fun u => user_id u = userId) (usersTable db)))
    as [Hexists|Hmissing].
  - destruct (first_match _ _ Hexists) as (user & rest & Hf & Hid & Hin).
    rewrite Hf. eexists. split; [reflexivity|]. split.
    + split; [done|]. intros Hnone.
      by rewrite (filter_none _ _ Hnone) in Hf.
    + intros u [= <-]. split_and!; [done|done|]. by exists user.
  - apply not_Exists_Forall in Hmissing; [|intros x; apply _].
    assert (Hnone : Forall (fun u => user_id u <> userId) (usersTable db))
      by (eapply Forall_impl; [exact Hmissing|]; simpl; auto).
    rewrite (filter_none _ _ Hnone). eexists. split; [reflexivity|].
    split; [done | intros u [=]].
Qed.

End CurrentUser.

Lemma getCurrentUser_lookup_witness :
  exists r,
    getCurrentUser 1 sample_db = (Resolved r, sample_db)
    /\ (r = None <-> Forall (fun u => user_id u <> 1) (usersTable sample_db))
    /\ (forall u, r = Some u ->
          password u = "" /\ user_id u = 1
          /\ exists stored,
               stored ∈ usersTable sample_db /\ u = without_password stored).
Proof.
  apply (getCurrentUser_lookup 1 sample_db). reflexivity.
Defined.

Lemma login_outcome_witness :
  login plain_verify {| li_username := "tamu"; li_password := "rahasia" |}
    sample_db
  = (Rejected (mkError "Invalid username or password"), sample_db).
Proof.
  apply (login_outcome plain_verify
           {| li_username := "tamu"; li_password := "rahasia" |} sample_db).
  - reflexivity.
  - apply (bool_decide_unpack _). vm_compute. reflexivity.
Defined.


(** ** Thumbnails *)

Lemma all_below_spec n p :
  all_below n p = true -> forall x, 0 <= x < n -> p x = true.
Proof.
  unfold all_below. rewrite forallb_forall. intros Hall x Hx.
  apply Hall, list_elem_of_In, elem_of_seqZ. lia.
Qed.

Lemma list_ind3 {A} (P : list A -> Prop) :
  P [] -> (forall a, P [a]) -> (forall a b, P [a; b]) ->
  (forall a b c rest, P rest -> P (a :: b :: c :: rest)) ->
  forall l, P l.
Proof.
  intros H0 H1 H2 H3. fix IH 1.
  intros [|a [|b [|c rest]]]; [exact H0 | apply H1 | apply H2 | apply H3, IH].
Qed.

Lemma list_ind4 {A} (P : list A -> Prop) :
  P [] -> (forall a, P [a]) -> (forall a b, P [a; b]) ->
  (forall a b c, P [a; b; c]) ->
  (forall a b c d rest, P rest -> P (a :: b :: c :: d :: rest)) ->
  forall l, P l.
Proof.
  intros H0 H1 H2 H3 H4. fix IH 1.
  intros [|a [|b [|c [|d rest]]]];
    [exact H0 | apply H1 | apply H2 | apply H3 | apply H4, IH].
Qed.

Lemma base64_char_spec v :
  is_sextet v ->
  Base64.sextet (base64_char v) = Some v
  /\ Ascii.eqb (base64_char v) "=" = false
  /\ Base64.alphabet (base64_char v) = true.
Proof.
  intros Hv.
  assert (Hall : all_below 64 (fun v =>
            bool_decide (Base64.sextet (base64_char v) = Some v)
            && negb (Ascii.eqb (base64_char v) "=")
            && Base64.alphabet (base64_char v)) = true)
    by (vm_compute; reflexivity).
  apply (all_below_spec _ _ Hall) in Hv.
  apply andb_true_iff in Hv as [Hv Halpha].
  apply andb_true_iff in Hv as [Hsextet Hpad].
  split_and!; [|by apply negb_true_iff|done].
  by apply bool_decide_eq_true in Hsextet.
Qed.

Lemma sextet_range c v : Base64.sextet c = Some v -> is_sextet v.
Proof.
  assert (Hall : all_below 256 (fun n =>
            match Base64.sextet (ascii_of_nat (Z.to_nat n)) with
            | Some v => (0 <=? v)%Z && (v <? 64)%Z
            | None => true
            end) = true)
    by (vm_compute; reflexivity).
  intros Hc.
  pose proof (all_below_spec _ _ Hall (Z.of_nat (nat_of_ascii c))) as Hn.
  cbv beta in Hn. rewrite Nat2Z.id, ascii_nat_embedding, Hc in Hn.
  unfold is_sextet.
  pose proof (nat_ascii_bounded c).
  assert (Hb : (0 <=? v)%Z && (v <? 64)%Z = true) by (apply Hn; lia).
  apply andb_true_iff in Hb as [?%Z.leb_le ?%Z.ltb_lt]. lia.
Qed.

(** Three bytes against the four sextets that stand for them. *)
Lemma sextets_of_bytes x y :
  is_byte x -> is_byte y ->
  is_sextet (Z.shiftr x 2)
  /\ is_sextet (Z.lor (Z.shiftl (Z.land x 3) 4) (Z.shiftr y 4))
  /\ is_sextet (Z.lor (Z.shiftl (Z.land x 15) 2) (Z.shiftr y 6))
  /\ is_sextet (Z.land x 63)
  /\ is_sextet (Z.shiftl (Z.land x 15) 2)
  /\ is_sextet (Z.shiftl (Z.land x 3) 4)
  /\ Z.lor (Z.shiftl (Z.shiftr x 2) 2)
       (Z.shiftr (Z.lor (Z.shiftl (Z.land x 3) 4) (Z.shiftr y 4)) 4) = x
  /\ Z.lor (Z.shiftl (Z.shiftr x 2) 2)
       (Z.shiftr (Z.shiftl (Z.land x 3) 4) 4) = x
  /\ Z.land (Z.lor (Z.shiftl (Z.land y 3) 4) (Z.shiftr x 4)) 15
     = Z.shiftr x 4
  /\ Z.shiftr (Z.lor (Z.shiftl (Z.land x 15) 2) (Z.shiftr y 6)) 2
     = Z.land x 15
  /\ Z.shiftr (Z.shiftl (Z.land x 15) 2) 2 = Z.land x 15
  /\ Z.lor (Z.shiftl (Z.shiftr x 4) 4) (Z.land x 15) = x
  /\ Z.lor
       (Z.shiftl
          (Z.land (Z.lor (Z.shiftl (Z.land x 15) 2) (Z.shiftr y 6)) 3) 6)
       (Z.land y 63) = y.
Proof.
  intros Hx Hy.
  set (sx := fun v => (0 <=? v)%Z && (v <? 64)%Z).
  assert (Hall : all_below 256 (fun x => all_below 256 (fun y =>
    sx (Z.shiftr x 2)
    && sx (Z.lor (Z.shiftl (Z.land x 3) 4) (Z.shiftr y 4))
    && sx (Z.lor (Z.shiftl (Z.land x 15) 2) (Z.shiftr y 6))
    && sx (Z.land x 63)
    && sx (Z.shiftl (Z.land x 15) 2)
    && sx (Z.shiftl (Z.land x 3) 4)
    && (Z.lor (Z.shiftl (Z.shiftr x 2) 2)
          (Z.shiftr (Z.lor (Z.shiftl (Z.land x 3) 4) (Z.shiftr y 4)) 4)
        =? x)%Z
    && (Z.lor (Z.shiftl (Z.shiftr x 2) 2)
          (Z.shiftr (Z.shiftl (Z.land x 3) 4) 4) =? x)%Z
    && (Z.land (Z.lor (Z.shiftl (Z.land y 3) 4) (Z.shiftr x 4)) 15
        =? Z.shiftr x 4)%Z
    && (Z.shiftr (Z.lor (Z.shiftl (Z.land x 15) 2) (Z.shiftr y 6)) 2
        =? Z.land x 15)%Z
    && (Z.shiftr (Z.shiftl (Z.land x 15) 2) 2 =? Z.land x 15)%Z
    && (Z.lor (Z.shiftl (Z.shiftr x 4) 4) (Z.land x 15) =? x)%Z
    && (Z.lor
          (Z.shiftl
             (Z.land (Z.lor (Z.shiftl (Z.land x 15) 2) (Z.shiftr y 6)) 3) 6)
          (Z.land y 63) =? y)%Z)) = true)
    by (vm_compute; reflexivity).
  pose proof (all_below_spec _ _ (all_below_spec _ _ Hall x Hx) y Hy) as H.
  subst sx. simpl in H. unfold is_sextet.
  repeat (apply andb_true_iff in H as [H ?]).
  repeat match goal with
         | H : Z.eqb _ _ = true |- _ => apply Z.eqb_eq in H
         | H : Z.leb _ _ = true |- _ => apply Z.leb_le in H
         | H : Z.ltb _ _ = true |- _ => apply Z.ltb_lt in H
         end.
  split_and!; (lia || done).
Qed.

Lemma bytes_of_sextets a b :
  is_sextet a -> is_sextet b ->
  is_byte (Z.lor (Z.shiftl a 2) (Z.shiftr b 4))
  /\ is_byte (Z.lor (Z.shiftl (Z.land a 15) 4) (Z.shiftr b 2))
  /\ is_byte (Z.lor (Z.shiftl (Z.land a 3) 6) b).
Proof.
  intros Ha Hb.
  set (by_ := fun v => (0 <=? v)%Z && (v <? 256)%Z).
  assert (Hall : all_below 64 (fun a => all_below 64 (fun b =>
    by_ (Z.lor (Z.shiftl a 2) (Z.shiftr b 4))
    && by_ (Z.lor (Z.shiftl (Z.land a 15) 4) (Z.shiftr b 2))
    && by_ (Z.lor (Z.shiftl (Z.land a 3) 6) b))) = true)
    by (vm_compute; reflexivity).
  pose proof (all_below_spec _ _ (all_below_spec _ _ Hall a Ha) b Hb) as H.
  subst by_. simpl in H. unfold is_byte.
  repeat (apply andb_true_iff in H as [H ?]).
  repeat match goal with
         | H : Z.leb _ _ = true |- _ => apply Z.leb_le in H
         | H : Z.ltb _ _ = true |- _ => apply Z.ltb_lt in H
         end.
  split_and!; lia.
Qed.

Lemma sextets_range s : Forall is_sextet (Base64.sextets s).
Proof.
  induction s as [|c s IH]; simpl; [constructor|].
  destruct (Ascii.eqb c "="); [constructor|].
  destruct (Base64.sextet c) as [v|] eqn:Hc; [|done].
  constructor; [by apply (sextet_range c) | done].
Qed.

Lemma bytes_range l : Forall is_sextet l -> Forall is_byte (Base64.bytes l).
Proof.
  induction l as [| a | a b | a b c | a b c d rest IH] using list_ind4;
    intros Hl; cbn [Base64.bytes].
  - constructor.
  - constructor.
  - apply Forall_cons in Hl as [Ha [Hb _]%Forall_cons].
    constructor; [|constructor]. by apply bytes_of_sextets.
  - apply Forall_cons in Hl as [Ha [Hb [Hc _]%Forall_cons]%Forall_cons].
    constructor; [by apply bytes_of_sextets|].
    constructor; [|constructor]. by apply bytes_of_sextets.
  - apply Forall_cons in Hl
      as [Ha [Hb [Hc [Hd Hrest]%Forall_cons]%Forall_cons]%Forall_cons].
    constructor; [by apply bytes_of_sextets|].
    constructor; [by apply bytes_of_sextets|].
    constructor; [by apply bytes_of_sextets | by apply IH].
Qed.

Lemma decode_range s : Forall is_byte (Base64.decode s).
Proof. apply bytes_range, sextets_range. Qed.

Lemma sextets_char v s :
  is_sextet v ->
  Base64.sextets (String (base64_char v) s) = v :: Base64.sextets s.
Proof.
  intros Hv. destruct (base64_char_spec v Hv) as (Hsextet & Hpad & _).
  cbn [Base64.sextets]. by rewrite Hpad, Hsextet.
Qed.

(** Decoding undoes encoding. *)
Lemma decode_toString_base64 (b : Buffer) :
  Forall is_byte b -> Base64.decode (toString_base64 b) = b.
Proof.
  unfold Base64.decode.
  induction b as [| x | x y | x y z rest IH] using list_ind3; intros Hb.
  - reflexivity.
  - apply Forall_cons in Hb as [Hx _].
    destruct (sextets_of_bytes x x Hx Hx)
      as (Ha & _ & _ & _ & _ & Hb' & _ & Hbyte & _).
    cbn [toString_base64]. rewrite !sextets_char by done.
    cbn [Base64.sextets Ascii.eqb Bool.eqb]. cbn [Base64.bytes].
    by rewrite Hbyte.
  - apply Forall_cons in Hb as [Hx [Hy _]%Forall_cons].
    destruct (sextets_of_bytes x y Hx Hy)
      as (Ha & Hb' & _ & _ & _ & _ & Hbyte1 & _).
    destruct (sextets_of_bytes y x Hy Hx)
      as (_ & _ & _ & _ & Hc & _ & _ & _ & Hlow & _ & Hhigh & Hjoin & _).
    cbn [toString_base64]. rewrite !sextets_char by done.
    cbn [Base64.sextets Ascii.eqb Bool.eqb]. cbn [Base64.bytes].
    by rewrite Hbyte1, Hlow, Hhigh, Hjoin.
  - apply Forall_cons in Hb as [Hx [Hy [Hz Hrest]%Forall_cons]%Forall_cons].
    destruct (sextets_of_bytes x y Hx Hy)
      as (Ha & Hb' & _ & _ & _ & _ & Hbyte1 & _).
    destruct (sextets_of_bytes y x Hy Hx)
      as (_ & _ & _ & _ & _ & _ & _ & _ & Hlow & _ & _ & Hjoin & _).
    destruct (sextets_of_bytes y z Hy Hz)
      as (_ & _ & Hc & _ & _ & _ & _ & _ & _ & Hhigh & _ & _ & Hbyte3).
    destruct (sextets_of_bytes z z Hz Hz) as (_ & _ & _ & Hd & _).
    cbn [toString_base64]. rewrite !sextets_char by done.
    cbn [Base64.bytes]. rewrite Hbyte1, Hlow, Hhigh, Hjoin, Hbyte3.
    by rewrite IH.
Qed.

(** The encoder writes base64 text. *)
Lemma toString_base64_text (b : Buffer) :
  Forall is_byte b -> base64_text (toString_base64 b).
Proof.
  induction b as [| x | x y | x y z rest IH] using list_ind3; intros Hb.
  - apply base64_text_empty.
  - apply Forall_cons in Hb as [Hx _].
    destruct (sextets_of_bytes x x Hx Hx)
      as (Ha & _ & _ & _ & _ & Hb' & _).
    exists (String (base64_char (Z.shiftr x 2))
              (String (base64_char (Z.shiftl (Z.land x 3) 4)) "")), "==".
    split_and!; [reflexivity| |auto].
    cbn [every].
    by rewrite (proj2 (proj2 (base64_char_spec _ Ha))),
               (proj2 (proj2 (base64_char_spec _ Hb'))).
  - apply Forall_cons in Hb as [Hx [Hy _]%Forall_cons].
    destruct (sextets_of_bytes x y Hx Hy) as (Ha & Hb' & _).
    destruct (sextets_of_bytes y x Hy Hx) as (_ & _ & _ & _ & Hc & _).
    exists (String (base64_char (Z.shiftr x 2))
              (String (base64_char
                         (Z.lor (Z.shiftl (Z.land x 3) 4) (Z.shiftr y 4)))
                 (String (base64_char (Z.shiftl (Z.land y 15) 2)) ""))), "=".
    split_and!; [reflexivity| |auto].
    cbn [every].
    by rewrite (proj2 (proj2 (base64_char_spec _ Ha))),
               (proj2 (proj2 (base64_char_spec _ Hb'))),
               (proj2 (proj2 (base64_char_spec _ Hc))).
  - apply Forall_cons in Hb as [Hx [Hy [Hz Hrest]%Forall_cons]%Forall_cons].
    destruct (sextets_of_bytes x y Hx Hy) as (Ha & Hb' & _).
    destruct (sextets_of_bytes y z Hy Hz) as (_ & _ & Hc & _).
    destruct (sextets_of_bytes z z Hz Hz) as (_ & _ & _ & Hd & _).
    destruct (IH Hrest) as (body & pad & Htext & Hbody & Hpad).
    exists (String (base64_char (Z.shiftr x 2))
              (String (base64_char
                         (Z.lor (Z.shiftl (Z.land x 3) 4) (Z.shiftr y 4)))
                 (String (base64_char
                            (Z.lor (Z.shiftl (Z.land y 15) 2) (Z.shiftr z 6)))
                    (String (base64_char (Z.land z 63)) body)))), pad.
    split_and!; [|cbn [every]|done].
    + cbn [toString_base64]. rewrite Htext. reflexivity.
    + by rewrite (proj2 (proj2 (base64_char_spec _ Ha))),
                 (proj2 (proj2 (base64_char_spec _ Hb'))),
                 (proj2 (proj2 (base64_char_spec _ Hc))),
                 (proj2 (proj2 (base64_char_spec _ Hd))).
Qed.

Lemma header_ok_take (fmt : string) (n : nat) (b : Buffer) :
  (8 <= n)%nat -> header_ok fmt b -> header_ok fmt (take n b).
Proof.
  unfold header_ok. intros Hn [Hlen Hsig]. split.
  - rewrite length_take. lia.
  - rewrite !take_take.
    replace (3 `min` n)%nat with 3%nat by lia.
    replace (8 `min` n)%nat with 8%nat by lia.
    by replace (6 `min` n)%nat with 6%nat by lia.
Qed.

Lemma header_ok_mimeType fmt b :
  header_ok fmt b -> header_ok (mimeType_of fmt) b.
Proof.
  unfold mimeType_of. destruct (String.eqb_spec fmt "jpg") as [->|]; [|done].
  unfold header_ok. intros [Hlen [[_ Hsig]|[[[=] _]|[[=] _]]]].
  split; [done|]. left. auto.
Qed.

Lemma mimeType_allowed fmt :
  fmt ∈ ALLOWED_FORMATS ->
  mimeType_of fmt ∈ ALLOWED_FORMATS
  /\ toLowerCase (mimeType_of fmt) = mimeType_of fmt
  /\ mimeType_of fmt <> ""
  /\ every word_char (mimeType_of fmt) = true.
Proof.
  unfold ALLOWED_FORMATS. rewrite !elem_of_cons, elem_of_nil.
  intros [->|[->|[->|[->|[]]]]]; vm_compute; split_and!; auto; try done.
Qed.

Section ThumbnailProperties.

Context (scaled_size : Z -> Z).

(** X21. [generatePhotoThumbnail] rejects data that
    [validatePhotoFormat] refuses, with the error text of the
    validator. For accepted data it resolves, and what it resolves to
    is again accepted by [validatePhotoFormat], with the same format
    (jpeg for jpg when it cuts), and decodes to a prefix of the decoded
    photo: the photo itself when that has at most 200 KiB, and
    otherwise its first [max(floor(s / 3) * 3, 1024)] bytes, where [s]
    is the scaled size. *)
Theorem generatePhotoThumbnail_valid (fileData : string) :
  (valid (validatePhotoFormat fileData) = false ->
   exists e,
     generatePhotoThumbnail scaled_size fileData = Rejected e
     /\ validation_error (validatePhotoFormat fileData) = Some (message e))
  /\ (forall fmt,
        valid (validatePhotoFormat fileData) = true ->
        format (validatePhotoFormat fileData) = Some fmt ->
        exists thumbnail,
          generatePhotoThumbnail scaled_size fileData = Resolved thumbnail
          /\ valid (validatePhotoFormat thumbnail) = true
          /\ Base64.decode (strip_data_url_header thumbnail)
             `prefix_of` Base64.decode (strip_data_url_header fileData)
          /\ (Z.of_nat (length (Base64.decode (strip_data_url_header fileData)))
              <= THUMBNAIL_MAX_SIZE ->
              thumbnail = fileData)
          /\ (THUMBNAIL_MAX_SIZE
              < Z.of_nat (length (Base64.decode
                                    (strip_data_url_header fileData))) ->
              format (validatePhotoFormat thumbnail) = Some (mimeType_of fmt)
              /\ Z.of_nat (length (Base64.decode
                                     (strip_data_url_header thumbnail)))
                 = Z.min
                     (Z.max
                        (scaled_size
                           (Z.of_nat
                              (length (Base64.decode
                                         (strip_data_url_header fileData))))
                         / 3 * 3) 1024)
                     (Z.of_nat (length (Base64.decode
                                          (strip_data_url_header fileData)))))).
Proof.
  split.
  - intros Hinvalid.
    destruct (validation_error_text _ Hinvalid) as (c & e & Herror).
    unfold generatePhotoThumbnail. rewrite Hinvalid, Herror. simpl.
    by eexists.
  - intros fmt Hvalid Hformat.
    destruct (validation_accepts _ Hvalid)
      as (group1 & payload & Hmatch & Hresult & Hallowed & _ & Hsize & Hheader).
    rewrite Hresult in Hformat. injection Hformat as <-.
    assert (Hstrip : strip_data_url_header fileData = payload)
      by (unfold strip_data_url_header; by rewrite Hmatch).
    unfold generatePhotoThumbnail. rewrite Hvalid. simpl negb. cbv iota.
    rewrite !Hstrip.
    set (buffer := Base64.decode payload) in *.
    case_bool_decide as Hsmall.
    + exists fileData. rewrite Hstrip. fold buffer.
      split_and!; try done. lia.
    + set (n := Z.to_nat
                  (Z.max (scaled_size (Z.of_nat (length buffer)) / 3 * 3) 1024)).
      rewrite Hresult. cbn [format].
      change (if (toLowerCase group1 =? "jpg")%string then "jpeg"
              else toLowerCase group1)
        with (mimeType_of (toLowerCase group1)).
      destruct (mimeType_allowed _ Hallowed) as (Hmime & Hlower & Hne & Hword).
      set (thumbnail := "data:image/" ++ mimeType_of (toLowerCase group1)
                        ++ ";base64," ++ toString_base64 (take n buffer)).
      assert (Hurl : data_url thumbnail (mimeType_of (toLowerCase group1))
                       (toString_base64 (take n buffer))) by done.
      assert (Hbytes : Forall is_byte (take n buffer))
        by apply Forall_take, decode_range.
      assert (Hdecoded : Base64.decode (strip_data_url_header thumbnail)
                         = take n buffer).
      { unfold strip_data_url_header.
        rewrite (proj2 (match_data_url_spec _ _ _) Hurl).
        by apply decode_toString_base64. }
      assert (Hn : (8 <= n)%nat) by (subst n; lia).
      assert (Hthumb : validatePhotoFormat thumbnail
                       = {| valid := true;
                            format := Some (mimeType_of (toLowerCase group1));
                            validation_error := None |}).
      { rewrite (validatePhotoFormat_data_url _ _ _ Hurl), Hlower.
        rewrite bool_decide_true by done. simpl negb. cbv iota.
        rewrite (proj2 (base64_test_spec _) (toString_base64_text _ Hbytes)).
        rewrite andb_false_r.
        rewrite decode_toString_base64 by done.
        rewrite bool_decide_false
          by (rewrite length_take; subst buffer; lia).
        assert (validateImageHeader (take n buffer)
                  (mimeType_of (toLowerCase group1)) = true) as ->; [|done].
        apply validateImageHeader_spec; [done|].
        apply header_ok_mimeType, header_ok_take; [done|].
        by apply validateImageHeader_spec. }
      exists thumbnail. split_and!; try done.
      * by rewrite Hthumb.
      * rewrite Hdecoded. apply prefix_take.
      * intros _. rewrite Hthumb, Hdecoded, length_take. split; [done|].
        subst n. lia.
Qed.

End ThumbnailProperties.

Lemma jpeg_with_zeros (n : nat) :
  Z.of_nat (3 * n + 9) <= MAX_FILE_SIZE ->
  validatePhotoFormat
    ("data:image/jpeg;base64,"
     ++ "/9j/4AAQSkZJ" ++ Nat.iter n (String.append "AAAA") "")
  = {| valid := true; format := Some "jpeg"; validation_error := None |}
  /\ strip_data_url_header
       ("data:image/jpeg;base64,"
        ++ "/9j/4AAQSkZJ" ++ Nat.iter n (String.append "AAAA") "")
     = "/9j/4AAQSkZJ" ++ Nat.iter n (String.append "AAAA") ""
  /\ length (Base64.decode
               ("/9j/4AAQSkZJ" ++ Nat.iter n (String.append "AAAA") ""))
     = (3 * n + 9)%nat.
Proof.
  intros Hsize.
  destruct (groups_of_zeros n) as [Hlen Htext].
  remember (Nat.iter n (String.append "AAAA") "") as zeros eqn:Hzeros.
  clear Hzeros.
  assert (Hdecode : Base64.decode ("/9j/4AAQSkZJ" ++ zeros)
                    = 255 :: 216 :: 255 :: 224 :: 0 :: 16 :: 74 :: 70 :: 73
                      :: Base64.decode zeros) by reflexivity.
  assert (Hurl : data_url ("data:image/jpeg;base64," ++ "/9j/4AAQSkZJ" ++ zeros)
                   "jpeg" ("/9j/4AAQSkZJ" ++ zeros))
    by (split_and!; [reflexivity | discriminate | reflexivity]).
  split_and!.
  - rewrite (validatePhotoFormat_data_url _ _ _ Hurl).
    assert (base64_test ("/9j/4AAQSkZJ" ++ zeros) = true) as ->.
    { apply base64_test_spec. exists ("/9j/4AAQSkZJ" ++ zeros), "".
      rewrite append_nil_r. split_and!; [done| |auto].
      change (every Base64.alphabet zeros = true). exact Htext. }
    rewrite andb_false_r, Hdecode.
    rewrite (bool_decide_true (toLowerCase "jpeg" ∈ ALLOWED_FORMATS))
      by (apply (bool_decide_unpack _); reflexivity).
    rewrite (bool_decide_false (MAX_FILE_SIZE < _))
      by (cbn [length]; rewrite Hlen; lia).
    change (toLowerCase "jpeg") with "jpeg".
    by rewrite validateImageHeader_jpeg.
  - unfold strip_data_url_header.
    by rewrite (proj2 (match_data_url_spec _ _ _) Hurl).
  - rewrite Hdecode. cbn [length]. rewrite Hlen. lia.
Qed.

Lemma large_jpeg_valid :
  validatePhotoFormat large_jpeg
  = {| valid := true; format := Some "jpeg"; validation_error := None |}
  /\ Z.of_nat (length (Base64.decode (strip_data_url_header large_jpeg)))
     = 210009.
Proof.
  assert (Hzeros : large_jpeg
                   = "data:image/jpeg;base64,"
                     ++ "/9j/4AAQSkZJ"
                     ++ Nat.iter (Pos.to_nat 70000) (String.append "AAAA") "").
  { unfold large_jpeg, large_payload. by rewrite Pos2Nat.inj_iter. }
  rewrite Hzeros.
  destruct (jpeg_with_zeros (Pos.to_nat 70000)) as (Hvalid & Hstrip & Hlen).
  { unfold MAX_FILE_SIZE. rewrite Nat2Z.inj_add, Nat2Z.inj_mul, positive_nat_Z.
    lia. }
  split; [exact Hvalid|].
  rewrite Hstrip, Hlen, Nat2Z.inj_add, Nat2Z.inj_mul, positive_nat_Z. lia.
Qed.

Lemma generatePhotoThumbnail_valid_witness :
  exists thumbnail,
    generatePhotoThumbnail (fun _ => 204800) large_jpeg = Resolved thumbnail
    /\ valid (validatePhotoFormat thumbnail) = true
    /\ format (validatePhotoFormat thumbnail) = Some "jpeg"
    /\ Z.of_nat (length (Base64.decode (strip_data_url_header thumbnail)))
       = 204798.
Proof.
  destruct large_jpeg_valid as [Hvalid Hlen].
  destruct (generatePhotoThumbnail_valid (fun _ => 204800) large_jpeg)
    as [_ Haccepted].
  destruct (Haccepted "jpeg") as (thumbnail & Hgen & Hthumb & _ & _ & Hcut).
  { by rewrite Hvalid. }
  { by rewrite Hvalid. }
  destruct Hcut as [Hformat Hsize].
  { rewrite Hlen. unfold THUMBNAIL_MAX_SIZE. lia. }
  exists thumbnail. split_and!; [exact Hgen | exact Hthumb | exact Hformat |].
  rewrite Hsize, Hlen. reflexivity.
Defined.


(** ** Students *)

Section ListingProperties.

Context (collate_le : string -> string -> Prop)
  `{!forall a b, Decision (collate_le a b)}
  `{!Transitive collate_le} `{!Total collate_le}.

(** X22. [getStudents] never writes and never rejects: for a collation
    that is transitive and total it resolves to the stored students,
    each as often as it is stored, in ascending order of [name]. *)
Theorem getStudents_sorted (db : Database) :
  exists l,
    getStudents collate_le db = (Resolved l, db)
    /\ (l ≡ₚ studentsTable db)
    /\ StronglySorted (by_name collate_le) l.
Proof.
  eexists. split; [reflexivity|]. split.
  - apply merge_sort_Permutation.
  - assert (Transitive (by_name collate_le)).
    { intros a b c. unfold by_name. apply transitivity. }
    assert (Total (by_name collate_le)).
    { intros a b. unfold by_name. apply total. apply _. }
    apply (StronglySorted_merge_sort _).
Qed.

End ListingProperties.

Lemma shorter_le_trans : Transitive shorter_le.
Proof. intros a b c. unfold shorter_le. lia. Qed.

Lemma shorter_le_total : Total shorter_le.
Proof. intros a b. unfold shorter_le. lia. Qed.

Lemma getStudents_sorted_witness :
  exists l,
    getStudents shorter_le sample_db = (Resolved l, sample_db)
    /\ (l ≡ₚ studentsTable sample_db)
    /\ StronglySorted (by_name shorter_le) l.
Proof.
  apply (getStudents_sorted shorter_le (Transitive0 := shorter_le_trans)
           (Total0 := shorter_le_total) sample_db).
Defined.




Section StudentProperties.

Context `{!Driver}.







End StudentProperties.




(** ** Creating and deleting, setting up and logging in *)

Section CreateDelete.

Context `{!Driver}.

(** X25. A created violation can be deleted again, and its identifier is
    not handed out a second time: in a store whose serial is ahead of
    the stored identifiers, after a resolved [createViolation],
    [deleteViolation] on the returned identifier resolves and leaves the
    tables as they were before the creation, with the serial one
    further; the next violation that is created gets the next
    identifier. *)
Theorem createViolation_then_delete
    (now : Date) (input : CreateViolationInput) (db db1 : Database)
    (v : Violation) :
  sequence_ok db ->
  createViolation now input db = (Resolved v, db1) ->
  exists db2,
    deleteViolation (id v) db1 = (Resolved tt, db2)
    /\ violationsTable db2 = violationsTable db
    /\ studentsTable db2 = studentsTable db
    /\ usersTable db2 = usersTable db
    /\ violations_id_seq db2 = violations_id_seq db + 1
    /\ forall now' input' v' db3,
         createViolation now' input' db2 = (Resolved v', db3) ->
         id v' = id v + 1.
Proof.
  intros Hseq Hcreate.
  assert (Hfresh : Forall (fun w => id w <> violations_id_seq db)
                     (violationsTable db)).
  { eapply Forall_impl; [exact Hseq|]. simpl. intros w Hw. lia. }
  destruct (createViolation_cases now input db)
    as [[e Heq]|(Heq & _ & _ & Hrow)];
    rewrite Heq in Hcreate; [discriminate Hcreate|].
  injection Hcreate as <- <-.
  apply accepted_insert_violation in Hrow.
  eexists. split.
  { apply deleteViolation_found; [exact Hrow|].
    simpl. apply Exists_app. right. by left. }
  simpl. split_and!; try reflexivity.
  - rewrite filter_app, filter_cons, decide_False by (simpl; auto).
    rewrite filter_nil, app_nil_r. apply filter_all.
    eapply Forall_impl; [exact Hfresh|]. simpl. auto.
  - intros now' input' v' db3 Hnext.
    match type of Hnext with
    | createViolation _ _ ?d = _ => set (db2 := d) in *
    end.
    destruct (createViolation_cases now' input' db2)
      as [[e Heq']|(Heq' & _)];
      rewrite Heq' in Hnext; [discriminate Hnext|].
    injection Hnext as <- _. reflexivity.
Qed.

End CreateDelete.

Lemma createViolation_then_delete_witness :
  exists db2,
    deleteViolation 2 (snd (createViolation 50 merokok_input sample_db))
    = (Resolved tt, db2)
    /\ violationsTable db2 = violationsTable sample_db
    /\ violations_id_seq db2 = violations_id_seq sample_db + 1.
Proof.
  destruct (createViolation_then_delete 50 merokok_input sample_db
              (snd (createViolation 50 merokok_input sample_db))
              (created_row 50 merokok_input sample_db))
    as (db2 & Hdelete & Hrows & _ & _ & Hserial & _).
  - repeat constructor.
  - reflexivity.
  - exists db2. split_and!; [exact Hdelete | exact Hrows | exact Hserial].
Defined.

Section FirstLogin.

Context (password_hash : string -> string -> string)
  (password_verify : string -> string -> Outcome bool) `{!Driver}.

Hypothesis verify_hash : forall salt password,
  password_verify password (password_hash salt password) = Resolved true.

(** X26. On password functions where a hash verifies the password it
    was made from, the account that [setupAdminUser] creates can log
    in: when no user is named [user], [login] with the user name [user]
    and the password [user] resolves after [setupAdminUser] to an
    administrator with the drawn identifier, and leaves the store
    alone. *)
Theorem setupAdminUser_then_login
    (serial : Z) (salt : string) (now : Date) (db : Database) :
  Forall (fun u => username u <> "user") (usersTable db) ->
  login password_verify {| li_username := "user"; li_password := "user" |}
    (snd (setupAdminUser password_hash serial salt now db))
  = (Resolved
       {| user_id := serial; username := "user"; password := "";
          role := admin; user_created_at := now; user_updated_at := now |},
     snd (setupAdminUser password_hash serial salt now db)).
Proof.
  intros Hnone.
  pose proof (createUser_fresh password_hash serial salt now adminInput db
                eq_refl Hnone) as Hcreate.
  assert (Hsetup : snd (setupAdminUser password_hash serial salt now db)
                   = mkDatabase
                       (usersTable db
                        ++ [created_user password_hash serial salt now
                              adminInput])
                       (studentsTable db) (violationsTable db)
                       (violations_id_seq db)).
  { unfold setupAdminUser, try_catch, bind, get.
    rewrite execute_accepted by reflexivity.
    rewrite (filter_none _ _ Hnone).
    unfold adminInput in Hcreate. by rewrite Hcreate. }
  rewrite Hsetup.
  rewrite (login_known password_verify
             {| li_username := "user"; li_password := "user" |} _
             (created_user password_hash serial salt now adminInput) []).
  - simpl. by rewrite verify_hash.
  - reflexivity.
  - simpl. rewrite filter_app, (filter_none _ _ Hnone).
    by rewrite filter_cons, decide_True by done.
Qed.

End FirstLogin.

Lemma setupAdminUser_then_login_witness :
  login plain_verify {| li_username := "user"; li_password := "user" |}
    (snd (setupAdminUser plain_hash 2 "garam" 80 sample_db))
  = (Resolved
       {| user_id := 2; username := "user"; password := "";
          role := admin; user_created_at := 80; user_updated_at := 80 |},
     snd (setupAdminUser plain_hash 2 "garam" 80 sample_db)).
Proof.
  apply (setupAdminUser_then_login plain_hash plain_verify).
  - intros salt pw. unfold plain_verify, plain_hash.
    by rewrite String.eqb_refl.
  - repeat constructor. done.
Defined.

